(** * Canvas feed to CalDAV task synchronisation: classifier, fingerprint,
      record builder and reconciler

    A shallow embedding of [canvas.py], [ical_helpers.py],
    [caldav_client.py] and [sync.py], and of [parse_end_date] of
    [config.py].

    Conventions of the embedding.
    - A Python [str] is a [string] of bytes (its UTF-8 encoding);
      [str.lower], [\b], [\d] and the slices act on the ASCII range.
    - An item dictionary ([item_info]) is a record of optional fields:
      [None] stands for a missing key (for the two date fields also for
      a key holding the value None, which [dict.get] does not tell apart).
    - An iCalendar component is a record of its optional properties.
    - [datetime.now] is an explicit argument [now].
    - Exceptions are values: [Raise e] in the [result] monad.
    - The CalDAV server is a store of objects with opaque handles, a fault
      plan (which of the coming server calls raise) and a journal of the
      write calls issued, each with its outcome.  Serialisation to and
      from iCalendar text is not modelled: an object holds the components
      that parsing its text yields. *)

From Stdlib Require Import ZArith NArith String Ascii List Bool Lia.
From stdpp Require Import gmap strings list.
Import ListNotations.

Local Open Scope string_scope.
Local Open Scope list_scope.

(** ** Text helpers (Python [str] methods) *)

Module Text.

Definition in_range (lo hi : nat) (c : ascii) : bool :=
  (lo <=? nat_of_ascii c)%nat && (nat_of_ascii c <=? hi)%nat.

Definition is_upper (c : ascii) : bool := in_range 65 90 c.
Definition is_lower (c : ascii) : bool := in_range 97 122 c.
Definition is_digit (c : ascii) : bool := in_range 48 57 c.

(** [\w]: letters, digits and the underscore. *)
Definition is_word (c : ascii) : bool :=
  is_upper c || is_lower c || is_digit c || Ascii.eqb c "_".

Definition lower_char (c : ascii) : ascii :=
  if is_upper c then ascii_of_nat (nat_of_ascii c + 32) else c.

(** [s.lower()] *)
Fixpoint lower (s : string) : string :=
  match s with
  | EmptyString => EmptyString
  | String c s' => String (lower_char c) (lower s')
  end.

(** [needle in hay] *)
Fixpoint contains (needle hay : string) : bool :=
  String.prefix needle hay ||
  match hay with
  | EmptyString => false
  | String _ hay' => contains needle hay'
  end.

(** [s[:n]] *)
Definition take (n : nat) (s : string) : string := String.substring 0 n s.

(** truthiness of a [str]: [bool(s)] *)
Definition truthy (s : string) : bool :=
  match s with EmptyString => false | _ => true end.

(** truthiness of the result of [dict.get(key)] for a text value *)
Definition truthy_opt (o : option string) : bool :=
  match o with Some s => truthy s | None => false end.

Definition is_space (c : ascii) : bool :=
  let n := nat_of_ascii c in
  (n =? 32)%nat || ((9 <=? n)%nat && (n <=? 13)%nat) ||
  ((28 <=? n)%nat && (n <=? 31)%nat).

Fixpoint lstrip (s : string) : string :=
  match s with
  | String c s' => if is_space c then lstrip s' else s
  | EmptyString => EmptyString
  end.

Fixpoint rstrip (s : string) : string :=
  match s with
  | EmptyString => EmptyString
  | String c s' =>
      match rstrip s' with
      | EmptyString => if is_space c then EmptyString else String c EmptyString
      | r => String c r
      end
  end.

(** [s.strip()] *)
Definition strip (s : string) : string := rstrip (lstrip s).

(** [s.replace("\n", " ")] *)
Fixpoint replace_nl (s : string) : string :=
  match s with
  | EmptyString => EmptyString
  | String c s' =>
      String (if Ascii.eqb c "010" then " "%char else c) (replace_nl s')
  end.

Definition nl : string := String "010" EmptyString.

End Text.

(** ** The fragment of Python's [re] the program uses

    Backtracking matcher in continuation-passing style: alternatives are
    tried in the order of Python's engine (a greedy quantifier tries the
    longer repetition first), and [search] tries the start positions from
    left to right.  The state carries the character before the current
    position, which [\b] looks at. *)

Module Re.

Inductive regex : Type :=
| Lit (s : string)              (* literal text, [re.escape(s)] *)
| Class (p : ascii -> bool)     (* one character of a class *)
| Plus (p : ascii -> bool)      (* [class+], greedy *)
| Opt (r : regex)               (* [(?:r)?], greedy *)
| Seq (r1 r2 : regex)
| Group (r : regex)             (* the capturing group 1 *)
| WordB.                        (* [\b] *)

Definition is_word_at (o : option ascii) : bool :=
  match o with Some c => Text.is_word c | None => false end.

Definition peek (s : string) : option ascii :=
  match s with String c _ => Some c | EmptyString => None end.

Fixpoint lit {A} (l : string) (prev : option ascii) (s : string)
    (k : option ascii -> string -> option A) : option A :=
  match l with
  | EmptyString => k prev s
  | String c l' =>
      match s with
      | String d s' => if Ascii.eqb c d then lit l' (Some d) s' k else None
      | EmptyString => None
      end
  end.

Fixpoint plus_greedy {A} (p : ascii -> bool) (s : string)
    (k : option ascii -> string -> option A) : option A :=
  match s with
  | String c s' =>
      if p c then
        match plus_greedy p s' k with
        | Some r => Some r
        | None => k (Some c) s'
        end
      else None
  | EmptyString => None
  end.

Fixpoint rmatch {A} (r : regex) (prev : option ascii) (s : string)
    (cap : option string)
    (k : option ascii -> string -> option string -> option A) : option A :=
  match r with
  | Lit l => lit l prev s (fun prev' s' => k prev' s' cap)
  | Class p =>
      match s with
      | String c s' => if p c then k (Some c) s' cap else None
      | EmptyString => None
      end
  | Plus p => plus_greedy p s (fun prev' s' => k prev' s' cap)
  | Opt r' =>
      match rmatch r' prev s cap k with
      | Some x => Some x
      | None => k prev s cap
      end
  | Seq r1 r2 =>
      rmatch r1 prev s cap (fun prev' s' cap' => rmatch r2 prev' s' cap' k)
  | Group r' =>
      rmatch r' prev s cap
        (fun prev' s' _ =>
           k prev' s'
             (Some (String.substring 0 (String.length s - String.length s') s)))
  | WordB =>
      if xorb (is_word_at prev) (is_word_at (peek s)) then k prev s cap
      else None
  end.

(** A match object, reduced to what the program reads: [group(1)]. *)
Definition match_object : Type := option string.

Fixpoint search_from (r : regex) (prev : option ascii) (s : string)
    : option match_object :=
  match rmatch r prev s None (fun _ _ cap => Some cap) with
  | Some m => Some m
  | None =>
      match s with
      | String c s' => search_from r (Some c) s'
      | EmptyString => None
      end
  end.

(** [re.search(r, s)] *)
Definition search (r : regex) (s : string) : option match_object :=
  search_from r None s.

End Re.

(** ** Data model *)

(** [datetime.date] and [datetime.datetime] values (the [.dt] of an
    iCalendar date property). *)
Record date : Type := mkDate { year : nat; month : nat; day : nat }.

Record time : Type := mkTime {
  hour : nat; minute : nat; second : nat; microsecond : nat;
  utcoffset : option Z   (* minutes east of UTC; [None] for a naive value *)
}.

Inductive dt_value : Type :=
| DDate (d : date)
| DDateTime (d : date) (t : time).

#[global] Instance date_eq_dec : EqDecision date.
Proof. solve_decision. Defined.
#[global] Instance time_eq_dec : EqDecision time.
Proof. solve_decision. Defined.
#[global] Instance dt_value_eq_dec : EqDecision dt_value.
Proof. solve_decision. Defined.

(** [date1 <= date2] *)
Definition date_le (a b : date) : bool :=
  (year a <? year b)%nat ||
  ((year a =? year b)%nat &&
   ((month a <? month b)%nat ||
    ((month a =? month b)%nat && (day a <=? day b)%nat))).

Module Fmt.

Definition digit (n : nat) : ascii := ascii_of_nat (48 + n mod 10).

Definition d2 (n : nat) : string :=
  String (digit (n / 10)) (String (digit n) EmptyString).
Definition d4 (n : nat) : string := d2 (n / 100) +:+ d2 (n mod 100).
Definition d6 (n : nat) : string :=
  d2 (n / 100 / 100) +:+ d2 (n / 100 mod 100) +:+ d2 (n mod 100).

Definition str_date (d : date) : string :=
  d4 (year d) +:+ "-" +:+ d2 (month d) +:+ "-" +:+ d2 (day d).

Definition str_offset (o : Z) : string :=
  let m := Z.to_nat (Z.abs o) in
  (if (o <? 0)%Z then "-" else "+") +:+ d2 (m / 60) +:+ ":" +:+ d2 (m mod 60).

Definition str_time (t : time) : string :=
  d2 (hour t) +:+ ":" +:+ d2 (minute t) +:+ ":" +:+ d2 (second t)
  +:+ (if (microsecond t =? 0)%nat then "" else "." +:+ d6 (microsecond t))
  +:+ (match utcoffset t with Some o => str_offset o | None => "" end).

(** [str(dt)] for a date or a datetime *)
Definition str_dt (v : dt_value) : string :=
  match v with
  | DDate d => str_date d
  | DDateTime d t => str_date d +:+ " " +:+ str_time t
  end.

End Fmt.

(** The [item_info] dictionary built by the classifier. *)
Record Item : Type := mkItem {
  uid : option string;
  summary : option string;
  dtstart : option dt_value;
  dtend : option dt_value;
  description : option string;
  url : option string;
  location : option string;
  course_id : option string;
  type_tag : option string
}.

#[global] Instance Item_eq_dec : EqDecision Item.
Proof. solve_decision. Defined.

Definition set_course_id (v : string) (i : Item) : Item :=
  mkItem (uid i) (summary i) (dtstart i) (dtend i) (description i) (url i)
         (location i) (Some v) (type_tag i).

Definition set_type_tag (v : string) (i : Item) : Item :=
  mkItem (uid i) (summary i) (dtstart i) (dtend i) (description i) (url i)
         (location i) (course_id i) (Some v).

(** An iCalendar component ([icalendar.Component]): its name and the
    properties the program reads or writes. *)
Record Component : Type := mkComponent {
  name : string;
  UID : option string;
  SUMMARY : option string;
  DTSTART : option dt_value;
  DTEND : option dt_value;
  DUE : option dt_value;
  DESCRIPTION : option string;
  URL : option string;
  LOCATION : option string;
  DTSTAMP : option dt_value;
  CREATED : option dt_value;
  LAST_MODIFIED : option dt_value;
  STATUS : option string;
  PERCENT_COMPLETE : option Z;
  COMPLETED : option dt_value;
  PRIORITY : option Z;
  X_CANVAS_HASH : option string;
  CATEGORIES : option (list string)
}.

#[global] Instance Component_eq_dec : EqDecision Component.
Proof. solve_decision. Defined.

(** [str(component.get(KEY, ""))] *)
Definition str_get (o : option string) : string := default "" o.

(** ** canvas.py: the classifier *)

Definition ASSIGNMENT_TYPE_KEYWORDS : list (string * list string) :=
  [ ("Practical", ["practical"]);
    ("Exam", ["exam"; "midterm"; "final"; "test"]);
    ("Essay", ["essay"; "paper"; "report"]);
    ("Lab", ["lab"]);
    ("Presentation", ["presentation"; "slides"]);
    ("Discussion", ["discussion"]);
    ("Project", ["project"]);
    ("Quiz", ["quiz"]) ].

Definition DEFAULT_ASSIGNMENT_TYPE_TAG : string := "Assignment".

Definition get_item_date (item : Item) : option date :=
  match dtstart item with
  | None => None
  | Some (DDateTime d _) => Some d
  | Some (DDate d) => Some d
  end.

Definition is_within_date_range (item : Item) (end_date : option date) : bool :=
  match end_date with
  | None => true
  | Some e =>
      match get_item_date item with
      | None => true
      | Some item_date => date_le item_date e
      end
  end.

Definition matches_keywords (text : string) (keywords : list string) : bool :=
  match keywords with
  | [] => false
  | _ =>
      let text_lower := Text.lower text in
      existsb (fun keyword => Text.contains (Text.lower keyword) text_lower)
              keywords
  end.

(** [\[([A-Z0-9-]+)(?:-\d{2})? [^\]]+\]] *)
Definition course_id_pattern : Re.regex :=
  let code c := Text.is_upper c || Text.is_digit c || Ascii.eqb c "-" in
  let not_close c := negb (Ascii.eqb c "]") in
  Re.Seq (Re.Lit "[")
   (Re.Seq (Re.Group (Re.Plus code))
    (Re.Seq (Re.Opt (Re.Seq (Re.Lit "-")
                      (Re.Seq (Re.Class Text.is_digit) (Re.Class Text.is_digit))))
     (Re.Seq (Re.Lit " ")
      (Re.Seq (Re.Plus not_close) (Re.Lit "]"))))).

Definition extract_course_id_from_summary (summary : string) : option string :=
  match Re.search course_id_pattern summary with
  | Some m => m
  | None => None
  end.

(** [r"\b" + re.escape(keyword) + r"\b"] *)
Definition whole_word (keyword : string) : Re.regex :=
  Re.Seq Re.WordB (Re.Seq (Re.Lit keyword) Re.WordB).

(** The inner [for keyword in keywords] loop: does some keyword match? *)
Fixpoint keyword_loop (keywords : list string) (summary_lower : string) : bool :=
  match keywords with
  | [] => false
  | keyword :: rest =>
      match Re.search (whole_word keyword) summary_lower with
      | Some _ => true
      | None => keyword_loop rest summary_lower
      end
  end.

(** The outer [for tag, keywords in table.items()] loop with its early
    [return tag]. *)
Fixpoint tag_loop (table : list (string * list string)) (summary_lower : string)
    : option string :=
  match table with
  | [] => None
  | (tag, keywords) :: rest =>
      if keyword_loop keywords summary_lower then Some tag
      else tag_loop rest summary_lower
  end.

Definition type_tag_in (table : list (string * list string)) (summary : string)
    : string :=
  match tag_loop table (Text.lower summary) with
  | Some tag => tag
  | None => DEFAULT_ASSIGNMENT_TYPE_TAG
  end.

Definition get_assignment_type_tag (summary : string) : string :=
  type_tag_in ASSIGNMENT_TYPE_KEYWORDS summary.

(** [config["sync"]]: [end_date] is the result of [parse_end_date]; a list
    is [None] when its key is missing from the file. *)
Record SyncConfig : Type := mkSyncConfig {
  end_date : option date;
  no_class_keywords : option (list string);
  assignment_keywords : option (list string);
  assignment_summary_keywords : option (list string)
}.

Definition cfg_no_class_keywords (config : SyncConfig) : list string :=
  default ["no classes"; "no school"; "holiday"; "break"]
          (no_class_keywords config).
Definition cfg_assignment_uid_keywords (config : SyncConfig) : list string :=
  default ["assignment"] (assignment_keywords config).
Definition cfg_assignment_summary_keywords (config : SyncConfig) : list string :=
  default [] (assignment_summary_keywords config).

(** The four lists the loop of [fetch_canvas_items] fills. *)
Record Groups : Type := mkGroups {
  assignments : list Item;
  no_class_events : list Item;
  skipped : list Item;
  filtered_out : list Item
}.

Definition empty_groups : Groups := mkGroups [] [] [] [].

Inductive Category : Type := Assignment | NoClass | Skipped | FilteredOut.

(** The [item_info] of a VEVENT, with [course_id] set when one is found. *)
Definition item_info_of (component : Component) : Item :=
  let summary := str_get (SUMMARY component) in
  let item_info :=
    mkItem (Some (str_get (UID component))) (Some summary)
           (DTSTART component) (DTEND component)
           (Some (str_get (DESCRIPTION component)))
           (Some (str_get (URL component)))
           (Some (str_get (LOCATION component))) None None in
  match extract_course_id_from_summary summary with
  | Some course_id =>
      if Text.truthy course_id then set_course_id course_id item_info
      else item_info
  | None => item_info
  end.

(** The [if / elif / else] chain on one item. *)
Definition categorize (config : SyncConfig) (item_info : Item) : Category :=
  let summary := str_get (summary item_info) in
  let uid := str_get (uid item_info) in
  if negb (is_within_date_range item_info (end_date config)) then FilteredOut
  else if matches_keywords summary (cfg_no_class_keywords config) then NoClass
  else if Text.truthy_opt (course_id item_info) then Assignment
  else if matches_keywords uid (cfg_assignment_uid_keywords config)
          || matches_keywords summary (cfg_assignment_summary_keywords config)
       then Assignment
  else Skipped.

(** [item_info in assignments]: list membership by dictionary equality. *)
Definition item_in (item_info : Item) (l : list Item) : bool :=
  existsb (fun x => bool_decide (x = item_info)) l.

(** One iteration of the loop body for a VEVENT.  [item_info] is appended
    to one list; when it then compares equal to a member of [assignments]
    the same dictionary object gets its [type_tag], so the entry just
    appended is the tagged one. *)
Definition classify_step (config : SyncConfig) (g : Groups)
    (component : Component) : Groups :=
  let item_info := item_info_of component in
  let category := categorize config item_info in
  match category with
  | FilteredOut =>
      mkGroups (assignments g) (no_class_events g) (skipped g)
               (filtered_out g ++ [item_info])
  | _ =>
      let assignments' :=
        match category with
        | Assignment => assignments g ++ [item_info]
        | _ => assignments g
        end in
      let item_info' :=
        if item_in item_info assignments'
        then set_type_tag (get_assignment_type_tag (str_get (summary item_info)))
                          item_info
        else item_info in
      match category with
      | Assignment =>
          mkGroups (assignments g ++ [item_info']) (no_class_events g)
                   (skipped g) (filtered_out g)
      | NoClass =>
          mkGroups (assignments g) (no_class_events g ++ [item_info'])
                   (skipped g) (filtered_out g)
      | _ =>
          mkGroups (assignments g) (no_class_events g)
                   (skipped g ++ [item_info']) (filtered_out g)
      end
  end.

(** The loop body: [if component.name == "VEVENT": ...] *)
Definition classify_body (config : SyncConfig) (g : Groups)
    (component : Component) : Groups :=
  if String.eqb (name component) "VEVENT"
  then classify_step config g component else g.

(** [for component in cal.walk(): ...] *)
Definition classify_feed (config : SyncConfig) (feed : list Component) : Groups :=
  fold_left (classify_body config) feed empty_groups.

(** The feed is the parsed calendar; downloading and printing are left out. *)
Definition fetch_canvas_items (config : SyncConfig) (feed : list Component)
    : list Item * list Item :=
  let g := classify_feed config feed in
  (assignments g, no_class_events g).

(** ** hashlib.md5

    RFC 1321 on 32-bit words held in [N]; additions wrap modulo 2^32. *)

Module MD5.

Local Open Scope N_scope.

Definition mask32 (x : N) : N := N.land x 0xffffffff.
Definition add32 (x y : N) : N := mask32 (x + y).
Definition not32 (x : N) : N := N.lxor (mask32 x) 0xffffffff.
Definition rotl32 (x c : N) : N :=
  mask32 (N.lor (N.shiftl x c) (N.shiftr (mask32 x) (32 - c))).

(** [K[i] = floor(2^32 * abs(sin(i + 1)))] *)
Definition K : list N :=
  [
    0xd76aa478; 0xe8c7b756; 0x242070db; 0xc1bdceee;
    0xf57c0faf; 0x4787c62a; 0xa8304613; 0xfd469501;
    0x698098d8; 0x8b44f7af; 0xffff5bb1; 0x895cd7be;
    0x6b901122; 0xfd987193; 0xa679438e; 0x49b40821;
    0xf61e2562; 0xc040b340; 0x265e5a51; 0xe9b6c7aa;
    0xd62f105d; 0x02441453; 0xd8a1e681; 0xe7d3fbc8;
    0x21e1cde6; 0xc33707d6; 0xf4d50d87; 0x455a14ed;
    0xa9e3e905; 0xfcefa3f8; 0x676f02d9; 0x8d2a4c8a;
    0xfffa3942; 0x8771f681; 0x6d9d6122; 0xfde5380c;
    0xa4beea44; 0x4bdecfa9; 0xf6bb4b60; 0xbebfbc70;
    0x289b7ec6; 0xeaa127fa; 0xd4ef3085; 0x04881d05;
    0xd9d4d039; 0xe6db99e5; 0x1fa27cf8; 0xc4ac5665;
    0xf4292244; 0x432aff97; 0xab9423a7; 0xfc93a039;
    0x655b59c3; 0x8f0ccc92; 0xffeff47d; 0x85845dd1;
    0x6fa87e4f; 0xfe2ce6e0; 0xa3014314; 0x4e0811a1;
    0xf7537e82; 0xbd3af235; 0x2ad7d2bb; 0xeb86d391 ].

Definition shifts : list N :=
  [ 7; 12; 17; 22; 7; 12; 17; 22; 7; 12; 17; 22; 7; 12; 17; 22;
    5; 9; 14; 20; 5; 9; 14; 20; 5; 9; 14; 20; 5; 9; 14; 20;
    4; 11; 16; 23; 4; 11; 16; 23; 4; 11; 16; 23; 4; 11; 16; 23;
    6; 10; 15; 21; 6; 10; 15; 21; 6; 10; 15; 21; 6; 10; 15; 21 ].

Record state : Type := mkState { sa : N; sb : N; sc : N; sd : N }.

Definition init : state :=
  mkState 0x67452301 0xefcdab89 0x98badcfe 0x10325476.

(** One of the 64 operations on the words [M] of a block. *)
Definition round (M : list N) (st : state) (i : nat) : state :=
  let '(mkState A B C D) := st in
  let n := N.of_nat i in
  let '(F, g) :=
    if (i <? 16)%nat then (N.lor (N.land B C) (N.land (not32 B) D), n)
    else if (i <? 32)%nat then
      (N.lor (N.land D B) (N.land (not32 D) C), (5 * n + 1) mod 16)
    else if (i <? 48)%nat then (N.lxor B (N.lxor C D), (3 * n + 5) mod 16)
    else (N.lxor C (N.lor B (not32 D)), (7 * n) mod 16) in
  let F' := add32 (add32 (add32 F A) (nth i K 0)) (nth (N.to_nat g) M 0) in
  mkState D (add32 B (rotl32 F' (nth i shifts 0))) B C.

Definition process_block (st : state) (M : list N) : state :=
  let st' := fold_left (round M) (seq 0 64) st in
  mkState (add32 (sa st) (sa st')) (add32 (sb st) (sb st'))
          (add32 (sc st) (sc st')) (add32 (sd st) (sd st')).

(** Little-endian bytes of a value, [n] of them. *)
Fixpoint le_bytes (n : nat) (x : N) : list N :=
  match n with
  | O => []
  | S n' => (x mod 256) :: le_bytes n' (x / 256)
  end.

Fixpoint le_value (bs : list N) : N :=
  match bs with
  | [] => 0
  | b :: bs' => b + 256 * le_value bs'
  end.

(** Split into groups of [n] elements ([fuel] bounds the number of groups). *)
Fixpoint groups_of {A} (fuel n : nat) (l : list A) : list (list A) :=
  match fuel with
  | O => []
  | S fuel' =>
      match l with
      | [] => []
      | _ => firstn n l :: groups_of fuel' n (skipn n l)
      end
  end.

Definition pad (msg : list N) : list N :=
  let len := N.of_nat (length msg) in
  let zeros := N.to_nat ((119 - len mod 64) mod 64) in
  msg ++ [0x80] ++ repeat 0 zeros ++ le_bytes 8 ((8 * len) mod 2 ^ 64).

Definition blocks (msg : list N) : list (list N) :=
  let p := pad msg in
  map (fun b => map le_value (groups_of 16 4 b))
      (groups_of (length p) 64 p).

Definition digest (msg : list N) : list N :=
  let st := fold_left process_block (blocks msg) init in
  le_bytes 4 (sa st) ++ le_bytes 4 (sb st) ++ le_bytes 4 (sc st)
  ++ le_bytes 4 (sd st).

Definition hex_digit (x : N) : ascii :=
  ascii_of_N (if x <? 10 then 48 + x else 87 + x).

Fixpoint hex (bs : list N) : string :=
  match bs with
  | [] => EmptyString
  | b :: bs' => String (hex_digit (b / 16)) (String (hex_digit (b mod 16)) (hex bs'))
  end.

(** [s.encode()] *)
Fixpoint encode (s : string) : list N :=
  match s with
  | EmptyString => []
  | String c s' => N_of_ascii c :: encode s'
  end.

(** [hashlib.md5(data).hexdigest()] *)
Definition hexdigest (s : string) : string := hex (digest (encode s)).

End MD5.

(** ** Exceptions *)

Inductive exn : Type :=
| KeyError (key : string)        (* [item["key"]] on a missing key *)
| DAVError (what : string).      (* raised by a call to the CalDAV server *)

Inductive result (A : Type) : Type :=
| Ok (a : A)
| Raise (e : exn).
Arguments Ok {A} a.
Arguments Raise {A} e.

Definition bind {A B} (m : result A) (f : A -> result B) : result B :=
  match m with
  | Ok a => f a
  | Raise e => Raise e
  end.

Notation "x <- m ;; k" := (bind m (fun x => k))
  (at level 100, m at next level, right associativity).

(** [item["key"]] *)
Definition getitem {A} (key : string) (field : option A) : result A :=
  match field with
  | Some v => Ok v
  | None => Raise (KeyError key)
  end.

(** ** ical_helpers.py: fingerprint and record builder *)

(** The text that is hashed. *)
Definition hash_content (item : Item) : string :=
  let content := str_get (summary item) in
  let content := content +:+ "|" +:+ str_get (description item) in
  let content := content +:+ "|" +:+ str_get (url item) in
  let content := content +:+ "|" +:+ str_get (location item) in
  let content :=
    match dtstart item with
    | Some dtstart => content +:+ "|start:" +:+ Fmt.str_dt dtstart
    | None => content
    end in
  let content :=
    match dtend item with
    | Some dtend => content +:+ "|end:" +:+ Fmt.str_dt dtend
    | None => content
    end in
  let content :=
    if Text.truthy_opt (course_id item)
    then content +:+ "|course_id:" +:+ str_get (course_id item)
    else content in
  let content :=
    if Text.truthy_opt (type_tag item)
    then content +:+ "|type_tag:" +:+ str_get (type_tag item)
    else content in
  content.

Definition compute_item_hash (item : Item) : string :=
  Text.take 16 (MD5.hexdigest (hash_content item)).

Definition create_uid (canvas_uid prefix : string) : string :=
  "canvas-" +:+ prefix +:+ "-" +:+ canvas_uid.

(** [sep.join(parts)] *)
Fixpoint join (sep : string) (parts : list string) : string :=
  match parts with
  | [] => ""
  | [p] => p
  | p :: rest => p +:+ sep +:+ join sep rest
  end.

(** [dtend or dtstart]: a date property object is always truthy. *)
Definition due_date_of (item : Item) : option dt_value :=
  match dtend item with
  | Some d => Some d
  | None => dtstart item
  end.

Definition description_parts (description url : string) : list string :=
  (if Text.truthy description then [description] else [])
  ++ (if Text.truthy url then [Text.nl +:+ "Canvas: " +:+ url] else []).

Definition description_prop (description url : string) : option string :=
  match description_parts description url with
  | [] => None
  | parts => Some (join Text.nl parts)
  end.

Definition nonempty (s : string) : option string :=
  if Text.truthy s then Some s else None.

(** The CATEGORIES of a task: course id, then type tag. *)
Definition todo_categories (item : Item) : option (list string) :=
  let categories :=
    (if Text.truthy_opt (course_id item) then [str_get (course_id item)] else [])
    ++ (if Text.truthy_opt (type_tag item) then [str_get (type_tag item)] else []) in
  match categories with
  | [] => None
  | _ => Some categories
  end.

(** The CATEGORIES of an event: the course id alone. *)
Definition event_categories (item : Item) : option (list string) :=
  if Text.truthy_opt (course_id item) then Some [str_get (course_id item)]
  else None.

Definition assignment_to_vtodo (assignment : Item) (content_hash : string)
    (now : dt_value) : result (Component * string) :=
  canvas_uid <- getitem "uid" (uid assignment) ;;
  let task_uid := create_uid canvas_uid "task" in
  title <- getitem "summary" (summary assignment) ;;
  descr <- getitem "description" (description assignment) ;;
  link <- getitem "url" (url assignment) ;;
  Ok ({| name := "VTODO";
         UID := Some task_uid;
         SUMMARY := Some title;
         DTSTART := None;
         DTEND := None;
         DUE := due_date_of assignment;
         DESCRIPTION := description_prop descr link;
         URL := nonempty link;
         LOCATION := None;
         DTSTAMP := Some now;
         CREATED := Some now;
         LAST_MODIFIED := Some now;
         STATUS := Some "NEEDS-ACTION";
         PERCENT_COMPLETE := None;
         COMPLETED := None;
         PRIORITY := Some 5%Z;
         X_CANVAS_HASH := Some content_hash;
         CATEGORIES := todo_categories assignment |}, task_uid).

(** [if original_percent:] on an integer property: zero is falsy. *)
Definition truthy_int (o : option Z) : option Z :=
  match o with
  | Some p => if (p =? 0)%Z then None else Some p
  | None => None
  end.

Definition update_vtodo (existing_component : Component) (assignment : Item)
    (content_hash : string) (now : dt_value) : result Component :=
  canvas_uid <- getitem "uid" (uid assignment) ;;
  let task_uid := create_uid canvas_uid "task" in
  title <- getitem "summary" (summary assignment) ;;
  descr <- getitem "description" (description assignment) ;;
  link <- getitem "url" (url assignment) ;;
  Ok {| name := "VTODO";
        UID := Some task_uid;
        SUMMARY := Some title;
        DTSTART := None;
        DTEND := None;
        DUE := due_date_of assignment;
        DESCRIPTION := description_prop descr link;
        URL := nonempty link;
        LOCATION := None;
        DTSTAMP := Some now;
        CREATED := match CREATED existing_component with
                   | Some original_created => Some original_created
                   | None => Some now
                   end;
        LAST_MODIFIED := Some now;
        STATUS := Some (default "NEEDS-ACTION" (STATUS existing_component));
        PERCENT_COMPLETE := truthy_int (PERCENT_COMPLETE existing_component);
        COMPLETED := COMPLETED existing_component;
        PRIORITY := Some 5%Z;
        X_CANVAS_HASH := Some content_hash;
        CATEGORIES := todo_categories assignment |}.

Definition no_class_to_vevent (item : Item) (content_hash : string)
    (now : dt_value) : result (Component * string) :=
  canvas_uid <- getitem "uid" (uid item) ;;
  let event_uid := create_uid canvas_uid "event" in
  title <- getitem "summary" (summary item) ;;
  descr <- getitem "description" (description item) ;;
  link <- getitem "url" (url item) ;;
  Ok ({| name := "VEVENT";
         UID := Some event_uid;
         SUMMARY := Some title;
         DTSTART := dtstart item;
         DTEND := dtend item;
         DUE := None;
         DESCRIPTION := nonempty descr;
         URL := nonempty link;
         LOCATION := None;
         DTSTAMP := Some now;
         CREATED := Some now;
         LAST_MODIFIED := Some now;
         STATUS := None;
         PERCENT_COMPLETE := None;
         COMPLETED := None;
         PRIORITY := None;
         X_CANVAS_HASH := Some content_hash;
         CATEGORIES := event_categories item |}, event_uid).

Definition update_vevent (existing_component : Component) (item : Item)
    (content_hash : string) (now : dt_value) : result Component :=
  canvas_uid <- getitem "uid" (uid item) ;;
  let event_uid := create_uid canvas_uid "event" in
  title <- getitem "summary" (summary item) ;;
  descr <- getitem "description" (description item) ;;
  link <- getitem "url" (url item) ;;
  Ok {| name := "VEVENT";
        UID := Some event_uid;
        SUMMARY := Some title;
        DTSTART := dtstart item;
        DTEND := dtend item;
        DUE := None;
        DESCRIPTION := nonempty descr;
        URL := nonempty link;
        LOCATION := None;
        DTSTAMP := Some now;
        CREATED := match CREATED existing_component with
                   | Some original_created => Some original_created
                   | None => Some now
                   end;
        LAST_MODIFIED := Some now;
        STATUS := None;
        PERCENT_COMPLETE := None;
        COMPLETED := None;
        PRIORITY := None;
        X_CANVAS_HASH := Some content_hash;
        CATEGORIES := event_categories item |}.

(** ** The world outside the interpreter: CalDAV server and terminal *)

Inductive ObjKind : Type := TodoObject | EventObject.

#[global] Instance ObjKind_eq_dec : EqDecision ObjKind.
Proof. solve_decision. Defined.

(** A calendar object resource.  [handle] identifies it on the server;
    [data] is what [Calendar.from_ical(obj.data).walk()] yields, [None]
    when the text does not parse. *)
Record DavObject : Type := mkDavObject {
  handle : nat;
  kind : ObjKind;
  data : option (list Component)
}.

#[global] Instance DavObject_eq_dec : EqDecision DavObject.
Proof. solve_decision. Defined.

(** The write calls of the CalDAV client. *)
Inductive Call : Type :=
| CallDelete (target : nat)
| CallSaveTodo (ical : list Component)
| CallSaveEvent (ical : list Component).

(** Lines of the per-item progress output. *)
Inductive Line : Type :=
| PrintUnchanged (title : string)
| PrintUpdating (title : string)
| PrintUpdateFailed (title : string) (e : exn)
| PrintAdded (title : string)
| PrintFailed (title : string) (e : exn)
| PrintCouldNotFetch (what : string) (e : exn).

(** [faults]: outcome of the coming server calls, in order ([true]: the
    call raises and leaves the server as it is); calls beyond the plan go
    through.  [journal]: the write calls issued so far, with their
    outcome ([true]: went through). *)
Record World : Type := mkWorld {
  objects : list DavObject;
  next_handle : nat;
  faults : list bool;
  journal : list (Call * bool);
  console : list Line
}.

(** Computations that read and change the world and may raise. *)
Definition M (A : Type) : Type := World -> result A * World.

Definition ret {A} (a : A) : M A := fun w => (Ok a, w).

Definition raise {A} (e : exn) : M A := fun w => (Raise e, w).

Definition bindM {A B} (m : M A) (f : A -> M B) : M B :=
  fun w =>
    match m w with
    | (Ok a, w') => f a w'
    | (Raise e, w') => (Raise e, w')
    end.

Notation "x <~ m ;; k" := (bindM m (fun x => k))
  (at level 100, m at next level, right associativity).

Definition lift {A} (r : result A) : M A := fun w => (r, w).

(** [try: body  except Exception as e: handler(e)] *)
Definition try_except {A} (body : M A) (handler : exn -> M A) : M A :=
  fun w =>
    match body w with
    | (Ok a, w') => (Ok a, w')
    | (Raise e, w') => handler e w'
    end.

(** [for x in xs: acc = body(acc, x)]; an exception leaves the loop. *)
Fixpoint for_each {A S} (body : S -> A -> M S) (xs : list A) (acc : S) : M S :=
  match xs with
  | [] => ret acc
  | x :: rest => acc' <~ body acc x ;; for_each body rest acc'
  end.

Definition print (l : Line) : M unit :=
  fun w => (Ok tt, mkWorld (objects w) (next_handle w) (faults w) (journal w)
                           (console w ++ [l])).

(** Does the next server call fail?  Consumes one entry of the plan. *)
Definition next_fault : M bool :=
  fun w =>
    match faults w with
    | [] => (Ok false, w)
    | b :: rest =>
        (Ok b, mkWorld (objects w) (next_handle w) rest (journal w) (console w))
    end.

Definition log_call (c : Call) (ok : bool) : M unit :=
  fun w => (Ok tt, mkWorld (objects w) (next_handle w) (faults w)
                           (journal w ++ [(c, ok)]) (console w)).

Definition has_handle (h : nat) (w : World) : bool :=
  existsb (fun o => (handle o =? h)%nat) (objects w).

(** [calendar.todos(include_completed=True)] / [calendar.events()] *)
Definition list_objects (k : ObjKind) : M (list DavObject) :=
  failing <~ next_fault ;;
  if failing : bool then raise (DAVError "listing failed")
  else
    fun w =>
      (Ok (List.filter (fun o => bool_decide (kind o = k)) (objects w)), w).

(** [calendar.save_todo(text)] / [calendar.save_event(text)]: the server
    stores a new object under a fresh handle. *)
Definition save_object (k : ObjKind) (ical : list Component) : M unit :=
  let call := match k with
              | TodoObject => CallSaveTodo ical
              | EventObject => CallSaveEvent ical
              end in
  failing <~ next_fault ;;
  if failing : bool then
    _ <~ log_call call false ;; raise (DAVError "save failed")
  else
    _ <~ log_call call true ;;
    fun w =>
      (Ok tt, mkWorld (objects w ++ [mkDavObject (next_handle w) k (Some ical)])
                      (S (next_handle w)) (faults w) (journal w) (console w)).

Definition save_todo := save_object TodoObject.
Definition save_event := save_object EventObject.

(** [obj.delete()]: fails when the server has no such object. *)
Definition delete (obj : DavObject) : M unit :=
  let call := CallDelete (handle obj) in
  failing <~ next_fault ;;
  if failing : bool then
    _ <~ log_call call false ;; raise (DAVError "delete failed")
  else
    fun w =>
      if has_handle (handle obj) w then
        (Ok tt, mkWorld (List.filter (fun o => negb (handle o =? handle obj)%nat)
                                (objects w))
                        (next_handle w) (faults w)
                        (journal w ++ [(call, true)]) (console w))
      else
        (Raise (DAVError "not found"),
         mkWorld (objects w) (next_handle w) (faults w)
                 (journal w ++ [(call, false)]) (console w)).

(** The calendar the program wraps around one component:
    [cal = Calendar(); cal.add_component(c)], as [walk()] yields it. *)
Definition vcalendar : Component :=
  {| name := "VCALENDAR"; UID := None; SUMMARY := None; DTSTART := None;
     DTEND := None; DUE := None; DESCRIPTION := None; URL := None;
     LOCATION := None; DTSTAMP := None; CREATED := None;
     LAST_MODIFIED := None; STATUS := None; PERCENT_COMPLETE := None;
     COMPLETED := None; PRIORITY := None; X_CANVAS_HASH := None;
     CATEGORIES := None |}.

Definition calendar_of (c : Component) : list Component := [vcalendar; c].

(** ** caldav_client.py: the index of existing records *)

Record Existing : Type := mkExisting {
  hash : string;
  object : DavObject;
  component : Component
}.

(** [for component in ical.walk(): if component.name == NAME: ...] *)
Definition index_component (kind_name : string) (obj : DavObject)
    (idx : gmap string Existing) (c : Component) : gmap string Existing :=
  if String.eqb (name c) kind_name then
    let uid := str_get (UID c) in
    if Text.truthy uid then
      <[uid := mkExisting (str_get (X_CANVAS_HASH c)) obj c]> idx
    else idx
  else idx.

(** The body of the loop over the listed objects; an object whose data
    does not parse is passed over. *)
Definition index_object (kind_name : string) (idx : gmap string Existing)
    (obj : DavObject) : gmap string Existing :=
  match data obj with
  | Some ical => fold_left (index_component kind_name obj) ical idx
  | None => idx
  end.

Definition index_objects (kind_name : string) (objs : list DavObject)
    : gmap string Existing :=
  fold_left (index_object kind_name) objs ∅.

Definition get_existing (k : ObjKind) (kind_name what : string)
    : M (gmap string Existing) :=
  try_except
    (objs <~ list_objects k ;; ret (index_objects kind_name objs))
    (fun e => _ <~ print (PrintCouldNotFetch what e) ;; ret ∅).

Definition get_existing_items
    : M (gmap string Existing * gmap string Existing) :=
  existing_todos <~ get_existing TodoObject "VTODO" "tasks" ;;
  existing_events <~ get_existing EventObject "VEVENT" "events" ;;
  ret (existing_todos, existing_events).

(** ** sync.py: the reconciler *)

Definition str_dt_or_none (o : option dt_value) : string :=
  match o with Some v => Fmt.str_dt v | None => "None" end.

Definition quoted (s : string) : string := "'" +:+ s +:+ "'".

Inductive ItemType : Type := TaskType | EventType.

Definition detect_changes (existing_component : Component) (new_item : Item)
    (item_type : ItemType) : list string :=
  let old_summary := str_get (SUMMARY existing_component) in
  let new_summary := str_get (summary new_item) in
  let title_change :=
    if String.eqb old_summary new_summary then []
    else ["Title: " +:+ quoted (Text.take 30 old_summary) +:+ " → "
          +:+ quoted (Text.take 30 new_summary)] in
  let old_desc := str_get (DESCRIPTION existing_component) in
  let new_desc := str_get (description new_item) in
  let new_desc_full :=
    if Text.truthy_opt (url new_item)
    then new_desc +:+ Text.nl +:+ "Canvas: " +:+ str_get (url new_item)
    else new_desc in
  let description_change :=
    if String.eqb (Text.strip old_desc) (Text.strip new_desc_full) then []
    else
      let old_preview :=
        if Text.truthy old_desc then Text.replace_nl (Text.take 40 old_desc)
        else "(empty)" in
      let new_preview :=
        if Text.truthy new_desc then Text.replace_nl (Text.take 40 new_desc)
        else "(empty)" in
      ["Description: " +:+ quoted (old_preview +:+ "...") +:+ " → "
       +:+ quoted (new_preview +:+ "...")] in
  let old_url := str_get (URL existing_component) in
  let new_url := str_get (url new_item) in
  let url_change :=
    if String.eqb old_url new_url then [] else ["URL changed"] in
  let date_changes :=
    match item_type with
    | TaskType =>
        let old_due_str := str_dt_or_none (DUE existing_component) in
        let new_due_str := str_dt_or_none (due_date_of new_item) in
        if String.eqb old_due_str new_due_str then []
        else ["Due: " +:+ old_due_str +:+ " → " +:+ new_due_str]
    | EventType =>
        let old_start_str := str_dt_or_none (DTSTART existing_component) in
        let new_start_str := str_dt_or_none (dtstart new_item) in
        let old_end_str := str_dt_or_none (DTEND existing_component) in
        let new_end_str := str_dt_or_none (dtend new_item) in
        (if String.eqb old_start_str new_start_str then []
         else ["Start: " +:+ old_start_str +:+ " → " +:+ new_start_str])
        ++ (if String.eqb old_end_str new_end_str then []
            else ["End: " +:+ old_end_str +:+ " → " +:+ new_end_str])
    end in
  let old_location := str_get (LOCATION existing_component) in
  let new_location := str_get (location new_item) in
  let location_change :=
    if String.eqb old_location new_location then []
    else ["Location: " +:+ quoted old_location +:+ " → "
          +:+ quoted new_location] in
  title_change ++ description_change ++ url_change ++ date_changes
  ++ location_change.

(** An entry of [updated_items]. *)
Record UpdatedItem : Type := mkUpdatedItem {
  u_type : string;
  u_name : string;
  u_changes : list string
}.

(** The local variables of [sync_to_caldav] that its loops update; the
    summary at the end prints them. *)
Record Report : Type := mkReport {
  tasks_added : nat;
  tasks_updated : nat;
  tasks_unchanged : nat;
  events_added : nat;
  events_updated : nat;
  events_unchanged : nat;
  updated_items : list UpdatedItem
}.

Definition empty_report : Report := mkReport 0 0 0 0 0 0 [].

Definition add_updated_item (u : UpdatedItem) (r : Report) : Report :=
  mkReport (tasks_added r) (tasks_updated r) (tasks_unchanged r)
           (events_added r) (events_updated r) (events_unchanged r)
           (updated_items r ++ [u]).

(** The two [for] loops of [sync_to_caldav] are the same code up to the
    names below; [Flavour] says which of the two loops is meant. *)
Inductive Flavour : Type := task_flavour | event_flavour.

(** The prefix of the UID. *)
Definition f_prefix (fl : Flavour) : string :=
  match fl with task_flavour => "task" | event_flavour => "event" end.

Definition f_item_type (fl : Flavour) : ItemType :=
  match fl with task_flavour => TaskType | event_flavour => EventType end.

(** The ["type"] of an entry of [updated_items]. *)
Definition f_label (fl : Flavour) : string :=
  match fl with task_flavour => "Task" | event_flavour => "Event" end.

(** [save_todo] or [save_event]. *)
Definition f_kind (fl : Flavour) : ObjKind :=
  match fl with task_flavour => TodoObject | event_flavour => EventObject end.

Definition f_create (fl : Flavour)
    : Item -> string -> dt_value -> result (Component * string) :=
  match fl with
  | task_flavour => assignment_to_vtodo
  | event_flavour => no_class_to_vevent
  end.

Definition f_update (fl : Flavour)
    : Component -> Item -> string -> dt_value -> result Component :=
  match fl with
  | task_flavour => update_vtodo
  | event_flavour => update_vevent
  end.

(** [tasks_added += 1] or [events_added += 1], and so on. *)
Definition f_added (fl : Flavour) (r : Report) : Report :=
  match fl with
  | task_flavour =>
      mkReport (tasks_added r + 1) (tasks_updated r) (tasks_unchanged r)
               (events_added r) (events_updated r) (events_unchanged r)
               (updated_items r)
  | event_flavour =>
      mkReport (tasks_added r) (tasks_updated r) (tasks_unchanged r)
               (events_added r + 1) (events_updated r) (events_unchanged r)
               (updated_items r)
  end.

Definition f_updated (fl : Flavour) (r : Report) : Report :=
  match fl with
  | task_flavour =>
      mkReport (tasks_added r) (tasks_updated r + 1) (tasks_unchanged r)
               (events_added r) (events_updated r) (events_unchanged r)
               (updated_items r)
  | event_flavour =>
      mkReport (tasks_added r) (tasks_updated r) (tasks_unchanged r)
               (events_added r) (events_updated r + 1) (events_unchanged r)
               (updated_items r)
  end.

Definition f_unchanged (fl : Flavour) (r : Report) : Report :=
  match fl with
  | task_flavour =>
      mkReport (tasks_added r) (tasks_updated r) (tasks_unchanged r + 1)
               (events_added r) (events_updated r) (events_unchanged r)
               (updated_items r)
  | event_flavour =>
      mkReport (tasks_added r) (tasks_updated r) (tasks_unchanged r)
               (events_added r) (events_updated r) (events_unchanged r + 1)
               (updated_items r)
  end.

(** [item['summary'][:40]] *)
Definition title40 (item : Item) : result string :=
  title <- getitem "summary" (summary item) ;; Ok (Text.take 40 title).

(** The body of one of the two [for] loops of [sync_to_caldav]. *)
Definition sync_item (fl : Flavour) (existing_items : gmap string Existing)
    (now : dt_value) (r : Report) (item : Item) : M Report :=
  canvas_uid <~ lift (getitem "uid" (uid item)) ;;
  let item_uid := create_uid canvas_uid (f_prefix fl) in
  let content_hash := compute_item_hash item in
  match existing_items !! item_uid with
  | Some existing =>
      if String.eqb (hash existing) content_hash then
        title <~ lift (title40 item) ;;
        _ <~ print (PrintUnchanged title) ;;
        ret (f_unchanged fl r)
      else
        let changes :=
          detect_changes (component existing) item (f_item_type fl) in
        title <~ lift (title40 item) ;;
        _ <~ print (PrintUpdating title) ;;
        full_title <~ lift (getitem "summary" (summary item)) ;;
        let r := add_updated_item (mkUpdatedItem (f_label fl) full_title changes) r in
        updated <~ lift (f_update fl (component existing) item content_hash now) ;;
        try_except
          (_ <~ delete (object existing) ;;
           _ <~ save_object (f_kind fl) (calendar_of updated) ;;
           ret (f_updated fl r))
          (fun e =>
             title <~ lift (title40 item) ;;
             _ <~ print (PrintUpdateFailed title e) ;;
             ret r)
  | None =>
      created <~ lift (f_create fl item content_hash now) ;;
      try_except
        (_ <~ save_object (f_kind fl) (calendar_of (fst created)) ;;
         title <~ lift (title40 item) ;;
         _ <~ print (PrintAdded title) ;;
         ret (f_added fl r))
        (fun e =>
           title <~ lift (title40 item) ;;
           _ <~ print (PrintFailed title e) ;;
           ret r)
  end.

(** The two loops, given the index read at the start of the run. *)
Definition sync_loops (existing_todos existing_events : gmap string Existing)
    (now : dt_value) (assignments no_class_events : list Item) : M Report :=
  r <~ for_each (sync_item task_flavour existing_todos now) assignments
                empty_report ;;
  for_each (sync_item event_flavour existing_events now) no_class_events r.

Definition sync_to_caldav (now : dt_value)
    (assignments no_class_events : list Item) : M Report :=
  existing <~ get_existing_items ;;
  sync_loops (fst existing) (snd existing) now assignments no_class_events.

(** ** Notions used to state the properties *)

(** Some keyword of the list occurs in [s] as a whole word. *)
Definition word_hit (keywords : list string) (s : string) : Prop :=
  exists keyword, In keyword keywords /\
                  Re.search (whole_word keyword) s <> None.

Definition no_class_title (config : SyncConfig) (item : Item) : bool :=
  matches_keywords (str_get (summary item)) (cfg_no_class_keywords config).

(** What holds of the [assignments] list all along the loop: its members
    carry a type tag, and none of them has a no-class title. *)
Definition assignments_ok (config : SyncConfig) (g : Groups) : Prop :=
  forall x, In x (assignments g) ->
            type_tag x <> None /\ no_class_title config x = false.

(** ** Sample data *)

Definition default_config : SyncConfig := mkSyncConfig None None None None.

(** A VEVENT of the feed with a UID, a title and a start. *)
Definition feed_event (uid title : string) (start : option dt_value)
    : Component :=
  {| name := "VEVENT"; UID := Some uid; SUMMARY := Some title;
     DTSTART := start; DTEND := None; DUE := None; DESCRIPTION := None;
     URL := None; LOCATION := None; DTSTAMP := None; CREATED := None;
     LAST_MODIFIED := None; STATUS := None; PERCENT_COMPLETE := None;
     COMPLETED := None; PRIORITY := None; X_CANVAS_HASH := None;
     CATEGORIES := None |}.

Definition holiday_event : Component :=
  feed_event "event-calendar-event-7" "[HIST-1700-07 American History]: Holiday"
             (Some (DDate (mkDate 2026 5 1))).

(** An item with one text field replaced. *)
Definition with_summary (v : option string) (i : Item) : Item :=
  mkItem (uid i) v (dtstart i) (dtend i) (description i) (url i) (location i)
         (course_id i) (type_tag i).
Definition with_description (v : option string) (i : Item) : Item :=
  mkItem (uid i) (summary i) (dtstart i) (dtend i) v (url i) (location i)
         (course_id i) (type_tag i).
Definition with_url (v : option string) (i : Item) : Item :=
  mkItem (uid i) (summary i) (dtstart i) (dtend i) (description i) v
         (location i) (course_id i) (type_tag i).
Definition with_location (v : option string) (i : Item) : Item :=
  mkItem (uid i) (summary i) (dtstart i) (dtend i) (description i) (url i) v
         (course_id i) (type_tag i).
Definition with_course_id (v : option string) (i : Item) : Item :=
  mkItem (uid i) (summary i) (dtstart i) (dtend i) (description i) (url i)
         (location i) v (type_tag i).
Definition with_type_tag (v : option string) (i : Item) : Item :=
  mkItem (uid i) (summary i) (dtstart i) (dtend i) (description i) (url i)
         (location i) (course_id i) v.
Definition with_uid (v : option string) (i : Item) : Item :=
  mkItem v (summary i) (dtstart i) (dtend i) (description i) (url i)
         (location i) (course_id i) (type_tag i).

(** An item with the given title and description, the rest from [rest]. *)
Definition titled (title descr : string) (rest : Item) : Item :=
  with_summary (Some title) (with_description (Some descr) rest).

Definition essay_item : Item :=
  {| uid := Some "event-assignment-4711";
     summary := Some "[HIST-1700-07 American History]: Essay 2";
     dtstart := Some (DDateTime (mkDate 2026 3 14) (mkTime 23 59 0 0 (Some 0%Z)));
     dtend := Some (DDateTime (mkDate 2026 3 14) (mkTime 23 59 0 0 (Some 0%Z)));
     description := Some "Write about the New Deal.";
     url := Some "https://canvas.example/courses/1/assignments/4711";
     location := Some "";
     course_id := Some "HIST-1700-07";
     type_tag := Some "Essay" |}.

Definition blank_item : Item :=
  mkItem (Some "u1") (Some "") None None (Some "") (Some "") (Some "") None None.

Definition noon : dt_value :=
  DDateTime (mkDate 2026 3 1) (mkTime 12 0 0 0 (Some 0%Z)).
Definition new_year : dt_value :=
  DDateTime (mkDate 2026 1 1) (mkTime 8 30 0 0 (Some 0%Z)).
Definition late_february : dt_value :=
  DDateTime (mkDate 2026 2 20) (mkTime 17 45 0 0 (Some 0%Z)).

(** A task as the server returns it, with the fields a user can set. *)
Definition stored_task (title status : string) (percent : option Z)
    (completed : option dt_value) (priority : Z) : Component :=
  {| name := "VTODO"; UID := Some "canvas-task-event-assignment-4711";
     SUMMARY := Some title; DTSTART := None; DTEND := None;
     DUE := Some (DDateTime (mkDate 2026 3 14) (mkTime 23 59 0 0 (Some 0%Z)));
     DESCRIPTION := Some "Write about the New Deal."; URL := None;
     LOCATION := None; DTSTAMP := Some new_year; CREATED := Some new_year;
     LAST_MODIFIED := Some new_year; STATUS := Some status;
     PERCENT_COMPLETE := percent; COMPLETED := completed;
     PRIORITY := Some priority; X_CANVAS_HASH := Some "0123456789abcdef";
     CATEGORIES := Some ["HIST-1700-07"; "Essay"] |}.

(** Finished by the user, who also raised its priority. *)
Definition done_task : Component :=
  stored_task "[HIST-1700-07 American History]: Essay 1" "COMPLETED"
              (Some 100%Z) (Some late_february) 1.

(** Not started: the client wrote PERCENT-COMPLETE:0. *)
Definition untouched_task : Component :=
  stored_task "[HIST-1700-07 American History]: Essay 1" "NEEDS-ACTION"
              (Some 0%Z) None 5.

(** ** Notions used to state the properties of the reconciler *)

(** The keys that [sync_to_caldav] and the builders read with
    [item["key"]]; the classifier sets all of them. *)
Definition has_keys (item : Item) : bool :=
  match uid item, summary item, description item, url item with
  | Some _, Some _, Some _, Some _ => true
  | _, _, _, _ => false
  end.

(** The UID under which an item is looked up in the index. *)
Definition item_key (fl : Flavour) (item : Item) : string :=
  create_uid (str_get (uid item)) (f_prefix fl).

(** The world after [print(l)]. *)
Definition say (l : Line) (w : World) : World :=
  mkWorld (objects w) (next_handle w) (faults w) (journal w) (console w ++ [l]).

(** The two server calls of an update. *)
Definition replace_calls (fl : Flavour) (e : Existing) (c : Component) : M unit :=
  _ <~ delete (object e) ;; save_object (f_kind fl) (calendar_of c).

(** What becomes of one item in a run (the state machine of the
    reconciler). *)
Inductive Outcome : Type :=
| Unchanged
| Replaced
| ReplaceFailed (e : exn)
| Created
| CreateFailed (e : exn).

Definition updated_entry (fl : Flavour) (e : Existing) (item : Item)
    : UpdatedItem :=
  mkUpdatedItem (f_label fl) (str_get (summary item))
                (detect_changes (component e) item (f_item_type fl)).

(** The component a first creation builds for the item. *)
Definition created_component (fl : Flavour) (item : Item) (now : dt_value)
    : option Component :=
  match f_create fl item (compute_item_hash item) now with
  | Ok (c, _) => Some c
  | Raise _ => None
  end.

(** [item_step fl idx now item r w o r' w']: from report [r] and world [w],
    the item ends with outcome [o], report [r'] and world [w'].  The case
    is chosen by the index alone; within a case the outcome is a failure
    exactly when a server call of this item raised. *)
Inductive item_step (fl : Flavour) (idx : gmap string Existing)
    (now : dt_value) (item : Item) (r : Report) (w : World)
    : Outcome -> Report -> World -> Prop :=
| StepUnchanged e title :
    idx !! item_key fl item = Some e ->
    hash e = compute_item_hash item ->
    title40 item = Ok title ->
    item_step fl idx now item r w
      Unchanged (f_unchanged fl r) (say (PrintUnchanged title) w)
| StepReplaced e title c w' :
    idx !! item_key fl item = Some e ->
    hash e <> compute_item_hash item ->
    title40 item = Ok title ->
    f_update fl (component e) item (compute_item_hash item) now = Ok c ->
    replace_calls fl e c (say (PrintUpdating title) w) = (Ok tt, w') ->
    item_step fl idx now item r w
      Replaced (f_updated fl (add_updated_item (updated_entry fl e item) r)) w'
| StepReplaceFailed e title c err w' :
    idx !! item_key fl item = Some e ->
    hash e <> compute_item_hash item ->
    title40 item = Ok title ->
    f_update fl (component e) item (compute_item_hash item) now = Ok c ->
    replace_calls fl e c (say (PrintUpdating title) w) = (Raise err, w') ->
    item_step fl idx now item r w
      (ReplaceFailed err) (add_updated_item (updated_entry fl e item) r)
      (say (PrintUpdateFailed title err) w')
| StepCreated title c w' :
    idx !! item_key fl item = None ->
    title40 item = Ok title ->
    created_component fl item now = Some c ->
    save_object (f_kind fl) (calendar_of c) w = (Ok tt, w') ->
    item_step fl idx now item r w
      Created (f_added fl r) (say (PrintAdded title) w')
| StepCreateFailed title c err w' :
    idx !! item_key fl item = None ->
    title40 item = Ok title ->
    created_component fl item now = Some c ->
    save_object (f_kind fl) (calendar_of c) w = (Raise err, w') ->
    item_step fl idx now item r w
      (CreateFailed err) r (say (PrintFailed title err) w').

(** The items of a list, each taking its step from where the one before
    it left the report and the world. *)
Inductive run_steps (fl : Flavour) (idx : gmap string Existing)
    (now : dt_value)
    : list Item -> Report -> World -> list Outcome -> Report -> World -> Prop :=
| RunNil r w : run_steps fl idx now [] r w [] r w
| RunCons item items r w o r1 w1 outs r2 w2 :
    item_step fl idx now item r w o r1 w1 ->
    run_steps fl idx now items r1 w1 outs r2 w2 ->
    run_steps fl idx now (item :: items) r w (o :: outs) r2 w2.

(** The worlds after a server call that went through. *)
Definition save_call (k : ObjKind) (ical : list Component) : Call :=
  match k with
  | TodoObject => CallSaveTodo ical
  | EventObject => CallSaveEvent ical
  end.

Definition new_object (k : ObjKind) (ical : list Component) (w : World)
    : DavObject :=
  mkDavObject (next_handle w) k (Some ical).

Definition saved (k : ObjKind) (ical : list Component) (w : World) : World :=
  mkWorld (objects w ++ [new_object k ical w]) (S (next_handle w))
          (tl (faults w)) (journal w ++ [(save_call k ical, true)]) (console w).

Definition deleted (obj : DavObject) (w : World) : World :=
  mkWorld (List.filter (fun o => negb (handle o =? handle obj)%nat) (objects w))
          (next_handle w) (tl (faults w))
          (journal w ++ [(CallDelete (handle obj), true)]) (console w).

(** The next [n] server calls are not planned to fail. *)
Definition plan_clear (n : nat) (w : World) : Prop :=
  forall i, (i < n)%nat -> nth i (faults w) false = false.

Definition lab_item : Item :=
  {| uid := Some "event-assignment-4712";
     summary := Some "[IT-3150 Windows Servers]: Lab 3";
     dtstart := Some (DDate (mkDate 2026 3 20));
     dtend := None;
     description := Some "";
     url := Some "";
     location := Some "";
     course_id := Some "IT-3150";
     type_tag := Some "Lab" |}.

(** An empty calendar whose first write call is going to fail. *)
Definition flaky_world : World := mkWorld [] 0 [true] [] [].

(** ** Notions used to state idempotence *)

(** The component name a listing is searched for. *)
Definition kind_name (k : ObjKind) : string :=
  match k with TodoObject => "VTODO" | EventObject => "VEVENT" end.

Definition kind_objects (k : ObjKind) (w : World) : list DavObject :=
  List.filter (fun o => bool_decide (kind o = k)) (objects w).

(** The index [get_existing_items] builds for one kind when the listing
    goes through. *)
Definition kind_index (k : ObjKind) (w : World) : gmap string Existing :=
  index_objects (kind_name k) (kind_objects k w).

(** A component that [get_existing_items] enters into the index. *)
Definition indexable (n : string) (c : Component) : bool :=
  String.eqb (name c) n && Text.truthy (str_get (UID c)).

Definition entry_of (obj : DavObject) (c : Component) : Existing :=
  mkExisting (str_get (X_CANVAS_HASH c)) obj c.

(** The index seen at one key [u]: what the components of an object, and
    the objects of a list, make of the entry at [u]. *)
Definition component_at (n u : string) (obj : DavObject)
    (acc : option Existing) (c : Component) : option Existing :=
  if indexable n c && String.eqb (str_get (UID c)) u
  then Some (entry_of obj c) else acc.

Definition object_at (n u : string) (acc : option Existing) (obj : DavObject)
    : option Existing :=
  match data obj with
  | Some ical => fold_left (component_at n u obj) ical acc
  | None => acc
  end.

Definition objects_at (n u : string) (objs : list DavObject)
    (acc : option Existing) : option Existing :=
  fold_left (object_at n u) objs acc.

(** The object holds a record of kind [n] with UID [u]. *)
Definition contributes (n u : string) (obj : DavObject) : Prop :=
  exists ical c, data obj = Some ical /\ In c ical /\
                 indexable n c = true /\ str_get (UID c) = u.

(** The server holds one record per object, under distinct handles that
    were all handed out already: the state of a calendar that this
    program alone writes to. *)
Definition single_record (obj : DavObject) : Prop :=
  forall u1 u2, contributes (kind_name (kind obj)) u1 obj ->
                contributes (kind_name (kind obj)) u2 obj -> u1 = u2.

Definition store_ok (w : World) : Prop :=
  List.NoDup (map handle (objects w)) /\
  (forall obj, In obj (objects w) -> (handle obj < next_handle w)%nat) /\
  (forall obj, In obj (objects w) -> single_record obj).

(** The same world with another plan of faults. *)
Definition with_faults (plan : list bool) (w : World) : World :=
  mkWorld (objects w) (next_handle w) plan (journal w) (console w).

Definition unchanged_lines (items : list Item) : list Line :=
  map (fun item => PrintUnchanged (Text.take 40 (str_get (summary item)))) items.

(** The report of a run in which nothing had to be written. *)
Definition all_unchanged (assignments no_class_events : list Item) : Report :=
  mkReport 0 0 (length assignments) 0 0 (length no_class_events) [].

(** The component the builders make is the record of its item. *)
Definition record_of (fl : Flavour) (item : Item) (c : Component) : Prop :=
  indexable (kind_name (f_kind fl)) c = true /\
  str_get (UID c) = item_key fl item /\
  str_get (X_CANVAS_HASH c) = compute_item_hash item.

(** [n] more items counted as unchanged. *)
Definition unchanged_by (fl : Flavour) (n : nat) (r : Report) : Report :=
  match fl with
  | task_flavour =>
      mkReport (tasks_added r) (tasks_updated r) (tasks_unchanged r + n)
               (events_added r) (events_updated r) (events_unchanged r)
               (updated_items r)
  | event_flavour =>
      mkReport (tasks_added r) (tasks_updated r) (tasks_unchanged r)
               (events_added r) (events_updated r) (events_unchanged r + n)
               (updated_items r)
  end.

(** The world after the lines of a run without writes. *)
Definition told (lines : list Line) (w : World) : World :=
  mkWorld (objects w) (next_handle w) (faults w) (journal w)
          (console w ++ lines).

(** The index holds, for the item, a record with the fingerprint the item
    has now. *)
Definition up_to_date (fl : Flavour) (idx : gmap string Existing)
    (item : Item) : Prop :=
  exists e, idx !! item_key fl item = Some e /\
            hash e = compute_item_hash item.

(** A calendar nobody wrote to yet. *)
Definition empty_world : World := mkWorld [] 0 [] [] [].

Definition holiday_item : Item := item_info_of holiday_event.

(** ** config.py: the cutoff date *)

Module Strptime.

(** [datetime.strptime(s, "%Y-%m-%d")].  The format compiles to the
    regular expression
    [(?P<Y>\d\d\d\d)-(?P<m>1[0-2]|0[1-9]|[1-9])-(?P<d>3[0-1]|[1-2]\d|0[1-9]|[1-9]| [1-9])];
    each directive below lists the ways its group can match a prefix of
    the text, in the order the engine tries them, as (value, rest).  The
    digits are the ASCII ones: a text with other Unicode decimal digits,
    which [\d] accepts as well, is outside this model. *)

Definition digit_val (c : ascii) : nat := nat_of_ascii c - 48.

Definition dir_Y (s : string) : list (nat * string) :=
  match s with
  | String a (String b (String c (String d rest))) =>
      if Text.is_digit a && Text.is_digit b && Text.is_digit c && Text.is_digit d
      then [(1000 * digit_val a + 100 * digit_val b + 10 * digit_val c
             + digit_val d, rest)]
      else []
  | _ => []
  end.

(** Two characters, the first a given one, the second in a range. *)
Definition two (first : ascii) (lo hi : nat) (s : string) : list (nat * string) :=
  match s with
  | String a (String b rest) =>
      if Ascii.eqb a first && Text.in_range lo hi b
      then [(10 * digit_val a + digit_val b, rest)] else []
  | _ => []
  end.

(** One character in ["1".."9"]. *)
Definition one (s : string) : list (nat * string) :=
  match s with
  | String a rest =>
      if Text.in_range 49 57 a then [(digit_val a, rest)] else []
  | _ => []
  end.

(** A space and one character in ["1".."9"]. *)
Definition space_one (s : string) : list (nat * string) :=
  match s with
  | String " " rest => one rest
  | _ => []
  end.

Definition dir_m (s : string) : list (nat * string) :=
  two "1" 48 50 s ++ two "0" 49 57 s ++ one s.

Definition dir_d (s : string) : list (nat * string) :=
  two "3" 48 49 s ++ two "1" 48 57 s ++ two "2" 48 57 s ++ two "0" 49 57 s
  ++ one s ++ space_one s.

Definition dash (s : string) : list string :=
  match s with
  | String "-" rest => [rest]
  | _ => []
  end.

(** What follows the year: [-(?P<m>...)-(?P<d>...)]. *)
Definition match_md (s : string) : list (nat * nat * string) :=
  s1 ← dash s;
  '(m, s2) ← dir_m s1;
  s3 ← dash s2;
  '(d, s4) ← dir_d s3;
  [(m, d, s4)].

(** [format_regex.match(s)]: the first way the whole expression matches
    a prefix of [s]. *)
Definition regex_match (s : string) : option (nat * nat * nat * string) :=
  head ('(y, s1) ← dir_Y s; '(m, d, s2) ← match_md s1; [(y, m, d, s2)]).

Definition is_leap (y : nat) : bool :=
  ((y mod 4 =? 0)%nat && negb (y mod 100 =? 0)%nat) || (y mod 400 =? 0)%nat.

Definition days_in_month (y m : nat) : nat :=
  match m with
  | 2 => if is_leap y then 29 else 28
  | 4 | 6 | 9 | 11 => 30
  | _ => 31
  end.

(** [datetime.date(y, m, d)] accepts the triple. *)
Definition valid_date (d : date) : bool :=
  (1 <=? year d)%nat && (year d <? 100 * 100)%nat &&
  (1 <=? month d)%nat && (month d <=? 12)%nat &&
  (1 <=? day d)%nat && (day d <=? days_in_month (year d) (month d))%nat.

(** The parsed date; [None] stands for a [ValueError] (no match,
    unconverted data after the match, or a day that the month does not
    have). *)
Definition strptime_date (s : string) : option date :=
  match regex_match s with
  | Some (y, m, d, EmptyString) =>
      if valid_date (mkDate y m d) then Some (mkDate y m d) else None
  | _ => None
  end.

End Strptime.

(** [parse_end_date(date_str)], with the lines it prints. *)
Definition parse_end_date (date_str : string) : option date * list string :=
  if negb (Text.truthy date_str) || String.eqb (Text.strip date_str) ""
  then (None, [])
  else
    match Strptime.strptime_date (Text.strip date_str) with
    | Some d => (Some d, [])
    | None =>
        (None, ["⚠️  Invalid date format: " +:+ date_str;
                "   Expected format: YYYY-MM-DD"])
    end.
(** ** Notions used to state further properties of the classifier *)

#[global] Instance Category_eq_dec : EqDecision Category.
Proof. solve_decision. Defined.

(** The [item_info] dictionaries of the VEVENTs of a feed, in feed order. *)
Definition feed_items (feed : list Component) : list Item :=
  map item_info_of
      (List.filter (fun c => String.eqb (name c) "VEVENT") feed).

Definition in_category (config : SyncConfig) (cat : Category) (item : Item)
    : bool :=
  bool_decide (categorize config item = cat).

(** The item with the type tag of its title. *)
Definition tagged (item : Item) : Item :=
  set_type_tag (get_assignment_type_tag (str_get (summary item))) item.

(** The tags of the table, and the default tag. *)
Definition TYPE_TAGS : list string :=
  map fst ASSIGNMENT_TYPE_KEYWORDS ++ [DEFAULT_ASSIGNMENT_TYPE_TAG].

(** The groups with an item added to the list of its category. *)
Definition add_to_group (config : SyncConfig) (g : Groups) (item : Item)
    : Groups :=
  match categorize config item with
  | Assignment =>
      mkGroups (assignments g ++ [tagged item]) (no_class_events g)
               (skipped g) (filtered_out g)
  | NoClass =>
      mkGroups (assignments g) (no_class_events g ++ [item])
               (skipped g) (filtered_out g)
  | Skipped =>
      mkGroups (assignments g) (no_class_events g) (skipped g ++ [item])
               (filtered_out g)
  | FilteredOut =>
      mkGroups (assignments g) (no_class_events g) (skipped g)
               (filtered_out g ++ [item])
  end.

(** The groups read off the categories of the items. *)
Definition groups_by_category (config : SyncConfig) (items : list Item)
    : Groups :=
  mkGroups (map tagged (List.filter (in_category config Assignment) items))
           (List.filter (in_category config NoClass) items)
           (List.filter (in_category config Skipped) items)
           (List.filter (in_category config FilteredOut) items).
(** ** Notions used to state further properties of the fingerprint and
       the builders *)

(** Every character of the string satisfies [p]. *)
Fixpoint all_chars (p : ascii -> bool) (s : string) : bool :=
  match s with
  | EmptyString => true
  | String c s' => p c && all_chars p s'
  end.

(** ["0".."9"] or ["a".."f"] *)
Definition is_hex_lower (c : ascii) : bool :=
  Text.is_digit c || Text.in_range 97 102 c.

(** The first of the keys read with [item["key"]] that the item lacks, in
    the order the builders read them. *)
Definition first_missing_key (item : Item) : option string :=
  match uid item, summary item, description item, url item with
  | None, _, _, _ => Some "uid"
  | _, None, _, _ => Some "summary"
  | _, _, None, _ => Some "description"
  | _, _, _, None => Some "url"
  | _, _, _, _ => None
  end.

(** The properties of a record that the builders take from the item. *)
Definition source_fields (c : Component)
    : string * option string * option string * option dt_value
      * option dt_value * option dt_value * option string * option string
      * option string * option string * option (list string) :=
  (name c, UID c, SUMMARY c, DTSTART c, DTEND c, DUE c, DESCRIPTION c, URL c,
   LOCATION c, X_CANVAS_HASH c, CATEGORIES c).
(** ** Notions used to state further properties of the reconciler *)

(** The counters of the loop [fl]. *)
Definition count_added (fl : Flavour) (r : Report) : nat :=
  match fl with task_flavour => tasks_added r | event_flavour => events_added r end.
Definition count_updated (fl : Flavour) (r : Report) : nat :=
  match fl with task_flavour => tasks_updated r | event_flavour => events_updated r end.
Definition count_unchanged (fl : Flavour) (r : Report) : nat :=
  match fl with
  | task_flavour => tasks_unchanged r
  | event_flavour => events_unchanged r
  end.

Definition other (fl : Flavour) : Flavour :=
  match fl with task_flavour => event_flavour | event_flavour => task_flavour end.

(** How many outcomes of a list satisfy [p]. *)
Definition tally (p : Outcome -> bool) (outs : list Outcome) : nat :=
  length (List.filter p outs).

Definition is_created (o : Outcome) : bool :=
  match o with Created => true | _ => false end.
Definition is_replaced (o : Outcome) : bool :=
  match o with Replaced => true | _ => false end.
Definition is_unchanged (o : Outcome) : bool :=
  match o with Unchanged => true | _ => false end.
Definition is_replace_failed (o : Outcome) : bool :=
  match o with ReplaceFailed _ => true | _ => false end.
Definition is_create_failed (o : Outcome) : bool :=
  match o with CreateFailed _ => true | _ => false end.

(** The handles that a loop over [items] may delete: those of the indexed
    records of the items whose fingerprint is out of date. *)
Definition stale_handle (fl : Flavour) (idx : gmap string Existing)
    (items : list Item) (h : nat) : Prop :=
  exists item e,
    In item items /\ idx !! item_key fl item = Some e /\
    hash e <> compute_item_hash item /\ handle (object e) = h.


(** A calendar that holds the finished task of the essay. *)
Definition stocked_world : World :=
  mkWorld [mkDavObject 0 TodoObject (Some (calendar_of done_task))] 1 [] [] [].
(** ** Notions used to state the shape of an extracted course id *)

(** [[A-Z0-9-]] *)
Definition is_code_char (c : ascii) : bool :=
  Text.is_upper c || Text.is_digit c || Ascii.eqb c "-".

(** Does [ [^\]]+\]] match at the start of [s]? *)
Definition tail_ok (s : string) : bool :=
  match s with
  | String " " s1 =>
      match Re.plus_greedy (fun c => negb (Ascii.eqb c "]")) s1
              (fun _ s' => match s' with
                           | String "]" _ => Some tt
                           | _ => None
                           end) with
      | Some _ => true
      | None => false
      end
  | _ => false
  end.

(** Does [(?:-\d{2})? [^\]]+\]] match at the start of [s]? *)
Definition rest_ok (s : string) : bool :=
  match s with
  | String "-" (String d1 (String d2 s3)) =>
      (Text.is_digit d1 && Text.is_digit d2 && tail_ok s3) || tail_ok s
  | _ => tail_ok s
  end.

(** ** Notions used to state the whole-word test *)

(** The last character of a text, if any. *)
Fixpoint last_char (s : string) : option ascii :=
  match s with
  | EmptyString => None
  | String c s' =>
      match last_char s' with
      | Some d => Some d
      | None => Some c
      end
  end.

(** The character before the position reached after [a], when [prev] is
    the character before [a]. *)
Definition char_before (prev : option ascii) (a : string) : option ascii :=
  match last_char a with
  | Some c => Some c
  | None => prev
  end.

(** * Properties *)

(** ** Classifier *)

Section TypeTag.

Variable s : string.

Lemma keyword_loop_hit (keywords : list string) :
  keyword_loop keywords s = true <-> word_hit keywords s.
Proof.
  unfold word_hit. induction keywords as [|k rest IH]; simpl.
  - split; [discriminate | intros (k & [] & _)].
  - destruct (Re.search (whole_word k) s) eqn:E.
    + split; [intros _ | reflexivity].
      exists k. split; [now left | congruence].
    + rewrite IH. split.
      * intros (k' & Hin & Hm). exists k'. split; [now right | exact Hm].
      * intros (k' & [-> | Hin] & Hm); [congruence | eauto].
Qed.

Lemma keyword_loop_miss (keywords : list string) :
  keyword_loop keywords s = false <-> ~ word_hit keywords s.
Proof.
  rewrite <- keyword_loop_hit. destruct (keyword_loop keywords s); split;
    congruence.
Qed.

Lemma tag_loop_first (pre post : list (string * list string))
    (tag : string) (keywords : list string) :
  Forall (fun e => ~ word_hit (snd e) s) pre ->
  word_hit keywords s ->
  tag_loop (pre ++ (tag, keywords) :: post) s = Some tag.
Proof.
  intros Hpre Hhit. induction Hpre as [|[t ks] pre Hmiss _ IH]; simpl.
  - apply keyword_loop_hit in Hhit. now rewrite Hhit.
  - apply keyword_loop_miss in Hmiss. simpl in Hmiss. now rewrite Hmiss.
Qed.

Lemma tag_loop_none (table : list (string * list string)) :
  Forall (fun e => ~ word_hit (snd e) s) table ->
  tag_loop table s = None.
Proof.
  induction 1 as [|[t ks] table Hmiss _ IH]; simpl; [reflexivity|].
  apply keyword_loop_miss in Hmiss. simpl in Hmiss. now rewrite Hmiss.
Qed.

End TypeTag.

(** C5 (as amended).  The table is scanned in its order: the first tag one
    of whose keywords occurs as a whole word in the lower-cased title is
    returned, and the default tag when there is none.  "Lab 3 Report" is
    tagged Essay ("report" is a keyword of Essay, which comes before Lab),
    "Lab 3" is tagged Lab, and "Collaborative" gets the default tag. *)
Theorem type_tag_first_match_wins :
  (forall pre tag keywords post summary,
      Forall (fun e => ~ word_hit (snd e) (Text.lower summary)) pre ->
      word_hit keywords (Text.lower summary) ->
      type_tag_in (pre ++ (tag, keywords) :: post) summary = tag) /\
  (forall table summary,
      Forall (fun e => ~ word_hit (snd e) (Text.lower summary)) table ->
      type_tag_in table summary = DEFAULT_ASSIGNMENT_TYPE_TAG) /\
  get_assignment_type_tag "Lab 3 Report" = "Essay" /\
  get_assignment_type_tag "Lab 3" = "Lab" /\
  get_assignment_type_tag "Collaborative" = "Assignment".
Proof.
  split; [|split].
  - intros pre tag keywords post summary Hpre Hhit. unfold type_tag_in.
    now rewrite (tag_loop_first _ pre post tag keywords Hpre Hhit).
  - intros table summary Hnone. unfold type_tag_in.
    now rewrite (tag_loop_none _ table Hnone).
  - repeat split; vm_compute; reflexivity.
Qed.

(** C5, the example of the claim: the title "Lab 3 Report" is not tagged
    Lab. *)
Lemma lab_report_not_tagged_lab :
  get_assignment_type_tag "Lab 3 Report" <> "Lab".
Proof. vm_compute. discriminate. Qed.

(** C4.  On the title "[HIST-1700-07 American History]: Essay 2" the
    greedy code group takes the section suffix with it: the extracted
    course id is "HIST-1700-07", not "HIST-1700". *)
Theorem extract_course_id_keeps_section_suffix :
  extract_course_id_from_summary "[HIST-1700-07 American History]: Essay 2"
  = Some "HIST-1700-07".
Proof. vm_compute. reflexivity. Qed.

Lemma extract_course_id_without_section :
  extract_course_id_from_summary "[IT-3150 Windows Servers]" = Some "IT-3150".
Proof. vm_compute. reflexivity. Qed.

Lemma search_course_id_no_bracket (s : string) (prev : option ascii) :
  Text.contains "[" s = false ->
  Re.search_from course_id_pattern prev s = None.
Proof.
  revert prev. induction s as [|c s IH]; intros prev H.
  - reflexivity.
  - simpl in H. apply orb_false_iff in H as [Hc Hs].
    cbn [Re.search_from]. unfold course_id_pattern at 1.
    cbn [Re.rmatch Re.lit].
    destruct (Ascii.eqb_spec "[" c) as [<-|Hne].
    + simpl in Hc. destruct s; discriminate.
    + now apply IH.
Qed.

(** A title without an opening bracket yields no course id. *)
Lemma extract_course_id_no_bracket (s : string) :
  Text.contains "[" s = false -> extract_course_id_from_summary s = None.
Proof.
  intros H. unfold extract_course_id_from_summary, Re.search.
  now rewrite search_course_id_no_bracket.
Qed.

Lemma type_tag_first_match_wins_witness :
  Forall (fun e => ~ word_hit (snd e) (Text.lower "Lab 3")) [("Exam", ["exam"])] /\
  word_hit ["lab"] (Text.lower "Lab 3") /\
  type_tag_in ([("Exam", ["exam"])] ++ ("Lab", ["lab"]) :: []) "Lab 3" = "Lab".
Proof.
  assert (H1 : Forall (fun e => ~ word_hit (snd e) (Text.lower "Lab 3"))
                      [("Exam", ["exam"])]).
  { repeat constructor. intros (k & Hin & Hm). simpl in Hin.
    destruct Hin as [<-|[]]. apply Hm. vm_compute. reflexivity. }
  assert (H2 : word_hit ["lab"] (Text.lower "Lab 3")).
  { exists "lab". split; [now left | vm_compute; discriminate]. }
  split; [exact H1 | split; [exact H2 |]].
  exact (proj1 type_tag_first_match_wins _ _ _ _ _ H1 H2).
Defined.

Section Classify.

Variable config : SyncConfig.

Lemma item_info_untagged (c : Component) : type_tag (item_info_of c) = None.
Proof.
  unfold item_info_of.
  destruct (extract_course_id_from_summary _) as [cid|]; [|reflexivity].
  destruct (Text.truthy cid); reflexivity.
Qed.

Lemma item_in_spec (i : Item) (l : list Item) :
  item_in i l = true <-> In i l.
Proof.
  unfold item_in. rewrite existsb_exists. split.
  - intros (x & Hin & Heq). apply bool_decide_eq_true in Heq. now subst.
  - intros Hin. exists i. split; [exact Hin | now apply bool_decide_eq_true].
Qed.

Lemma item_in_tagged_list (i : Item) (l : list Item) :
  type_tag i = None ->
  (forall x, In x l -> type_tag x <> None) ->
  item_in i l = false.
Proof.
  intros Hi Hl. destruct (item_in i l) eqn:E; [|reflexivity].
  apply item_in_spec in E. now destruct (Hl i E).
Qed.

Lemma categorize_assignment (i : Item) :
  categorize config i = Assignment -> no_class_title config i = false.
Proof.
  unfold categorize, no_class_title.
  destruct (negb (is_within_date_range i (end_date config))); [discriminate|].
  destruct (matches_keywords (str_get (summary i)) (cfg_no_class_keywords config));
    [discriminate | reflexivity].
Qed.

Lemma categorize_no_class (i : Item) :
  is_within_date_range i (end_date config) = true ->
  no_class_title config i = true ->
  categorize config i = NoClass.
Proof.
  unfold categorize, no_class_title. intros -> ->. reflexivity.
Qed.

Lemma classify_step_ok (g : Groups) (c : Component) :
  assignments_ok config g -> assignments_ok config (classify_step config g c).
Proof.
  intros Hg. unfold classify_step.
  destruct (categorize config (item_info_of c)) eqn:Hcat; try exact Hg.
  (* Assignment: the appended entry is found in the list and tagged *)
  assert (Hin : item_in (item_info_of c)
                          (assignments g ++ [item_info_of c]) = true).
  { apply item_in_spec, in_or_app. right. now left. }
  rewrite Hin. intros x Hx. cbn [assignments] in Hx.
  apply in_app_or in Hx as [Hx | [<- | []]]; [now apply Hg|].
  split; [discriminate|].
  apply categorize_assignment in Hcat. exact Hcat.
Qed.

Lemma classify_step_no_class (g : Groups) (c : Component) :
  assignments_ok config g ->
  categorize config (item_info_of c) = NoClass ->
  no_class_events (classify_step config g c)
  = no_class_events g ++ [item_info_of c].
Proof.
  intros Hg Hcat. unfold classify_step. rewrite Hcat.
  rewrite item_in_tagged_list; [reflexivity | apply item_info_untagged |].
  intros x Hx. now apply Hg.
Qed.

Lemma classify_step_no_class_mono (g : Groups) (c : Component) (x : Item) :
  In x (no_class_events g) -> In x (no_class_events (classify_step config g c)).
Proof.
  intros Hx. unfold classify_step.
  destruct (categorize config (item_info_of c)); try destruct (item_in _ _);
    cbn [no_class_events]; try exact Hx; apply in_or_app; now left.
Qed.

Lemma classify_loop_ok (feed : list Component) (g : Groups) :
  assignments_ok config g -> assignments_ok config (fold_left (classify_body config) feed g).
Proof.
  revert g. induction feed as [|c feed IH]; intros g Hg; simpl; [exact Hg|].
  apply IH. unfold classify_body.
  destruct (String.eqb (name c) "VEVENT"); [now apply classify_step_ok | exact Hg].
Qed.

Lemma classify_loop_no_class_mono (feed : list Component) (g : Groups) (x : Item) :
  In x (no_class_events g) ->
  In x (no_class_events (fold_left (classify_body config) feed g)).
Proof.
  revert g. induction feed as [|c feed IH]; intros g Hx; simpl; [exact Hx|].
  apply IH. unfold classify_body.
  destruct (String.eqb (name c) "VEVENT");
    [now apply classify_step_no_class_mono | exact Hx].
Qed.

Lemma classify_loop_no_class (feed : list Component) (g : Groups)
    (c : Component) :
  assignments_ok config g ->
  In c feed ->
  name c = "VEVENT" ->
  categorize config (item_info_of c) = NoClass ->
  In (item_info_of c) (no_class_events (fold_left (classify_body config) feed g)).
Proof.
  revert g. induction feed as [|c' feed IH]; intros g Hg Hin Hname Hcat;
    [destruct Hin|].
  simpl. destruct Hin as [-> | Hin].
  - apply classify_loop_no_class_mono. unfold classify_body.
    rewrite Hname, String.eqb_refl.
    rewrite classify_step_no_class by assumption.
    apply in_or_app. right. now left.
  - apply IH; try assumption. unfold classify_body.
    destruct (String.eqb (name c') "VEVENT");
      [now apply classify_step_ok | exact Hg].
Qed.

End Classify.

(** C6.  A VEVENT of the feed that is within the date range and whose
    title matches a no-class keyword is categorized NoClass and ends up in
    the no-class list, whether or not a course id was extracted from its
    title; and no member of the assignments list has a title that matches
    a no-class keyword, so the item is not among the assignments. *)
Theorem no_class_before_course_id (config : SyncConfig)
    (feed : list Component) (c : Component) :
  In c feed ->
  name c = "VEVENT" ->
  is_within_date_range (item_info_of c) (end_date config) = true ->
  no_class_title config (item_info_of c) = true ->
  categorize config (item_info_of c) = NoClass /\
  In (item_info_of c) (snd (fetch_canvas_items config feed)) /\
  (forall x, In x (fst (fetch_canvas_items config feed)) ->
             no_class_title config x = false) /\
  ~ In (item_info_of c) (fst (fetch_canvas_items config feed)).
Proof.
  intros Hin Hname Hrange Htitle.
  assert (Hcat := categorize_no_class config _ Hrange Htitle).
  assert (Hempty : assignments_ok config empty_groups) by (intros x []).
  assert (Hall := classify_loop_ok config feed empty_groups Hempty).
  unfold fetch_canvas_items, classify_feed. cbn [fst snd].
  split; [exact Hcat | split; [|split]].
  - now apply classify_loop_no_class.
  - intros x Hx. now apply Hall.
  - intros Hx. apply Hall in Hx as [_ Hx]. congruence.
Qed.

Lemma no_class_before_course_id_witness :
  course_id (item_info_of holiday_event) = Some "HIST-1700-07" /\
  categorize default_config (item_info_of holiday_event) = NoClass /\
  In (item_info_of holiday_event)
     (snd (fetch_canvas_items default_config [holiday_event])).
Proof.
  split; [vm_compute; reflexivity|].
  pose proof (no_class_before_course_id default_config [holiday_event]
                holiday_event (or_introl eq_refl) eq_refl eq_refl eq_refl) as H.
  split; [exact (proj1 H) | exact (proj1 (proj2 H))].
Defined.

(** ** From the classifier to the reconciler *)

Lemma item_info_has_keys (c : Component) : has_keys (item_info_of c) = true.
Proof.
  unfold item_info_of.
  destruct (extract_course_id_from_summary _) as [cid|]; [|reflexivity].
  destruct (Text.truthy cid); reflexivity.
Qed.

Lemma classify_step_has_keys (config : SyncConfig) (g : Groups) (c : Component) :
  Forall (fun item => has_keys item = true) (assignments g ++ no_class_events g) ->
  Forall (fun item => has_keys item = true)
         (assignments (classify_step config g c)
          ++ no_class_events (classify_step config g c)).
Proof.
  intros H. pose proof (item_info_has_keys c) as Hc.
  assert (Hc' : forall tag, has_keys (set_type_tag tag (item_info_of c)) = true).
  { intros tag. exact Hc. }
  apply Forall_app in H as [Ha Hn].
  unfold classify_step.
  destruct (categorize config (item_info_of c)); cbn [assignments no_class_events];
    try destruct (item_in _ _);
    rewrite ?Forall_app; repeat split; auto.
Qed.

(** The items the classifier hands to the reconciler have the keys the
    reconciler reads. *)
Lemma fetch_canvas_items_has_keys (config : SyncConfig) (feed : list Component) :
  Forall (fun item => has_keys item = true) (fst (fetch_canvas_items config feed)) /\
  Forall (fun item => has_keys item = true) (snd (fetch_canvas_items config feed)).
Proof.
  unfold fetch_canvas_items, classify_feed. cbn [fst snd].
  apply Forall_app.
  assert (H : Forall (fun item => has_keys item = true)
                     (assignments empty_groups ++ no_class_events empty_groups))
    by constructor.
  revert H. generalize empty_groups.
  induction feed as [|c feed IH]; intros g Hg; cbn; [exact Hg|].
  apply IH. unfold classify_body.
  destruct (String.eqb (name c) "VEVENT");
    [now apply classify_step_has_keys | exact Hg].
Qed.

(** ** Fingerprint *)

Lemma hash_content_eq_digest (a b : Item) :
  hash_content a = hash_content b -> compute_item_hash a = compute_item_hash b.
Proof. unfold compute_item_hash. now intros ->. Qed.

(** C3 (as amended).  The encoding does not tell a missing text field from
    an empty one: for each of title, description, URL, location, course id
    and type tag, the item with the field omitted and the item with the
    field set to the empty string have the same digest. *)
Theorem absent_and_empty_same_digest (i : Item) :
  compute_item_hash (with_summary None i)
  = compute_item_hash (with_summary (Some "") i) /\
  compute_item_hash (with_description None i)
  = compute_item_hash (with_description (Some "") i) /\
  compute_item_hash (with_url None i)
  = compute_item_hash (with_url (Some "") i) /\
  compute_item_hash (with_location None i)
  = compute_item_hash (with_location (Some "") i) /\
  compute_item_hash (with_course_id None i)
  = compute_item_hash (with_course_id (Some "") i) /\
  compute_item_hash (with_type_tag None i)
  = compute_item_hash (with_type_tag (Some "") i).
Proof. repeat split; apply hash_content_eq_digest; reflexivity. Qed.

(** C3, against the claim: the essay without a description and the essay
    with an empty description are different items with one digest. *)
Lemma omitted_description_same_digest :
  with_description None essay_item <> with_description (Some "") essay_item /\
  compute_item_hash (with_description None essay_item)
  = compute_item_hash (with_description (Some "") essay_item).
Proof. split; [discriminate | vm_compute; reflexivity]. Qed.

(** What [update_vtodo] keeps of the prior record and what it takes from
    the item. *)
Lemma update_vtodo_fields (prior : Component) (item : Item) (h : string)
    (now : dt_value) (c : Component) :
  update_vtodo prior item h now = Ok c ->
  (forall t, CREATED prior = Some t -> CREATED c = Some t) /\
  (forall s, STATUS prior = Some s -> STATUS c = Some s) /\
  COMPLETED c = COMPLETED prior /\
  (forall p, PERCENT_COMPLETE prior = Some p -> p <> 0%Z ->
             PERCENT_COMPLETE c = Some p) /\
  SUMMARY c = summary item /\
  X_CANVAS_HASH c = Some h /\
  PRIORITY c = Some 5%Z.
Proof.
  unfold update_vtodo.
  destruct (uid item) as [u|], (summary item) as [title|],
    (description item) as [descr|], (url item) as [link|]; try discriminate.
  cbn. intros [= <-]. cbn. repeat split.
  - now intros t ->.
  - now intros s ->.
  - intros p -> Hp. cbn. destruct (Z.eqb_spec p 0); [contradiction | reflexivity].
Qed.

(** C7.  The digest is a function of the eight hashed fields: items that
    agree on title, description, URL, location, start, end, course id and
    type tag have the same digest, whatever else differs.  The fingerprint
    written into a rebuilt task is that digest whatever the prior record
    holds (status, priority, timestamps) and whatever the time of the
    run. *)
Theorem fingerprint_of_eight_fields (a b : Item) :
  summary a = summary b ->
  description a = description b ->
  url a = url b ->
  location a = location b ->
  dtstart a = dtstart b ->
  dtend a = dtend b ->
  course_id a = course_id b ->
  type_tag a = type_tag b ->
  compute_item_hash a = compute_item_hash b /\
  (forall prior1 prior2 now1 now2 c1 c2,
      update_vtodo prior1 a (compute_item_hash a) now1 = Ok c1 ->
      update_vtodo prior2 b (compute_item_hash b) now2 = Ok c2 ->
      X_CANVAS_HASH c1 = Some (compute_item_hash a) /\
      X_CANVAS_HASH c2 = X_CANVAS_HASH c1).
Proof.
  intros Hs Hd Hu Hl Hb He Hc Ht.
  assert (Heq : compute_item_hash a = compute_item_hash b).
  { apply hash_content_eq_digest. unfold hash_content.
    now rewrite Hs, Hd, Hu, Hl, Hb, He, Hc, Ht. }
  split; [exact Heq|].
  intros prior1 prior2 now1 now2 c1 c2 H1 H2.
  apply update_vtodo_fields in H1 as (_ & _ & _ & _ & _ & H1 & _).
  apply update_vtodo_fields in H2 as (_ & _ & _ & _ & _ & H2 & _).
  split; [exact H1 | now rewrite H1, H2, Heq].
Qed.

Lemma fingerprint_of_eight_fields_witness :
  with_uid (Some "event-assignment-9999") essay_item <> essay_item /\
  compute_item_hash (with_uid (Some "event-assignment-9999") essay_item)
  = compute_item_hash essay_item.
Proof.
  split; [discriminate|].
  exact (proj1 (fingerprint_of_eight_fields
                  (with_uid (Some "event-assignment-9999") essay_item)
                  essay_item eq_refl eq_refl eq_refl eq_refl eq_refl eq_refl
                  eq_refl eq_refl)).
Defined.

(** C10, the example of the claim: with the other fields empty, title
    "a|b" with an empty description and title "a" with description "b" are
    hashed from texts of different lengths and get different digests. *)
Lemma claimed_collision_differs :
  compute_item_hash (titled "a|b" "" blank_item)
  <> compute_item_hash (titled "a" "b" blank_item).
Proof. vm_compute. discriminate. Qed.

Lemma separator_moves_between_fields (rest : Item) :
  hash_content (titled "a|b" "c" rest) = hash_content (titled "a" "b|c" rest).
Proof. reflexivity. Qed.

(** ** Record builder *)

(** C2.  A prior record that is done keeps its status, creation and
    completion time when the title changes, but a prior record with
    PERCENT-COMPLETE:0 is rebuilt without the property: the test
    [if original_percent:] takes the number zero for a missing value. *)
Theorem update_vtodo_drops_zero_percent :
  (exists c, update_vtodo done_task essay_item (compute_item_hash essay_item) noon
             = Ok c /\
             STATUS c = Some "COMPLETED" /\ CREATED c = Some new_year /\
             COMPLETED c = Some late_february /\
             PERCENT_COMPLETE c = Some 100%Z /\
             SUMMARY c = summary essay_item /\
             X_CANVAS_HASH c = Some (compute_item_hash essay_item)) /\
  (exists c, update_vtodo untouched_task essay_item
                          (compute_item_hash essay_item) noon = Ok c /\
             PERCENT_COMPLETE untouched_task = Some 0%Z /\
             PERCENT_COMPLETE c = None).
Proof.
  split; eexists; (split; [reflexivity|]); repeat split.
Qed.

(** C9 (as amended).  The builder writes the fixed priority 5 into every
    task it builds, on first creation and on every update; the priority of
    the prior record is not read. *)
Theorem priority_is_always_five (item : Item) (h : string) (now : dt_value) :
  (forall c task_uid,
      assignment_to_vtodo item h now = Ok (c, task_uid) ->
      PRIORITY c = Some 5%Z) /\
  (forall prior c,
      update_vtodo prior item h now = Ok c -> PRIORITY c = Some 5%Z).
Proof.
  split.
  - intros c task_uid. unfold assignment_to_vtodo.
    destruct (uid item), (summary item), (description item), (url item);
      try discriminate.
    cbn. now intros [= <- _].
  - intros prior c H. now apply update_vtodo_fields in H.
Qed.

Lemma priority_is_always_five_witness :
  exists c, update_vtodo done_task essay_item "0123456789abcdef" noon = Ok c /\
            PRIORITY c = Some 5%Z.
Proof.
  eexists. split; [reflexivity|].
  exact (proj2 (priority_is_always_five essay_item "0123456789abcdef" noon)
               done_task _ eq_refl).
Defined.

(** C9, against the claim: the user's priority 1 on the prior record is
    replaced by 5 in the rebuilt record. *)
Lemma user_priority_overwritten :
  PRIORITY done_task = Some 1%Z /\
  exists c, update_vtodo done_task essay_item (compute_item_hash essay_item) noon
            = Ok c /\
            PRIORITY c <> PRIORITY done_task.
Proof.
  split; [reflexivity|]. eexists. split; [reflexivity | discriminate].
Qed.
(** ** Reconciler: one item *)

Lemma has_keys_inv (item : Item) :
  has_keys item = true ->
  exists u title descr link,
    uid item = Some u /\ summary item = Some title /\
    description item = Some descr /\ url item = Some link.
Proof.
  unfold has_keys.
  destruct (uid item) as [u|], (summary item) as [title|],
    (description item) as [descr|], (url item) as [link|]; try discriminate.
  intros _. now exists u, title, descr, link.
Qed.

Lemma f_update_ok (fl : Flavour) (prior : Component) (item : Item)
    (h : string) (now : dt_value) :
  has_keys item = true -> exists c, f_update fl prior item h now = Ok c.
Proof.
  intros H. apply has_keys_inv in H as (u & title & descr & link & Hu & Ht & Hd & Hl).
  destruct fl; cbn [f_update]; unfold update_vtodo, update_vevent;
    rewrite Hu, Ht, Hd, Hl; cbn; eauto.
Qed.

Lemma f_create_ok (fl : Flavour) (item : Item) (h : string) (now : dt_value) :
  has_keys item = true -> exists c k, f_create fl item h now = Ok (c, k).
Proof.
  intros H. apply has_keys_inv in H as (u & title & descr & link & Hu & Ht & Hd & Hl).
  destruct fl; cbn [f_create]; unfold assignment_to_vtodo, no_class_to_vevent;
    rewrite Hu, Ht, Hd, Hl; cbn; eauto.
Qed.

(** Every item that has its keys takes exactly one step, and
    [sync_item] returns normally whatever the server calls do. *)
Lemma sync_item_step (fl : Flavour) (idx : gmap string Existing)
    (now : dt_value) (r : Report) (item : Item) (w : World) :
  has_keys item = true ->
  exists o r' w',
    sync_item fl idx now r item w = (Ok r', w') /\
    item_step fl idx now item r w o r' w'.
Proof.
  intros Hk.
  pose proof (fun prior => f_update_ok fl prior item (compute_item_hash item) now Hk)
    as Hupd.
  destruct (f_create_ok fl item (compute_item_hash item) now Hk) as (cc & ck & Hcre).
  apply has_keys_inv in Hk as (u & title & descr & link & Hu & Ht & Hd & Hl).
  assert (Ht40 : title40 item = Ok (Text.take 40 title)).
  { unfold title40. now rewrite Ht. }
  assert (Hkey : item_key fl item = create_uid u (f_prefix fl)).
  { unfold item_key. now rewrite Hu. }
  unfold sync_item. rewrite Hu. unfold bindM at 1, lift at 1. cbn [getitem].
  rewrite <- Hkey.
  destruct (idx !! item_key fl item) as [e|] eqn:Hidx.
  - destruct (String.eqb_spec (hash e) (compute_item_hash item)) as [Heq|Hne].
    + exists Unchanged, (f_unchanged fl r), (say (PrintUnchanged (Text.take 40 title)) w).
      split.
      * unfold bindM, lift. rewrite Ht40. reflexivity.
      * now apply StepUnchanged with (e := e).
    + destruct (Hupd (component e)) as [c Hc].
      unfold bindM at 1, lift at 1. rewrite Ht40.
      unfold bindM at 1. cbn [print].
      unfold bindM at 1, lift at 1. rewrite Ht. cbn [getitem].
      unfold bindM at 1, lift at 1. rewrite Hc.
      fold (say (PrintUpdating (Text.take 40 title)) w).
      assert (Hentry : mkUpdatedItem (f_label fl) title
                         (detect_changes (component e) item (f_item_type fl))
                       = updated_entry fl e item).
      { unfold updated_entry. now rewrite Ht. }
      rewrite Hentry.
      destruct (replace_calls fl e c (say (PrintUpdating (Text.take 40 title)) w))
        as [[[]|err] w'] eqn:Hcalls.
      * exists Replaced, (f_updated fl (add_updated_item (updated_entry fl e item) r)), w'.
        split; [|now apply StepReplaced with (title := Text.take 40 title) (c := c)].
        unfold replace_calls, bindM in Hcalls. unfold try_except, bindM, ret.
        destruct (delete (object e) _) as [[[]|e1] w1]; [|discriminate].
        destruct (save_object _ _ w1) as [[[]|e2] w2]; [|discriminate].
        now injection Hcalls as ->.
      * exists (ReplaceFailed err), (add_updated_item (updated_entry fl e item) r),
          (say (PrintUpdateFailed (Text.take 40 title) err) w').
        split; [|now apply StepReplaceFailed with (c := c)].
        unfold replace_calls, bindM in Hcalls. unfold try_except, bindM, ret, lift.
        destruct (delete (object e) _) as [[[]|e1] w1].
        -- destruct (save_object _ _ w1) as [[[]|e2] w2]; [discriminate|].
           injection Hcalls as -> ->. rewrite ?Ht40. reflexivity.
        -- injection Hcalls as -> ->. rewrite ?Ht40. reflexivity.
  - unfold bindM at 1, lift at 1. rewrite Hcre. cbn [fst].
    assert (Hcc : created_component fl item now = Some cc).
    { unfold created_component. now rewrite Hcre. }
    destruct (save_object (f_kind fl) (calendar_of cc) w) as [[[]|err] w'] eqn:Hsave.
    + exists Created, (f_added fl r), (say (PrintAdded (Text.take 40 title)) w').
      split; [|now apply StepCreated with (c := cc)].
      unfold try_except, bindM, lift. rewrite Hsave, Ht40. reflexivity.
    + exists (CreateFailed err), r, (say (PrintFailed (Text.take 40 title) err) w').
      split; [|now apply StepCreateFailed with (c := cc)].
      unfold try_except, bindM, lift. rewrite Hsave, Ht40. reflexivity.
Qed.

(** ** The server calls *)

Lemma save_object_goes_through (k : ObjKind) (ical : list Component) (w : World) :
  hd false (faults w) = false ->
  save_object k ical w = (Ok tt, saved k ical w).
Proof.
  destruct w as [objs next plan jr out]. unfold save_object, saved, bindM,
    next_fault, log_call, save_call, new_object. cbn.
  destruct plan as [|[] plan]; cbn; intros H; try discriminate;
    destruct k; reflexivity.
Qed.

Lemma save_object_fails (k : ObjKind) (ical : list Component) (w : World) :
  hd false (faults w) = true ->
  exists w', save_object k ical w = (Raise (DAVError "save failed"), w') /\
             objects w' = objects w /\
             journal w' = journal w ++ [(save_call k ical, false)].
Proof.
  destruct w as [objs next plan jr out]. unfold save_object, bindM,
    next_fault, log_call, save_call, raise. cbn.
  destruct plan as [|[] plan]; cbn; intros H; try discriminate.
  destruct k; eexists; repeat split.
Qed.

Lemma delete_goes_through (obj : DavObject) (w : World) :
  hd false (faults w) = false ->
  has_handle (handle obj) w = true ->
  delete obj w = (Ok tt, deleted obj w).
Proof.
  destruct w as [objs next plan jr out]. unfold delete, deleted, bindM,
    next_fault. cbn.
  destruct plan as [|[] plan]; cbn; intros H Hh; try discriminate;
    unfold has_handle in *; cbn in *; rewrite Hh; reflexivity.
Qed.

Lemma plan_clear_hd (n : nat) (w : World) :
  plan_clear (S n) w -> hd false (faults w) = false.
Proof.
  intros H. specialize (H 0%nat ltac:(lia)). now destruct (faults w).
Qed.

Lemma plan_clear_tl (n : nat) (w w' : World) :
  faults w' = tl (faults w) -> plan_clear (S n) w -> plan_clear n w'.
Proof.
  intros Hf H i Hi. rewrite Hf. specialize (H (S i) ltac:(lia)).
  destruct (faults w); [now destruct i | exact H].
Qed.

Lemma plan_clear_nil (n : nat) (w : World) : faults w = [] -> plan_clear n w.
Proof. intros H i _. rewrite H. now destruct i. Qed.

Lemma replace_calls_go_through (fl : Flavour) (e : Existing) (c : Component)
    (w : World) :
  plan_clear 2 w ->
  has_handle (handle (object e)) w = true ->
  replace_calls fl e c w
  = (Ok tt, saved (f_kind fl) (calendar_of c) (deleted (object e) w)).
Proof.
  intros Hplan Hh. unfold replace_calls, bindM.
  rewrite delete_goes_through; [|exact (plan_clear_hd _ _ Hplan) | exact Hh].
  apply save_object_goes_through.
  apply (plan_clear_hd 0). now apply (plan_clear_tl _ w).
Qed.

(** ** Reconciler: a whole loop *)

Lemma for_each_app {A S} (body : S -> A -> M S) (xs ys : list A) (acc : S)
    (w : World) :
  for_each body (xs ++ ys) acc w =
  match for_each body xs acc w with
  | (Ok acc', w') => for_each body ys acc' w'
  | (Raise e, w') => (Raise e, w')
  end.
Proof.
  revert acc w. induction xs as [|x xs IH]; intros acc w; [reflexivity|].
  cbn [for_each app]. unfold bindM.
  destruct (body acc x w) as [[acc'|e] w']; [apply IH | reflexivity].
Qed.

Lemma run_steps_total (fl : Flavour) (idx : gmap string Existing)
    (now : dt_value) (items : list Item) (r : Report) (w : World) :
  Forall (fun item => has_keys item = true) items ->
  exists outs r' w',
    for_each (sync_item fl idx now) items r w = (Ok r', w') /\
    run_steps fl idx now items r w outs r' w' /\
    length outs = length items.
Proof.
  intros H. revert r w. induction H as [|item items Hk _ IH]; intros r w.
  - exists [], r, w. repeat split. constructor.
  - destruct (sync_item_step fl idx now r item w Hk) as (o & r1 & w1 & Hrun & Hstep).
    destruct (IH r1 w1) as (outs & r2 & w2 & Hrest & Hsteps & Hlen).
    exists (o :: outs), r2, w2. repeat split.
    + cbn [for_each]. unfold bindM. now rewrite Hrun.
    + now apply RunCons with (r1 := r1) (w1 := w1).
    + cbn. now rewrite Hlen.
Qed.

(** C8.  Whatever the server calls do, a loop of the reconciler over items
    that have their keys returns normally, every item takes its step, and
    the case of each item (unchanged, replace, create) is read from the
    index alone.  A server call that raises makes the outcome of its own
    item a failure, printed with the error; the items before an item [b]
    never keep [b] from its step, in which it is created or replaced as
    soon as its own calls go through. *)
Theorem write_failures_are_isolated (fl : Flavour)
    (idx : gmap string Existing) (now : dt_value) (items : list Item)
    (r : Report) (w : World) :
  Forall (fun item => has_keys item = true) items ->
  (exists outs r' w',
      for_each (sync_item fl idx now) items r w = (Ok r', w') /\
      run_steps fl idx now items r w outs r' w' /\
      length outs = length items) /\
  (forall pre b post,
      items = pre ++ b :: post ->
      exists r1 w1 o r2 w2,
        for_each (sync_item fl idx now) pre r w = (Ok r1, w1) /\
        sync_item fl idx now r1 b w1 = (Ok r2, w2) /\
        item_step fl idx now b r1 w1 o r2 w2 /\
        for_each (sync_item fl idx now) items r w
        = for_each (sync_item fl idx now) post r2 w2 /\
        (idx !! item_key fl b = None -> plan_clear 1 w1 ->
         o = Created /\ r2 = f_added fl r1 /\
         exists c, created_component fl b now = Some c /\
                   objects w2 = objects w1
                                ++ [new_object (f_kind fl) (calendar_of c) w1]) /\
        (forall e, idx !! item_key fl b = Some e ->
                   hash e <> compute_item_hash b ->
                   plan_clear 2 w1 ->
                   has_handle (handle (object e)) w1 = true ->
                   o = Replaced /\
                   exists c,
                     f_update fl (component e) b (compute_item_hash b) now = Ok c /\
                     In (new_object (f_kind fl) (calendar_of c)
                                    (deleted (object e) w1))
                        (objects w2))).
Proof.
  intros Hall. split; [now apply run_steps_total|].
  intros pre b post ->.
  apply Forall_app in Hall as [Hpre Hrest].
  apply Forall_cons_iff in Hrest as [Hb Hpost].
  destruct (run_steps_total fl idx now pre r w Hpre) as (_ & r1 & w1 & Hrun1 & _).
  destruct (sync_item_step fl idx now r1 b w1 Hb) as (o & r2 & w2 & Hrun & Hstep).
  exists r1, w1, o, r2, w2. split; [exact Hrun1|]. split; [exact Hrun|].
  split; [exact Hstep|]. split; [|split].
  - rewrite for_each_app, Hrun1. cbn [for_each]. unfold bindM at 1.
    now rewrite Hrun.
  - intros Hidx Hplan.
    destruct Hstep as [e title He Hh Ht
                      | e title c w2 He Hh Ht Hc Hcalls
                      | e title c err w2 He Hh Ht Hc Hcalls
                      | title c w2 He Ht Hc Hsave
                      | title c err w2 He Ht Hc Hsave]; try congruence;
      rewrite save_object_goes_through in Hsave by now apply (plan_clear_hd 0).
    + injection Hsave as <-.
      split; [reflexivity | split; [reflexivity|]]. now exists c.
    + discriminate.
  - intros e' Hidx Hne Hplan Hh'.
    destruct Hstep as [e title He Hh Ht
                      | e title c w2 He Hh Ht Hc Hcalls
                      | e title c err w2 He Hh Ht Hc Hcalls
                      | title c w2 He Ht Hc Hsave
                      | title c err w2 He Ht Hc Hsave]; try congruence;
      rewrite Hidx in He; injection He as <-;
      rewrite replace_calls_go_through in Hcalls by assumption.
    + injection Hcalls as <-. split; [reflexivity|].
      exists c. split; [exact Hc|]. cbn. apply in_or_app. right. now left.
    + discriminate.
Qed.

Lemma write_failures_are_isolated_witness :
  Forall (fun item => has_keys item = true) [essay_item; lab_item] /\
  exists r1 w1 o r2 w2,
    for_each (sync_item task_flavour ∅ noon) [essay_item] empty_report flaky_world
    = (Ok r1, w1) /\
    tasks_added r1 = 0%nat /\
    (exists title e, console w1 = [PrintFailed title e]) /\
    item_step task_flavour ∅ noon lab_item r1 w1 o r2 w2 /\
    o = Created /\ tasks_added r2 = 1%nat.
Proof.
  assert (Hall : Forall (fun item => has_keys item = true) [essay_item; lab_item]).
  { repeat constructor. }
  split; [exact Hall|].
  destruct (proj2 (write_failures_are_isolated task_flavour ∅ noon
                     [essay_item; lab_item] empty_report flaky_world Hall)
                  [essay_item] lab_item [] eq_refl)
    as (r1 & w1 & o & r2 & w2 & H1 & H2 & H3 & H4 & H5 & H6).
  exists r1, w1, o, r2, w2.
  split; [exact H1|].
  vm_compute in H1. injection H1 as <- <-.
  split; [reflexivity|]. split; [eexists; eexists; reflexivity|].
  split; [exact H3|].
  destruct H5 as (-> & -> & _).
  - reflexivity.
  - apply plan_clear_nil. reflexivity.
  - split; reflexivity.
Defined.

(** ** The index, key by key *)

Section Index.

Variable n : string.

Lemma index_component_lookup (obj : DavObject) (m : gmap string Existing)
    (c : Component) (u : string) :
  index_component n obj m c !! u = component_at n u obj (m !! u) c.
Proof.
  unfold index_component, component_at, indexable, entry_of.
  destruct (String.eqb (name c) n); cbn; [|reflexivity].
  destruct (Text.truthy (str_get (UID c))); cbn; [|reflexivity].
  destruct (String.eqb_spec (str_get (UID c)) u) as [->|Hne].
  - apply lookup_insert_eq.
  - now apply lookup_insert_ne.
Qed.

Lemma index_object_lookup (obj : DavObject) (m : gmap string Existing)
    (u : string) :
  index_object n m obj !! u = object_at n u (m !! u) obj.
Proof.
  unfold index_object, object_at. destruct (data obj) as [ical|]; [|reflexivity].
  revert m. induction ical as [|c ical IH]; intros m; cbn; [reflexivity|].
  now rewrite IH, index_component_lookup.
Qed.

Lemma index_fold_lookup (objs : list DavObject) (m : gmap string Existing)
    (u : string) :
  fold_left (index_object n) objs m !! u = objects_at n u objs (m !! u).
Proof.
  unfold objects_at. revert m.
  induction objs as [|obj objs IH]; intros m; cbn; [reflexivity|].
  now rewrite IH, index_object_lookup.
Qed.

Lemma index_objects_lookup (objs : list DavObject) (u : string) :
  index_objects n objs !! u = objects_at n u objs None.
Proof. unfold index_objects. now rewrite index_fold_lookup, lookup_empty. Qed.

Lemma objects_at_app (u : string) (l1 l2 : list DavObject)
    (acc : option Existing) :
  objects_at n u (l1 ++ l2) acc = objects_at n u l2 (objects_at n u l1 acc).
Proof. unfold objects_at. apply fold_left_app. Qed.

(** The components of one object: the entry is left alone, or taken from
    a record of the object with that UID. *)
Lemma components_at_cases (u : string) (obj : DavObject)
    (ical : list Component) (acc : option Existing) :
  (fold_left (component_at n u obj) ical acc = acc /\
   forall c, In c ical -> indexable n c = true -> str_get (UID c) <> u) \/
  (exists c, In c ical /\ indexable n c = true /\ str_get (UID c) = u /\
             fold_left (component_at n u obj) ical acc = Some (entry_of obj c)).
Proof.
  revert acc. induction ical as [|c ical IH]; intros acc; cbn.
  - left. split; [reflexivity | intros c []].
  - destruct (IH (component_at n u obj acc c)) as [[Heq Hnone] | (c' & Hin & Hi & Hu & Heq)].
    + unfold component_at in Heq |- *.
      destruct (indexable n c) eqn:Hic; cbn in *.
      * destruct (String.eqb_spec (str_get (UID c)) u) as [Hu|Hu].
        -- right. exists c. repeat split; auto.
        -- left. split; [exact Heq|]. intros c0 [<-|Hin]; auto.
      * left. split; [exact Heq|]. intros c0 [<-|Hin]; [congruence | auto].
    + right. exists c'. repeat split; auto.
Qed.

Lemma object_at_cases (u : string) (obj : DavObject) (acc : option Existing) :
  (object_at n u acc obj = acc /\ ~ contributes n u obj) \/
  (exists c, object_at n u acc obj = Some (entry_of obj c) /\
             indexable n c = true /\ str_get (UID c) = u /\
             contributes n u obj).
Proof.
  unfold object_at, contributes. destruct (data obj) as [ical|] eqn:Hd.
  - destruct (components_at_cases u obj ical acc)
      as [[Heq Hnone] | (c & Hin & Hi & Hu & Heq)].
    + left. split; [exact Heq|].
      intros (ical' & c & [= <-] & Hin & Hi & Hu). now apply (Hnone c).
    + right. exists c. repeat split; auto. now exists ical, c.
  - left. split; [reflexivity|]. now intros (ical & c & [=] & _).
Qed.

Lemma object_at_silent (u : string) (obj : DavObject) (acc : option Existing) :
  ~ contributes n u obj -> object_at n u acc obj = acc.
Proof.
  intros H. destruct (object_at_cases u obj acc) as [[Heq _] | (c & _ & _ & _ & Hc)];
    [exact Heq | contradiction].
Qed.

(** An entry of the index comes from a record of a listed object. *)
Lemma objects_at_some (u : string) (objs : list DavObject)
    (acc : option Existing) (e : Existing) :
  objects_at n u objs acc = Some e ->
  acc = Some e \/
  (In (object e) objs /\ contributes n u (object e) /\
   e = entry_of (object e) (component e) /\
   indexable n (component e) = true /\ str_get (UID (component e)) = u).
Proof.
  unfold objects_at. revert acc.
  induction objs as [|obj objs IH]; intros acc H; cbn in H; [now left|].
  apply IH in H as [H | (Hin & Hc & He)].
  - destruct (object_at_cases u obj acc) as [[Heq _] | (c & Heq & Hi & Hu & Hc)].
    + left. congruence.
    + right. rewrite Heq in H. injection H as <-. cbn.
      repeat split; auto; now left.
  - right. repeat split; try tauto; now right.
Qed.

(** Objects that hold no record with UID [u] can be dropped. *)
Lemma objects_at_filter (u : string) (p : DavObject -> bool)
    (objs : list DavObject) (acc : option Existing) :
  (forall obj, In obj objs -> p obj = false -> ~ contributes n u obj) ->
  objects_at n u (List.filter p objs) acc = objects_at n u objs acc.
Proof.
  unfold objects_at. revert acc.
  induction objs as [|obj objs IH]; intros acc H; cbn; [reflexivity|].
  destruct (p obj) eqn:Hp; cbn.
  - apply IH. intros o Ho. apply H. now right.
  - rewrite (object_at_silent u obj acc) by (apply H; [now left | exact Hp]).
    apply IH. intros o Ho. apply H. now right.
Qed.

End Index.

(** ** The server state under the write calls *)

Lemma append_inj_l (s a b : string) : s +:+ a = s +:+ b -> a = b.
Proof. induction s as [|c s IH]; cbn; [auto | intros [= H]; auto]. Qed.

Lemma create_uid_inj (u1 u2 prefix : string) :
  create_uid u1 prefix = create_uid u2 prefix -> u1 = u2.
Proof.
  unfold create_uid. intros H.
  apply append_inj_l in H. apply append_inj_l in H. now apply append_inj_l in H.
Qed.

Lemma create_uid_truthy (u prefix : string) :
  Text.truthy (create_uid u prefix) = true.
Proof. reflexivity. Qed.

Lemma item_key_inj (fl : Flavour) (a b : Item) :
  has_keys a = true -> has_keys b = true ->
  item_key fl a = item_key fl b -> uid a = uid b.
Proof.
  intros Ha Hb. apply has_keys_inv in Ha as (ua & _ & _ & _ & Ha & _).
  apply has_keys_inv in Hb as (ub & _ & _ & _ & Hb & _).
  unfold item_key. rewrite Ha, Hb. cbn. intros H.
  now apply create_uid_inj in H as ->.
Qed.

Lemma f_create_record (fl : Flavour) (item : Item) (now : dt_value)
    (c : Component) :
  created_component fl item now = Some c -> record_of fl item c.
Proof.
  unfold created_component, record_of, indexable, item_key.
  destruct fl; cbn [f_create f_kind kind_name f_prefix];
    unfold assignment_to_vtodo, no_class_to_vevent;
    destruct (uid item) as [u|], (summary item) as [title|],
      (description item) as [descr|], (url item) as [link|]; try discriminate;
    cbn; intros [= <-]; cbn; auto.
Qed.

Lemma f_update_record (fl : Flavour) (prior : Component) (item : Item)
    (now : dt_value) (c : Component) :
  f_update fl prior item (compute_item_hash item) now = Ok c ->
  record_of fl item c.
Proof.
  unfold record_of, indexable, item_key.
  destruct fl; cbn [f_update f_kind kind_name f_prefix];
    unfold update_vtodo, update_vevent;
    destruct (uid item) as [u|], (summary item) as [title|],
      (description item) as [descr|], (url item) as [link|]; try discriminate;
    cbn; intros [= <-]; cbn; auto.
Qed.

Lemma NoDup_map_filter {A B} (f : A -> B) (p : A -> bool) (l : list A) :
  List.NoDup (map f l) -> List.NoDup (map f (List.filter p l)).
Proof.
  induction l as [|x l IH]; cbn; [auto|]. intros H.
  apply List.NoDup_cons_iff in H as [Hx Hl]. destruct (p x); cbn; [|auto].
  apply List.NoDup_cons_iff. split; [|auto].
  intros Hin. apply Hx. apply in_map_iff in Hin as (y & Hy & Hin).
  apply in_map_iff. exists y. split; [exact Hy|].
  now apply List.filter_In in Hin as [Hin _].
Qed.

Lemma NoDup_map_eq {A B} (f : A -> B) (l : list A) (x y : A) :
  List.NoDup (map f l) -> In x l -> In y l -> f x = f y -> x = y.
Proof.
  induction l as [|z l IH]; cbn; [intros _ []|]. intros H Hx Hy Hf.
  apply List.NoDup_cons_iff in H as [Hz Hl].
  destruct Hx as [->|Hx], Hy as [->|Hy]; auto.
  - exfalso. apply Hz. rewrite Hf. now apply in_map.
  - exfalso. apply Hz. rewrite <- Hf. now apply in_map.
Qed.

Lemma NoDup_snoc {A} (l : list A) (x : A) :
  List.NoDup l -> ~ In x l -> List.NoDup (l ++ [x]).
Proof.
  induction l as [|y l IH]; cbn; intros H Hx.
  - repeat constructor. intros [].
  - apply List.NoDup_cons_iff in H as [Hy Hl]. apply List.NoDup_cons_iff.
    split; [|apply IH; tauto].
    intros Hin. apply in_app_or in Hin as [Hin | [<-|[]]]; tauto.
Qed.

Lemma filter_all {A} (p : A -> bool) (l : list A) :
  (forall x, In x l -> p x = true) -> List.filter p l = l.
Proof.
  induction l as [|x l IH]; cbn; [auto|]. intros H.
  rewrite (H x) by now left. f_equal. apply IH. intros y Hy. apply H. now right.
Qed.

Lemma filter_comm {A} (p q : A -> bool) (l : list A) :
  List.filter p (List.filter q l) = List.filter q (List.filter p l).
Proof.
  induction l as [|x l IH]; cbn; [auto|].
  destruct (p x) eqn:Hp, (q x) eqn:Hq; cbn; rewrite ?Hp, ?Hq, IH; reflexivity.
Qed.

Section Store.

Variable w : World.
Hypothesis Hok : store_ok w.

Lemma kind_objects_in (k : ObjKind) (obj : DavObject) :
  In obj (kind_objects k w) <-> In obj (objects w) /\ kind obj = k.
Proof.
  unfold kind_objects. rewrite List.filter_In, bool_decide_eq_true. tauto.
Qed.

Lemma has_handle_in (obj : DavObject) :
  In obj (objects w) -> has_handle (handle obj) w = true.
Proof.
  intros H. unfold has_handle. apply existsb_exists. exists obj.
  split; [exact H | apply Nat.eqb_refl].
Qed.

Lemma kind_objects_saved (k k' : ObjKind) (ical : list Component) :
  kind_objects k' (saved k ical w)
  = kind_objects k' w ++ (if bool_decide (k = k') then [new_object k ical w] else []).
Proof. unfold kind_objects, saved. cbn. now rewrite List.filter_app. Qed.

Lemma kind_objects_deleted (k' : ObjKind) (obj : DavObject) :
  kind_objects k' (deleted obj w)
  = List.filter (fun o => negb (handle o =? handle obj)%nat) (kind_objects k' w).
Proof. unfold kind_objects, deleted. cbn. apply filter_comm. Qed.

Lemma kind_objects_deleted_other (k' : ObjKind) (obj : DavObject) :
  In obj (objects w) -> k' <> kind obj ->
  kind_objects k' (deleted obj w) = kind_objects k' w.
Proof.
  intros Hin Hk. rewrite kind_objects_deleted. apply filter_all.
  intros o Ho. apply kind_objects_in in Ho as [Ho Hko].
  apply negb_true_iff, Nat.eqb_neq. intros Hh.
  destruct Hok as (Hnd & _ & _).
  assert (o = obj) by now apply (NoDup_map_eq handle (objects w)).
  congruence.
Qed.

Lemma store_ok_saved (k : ObjKind) (c : Component) :
  store_ok (saved k (calendar_of c) w).
Proof.
  destruct Hok as (Hnd & Hlt & Hone). unfold store_ok, saved. cbn.
  repeat split.
  - rewrite map_app. cbn. apply NoDup_snoc; [exact Hnd|].
    intros Hh. apply in_map_iff in Hh as (o & Ho & Hin).
    apply Hlt in Hin. lia.
  - intros obj Hin. apply in_app_or in Hin as [Hin | [<-|[]]].
    + apply Hlt in Hin. lia.
    + cbn. lia.
  - intros obj Hin. apply in_app_or in Hin as [Hin | [<-|[]]]; [now apply Hone|].
    intros u1 u2 (ical1 & c1 & Hd1 & Hin1 & Hi1 & Hu1)
           (ical2 & c2 & Hd2 & Hin2 & Hi2 & Hu2).
    unfold new_object in *. cbn [kind data] in *.
    injection Hd1 as <-. injection Hd2 as <-.
    assert (Hvc : indexable (kind_name k) vcalendar = false) by now destruct k.
    destruct Hin1 as [<-|[<-|[]]], Hin2 as [<-|[<-|[]]]; congruence.
Qed.

Lemma store_ok_deleted (obj : DavObject) : store_ok (deleted obj w).
Proof.
  destruct Hok as (Hnd & Hlt & Hone). unfold store_ok, deleted. cbn.
  repeat split.
  - now apply NoDup_map_filter.
  - intros o Hin. apply List.filter_In in Hin as [Hin _]. now apply Hlt.
  - intros o Hin. apply List.filter_In in Hin as [Hin _]. now apply Hone.
Qed.

(** After a save, the index holds the new record under its UID and is
    as before at the other keys. *)
Lemma kind_index_saved (k : ObjKind) (c : Component) (u : string) :
  indexable (kind_name k) c = true ->
  kind_index k (saved k (calendar_of c) w) !! u
  = if String.eqb (str_get (UID c)) u
    then Some (entry_of (new_object k (calendar_of c) w) c)
    else kind_index k w !! u.
Proof.
  intros Hc. unfold kind_index. rewrite !index_objects_lookup.
  rewrite kind_objects_saved, bool_decide_eq_true_2 by reflexivity.
  rewrite objects_at_app. cbn. unfold object_at. cbn.
  assert (Hvc : indexable (kind_name k) vcalendar = false) by now destruct k.
  unfold component_at at 2. rewrite Hvc. cbn.
  unfold component_at. rewrite Hc. cbn. reflexivity.
Qed.

(** Deleting an object leaves the index as it is at the keys the object
    holds no record for. *)
Lemma kind_index_deleted (obj : DavObject) (u u' : string) :
  In obj (objects w) ->
  contributes (kind_name (kind obj)) u obj ->
  u' <> u ->
  kind_index (kind obj) (deleted obj w) !! u' = kind_index (kind obj) w !! u'.
Proof.
  intros Hin Hc Hne. unfold kind_index. rewrite !index_objects_lookup.
  rewrite kind_objects_deleted. apply objects_at_filter.
  intros o Ho Hp Hco. apply kind_objects_in in Ho as [Ho Hko].
  apply negb_false_iff, Nat.eqb_eq in Hp.
  destruct Hok as (Hnd & _ & Hone).
  assert (o = obj) by now apply (NoDup_map_eq handle (objects w)).
  subst o. apply Hne. now apply (Hone obj Hin).
Qed.

(** An entry of the index points to a listed object of that kind which
    holds the record. *)
Lemma kind_index_some (k : ObjKind) (u : string) (e : Existing) :
  kind_index k w !! u = Some e ->
  In (object e) (objects w) /\ kind (object e) = k /\
  contributes (kind_name k) u (object e) /\
  hash e = str_get (X_CANVAS_HASH (component e)).
Proof.
  unfold kind_index. rewrite index_objects_lookup. intros H.
  apply objects_at_some in H as [[=] | (Hin & Hc & He & _)].
  apply kind_objects_in in Hin as [Hin Hk]. repeat split; auto.
  now rewrite He at 1.
Qed.

End Store.

(** ** A run whose server calls all go through *)

(** One step brings the record of its item up to date and leaves the
    other keys of the index, and the objects of the other kind, alone. *)
Lemma sync_item_converges (fl : Flavour) (idx0 : gmap string Existing)
    (now : dt_value) (r : Report) (a : Item) (w : World) :
  has_keys a = true ->
  store_ok w ->
  faults w = [] ->
  idx0 !! item_key fl a = kind_index (f_kind fl) w !! item_key fl a ->
  exists r' w',
    sync_item fl idx0 now r a w = (Ok r', w') /\
    store_ok w' /\ faults w' = [] /\
    up_to_date fl (kind_index (f_kind fl) w') a /\
    (forall u', u' <> item_key fl a ->
                kind_index (f_kind fl) w' !! u' = kind_index (f_kind fl) w !! u') /\
    (forall k', k' <> f_kind fl -> kind_objects k' w' = kind_objects k' w).
Proof.
  intros Hk Hok Hf Hidx.
  destruct (sync_item_step fl idx0 now r a w Hk) as (o & r' & w' & Hrun & Hstep).
  exists r', w'. split; [exact Hrun|]. clear Hrun.
  destruct Hstep as [e title He Hh Ht
                    | e title c w' He Hh Ht Hc Hcalls
                    | e title c err w' He Hh Ht Hc Hcalls
                    | title c w' He Ht Hc Hsave
                    | title c err w' He Ht Hc Hsave].
  - (* unchanged *)
    split; [exact Hok|]. split; [exact Hf|]. split; [|split; reflexivity].
    exists e. split; [|exact Hh]. change (kind_index (f_kind fl) w !! item_key fl a = Some e).
    now rewrite <- Hidx.
  - (* replaced *)
    rewrite Hidx in He.
    destruct (kind_index_some w _ _ _ He) as (Hin & Hkind & Hcontr & _).
    rewrite replace_calls_go_through in Hcalls;
      [|apply plan_clear_nil; exact Hf | now apply has_handle_in].
    injection Hcalls as <-.
    set (ws := say (PrintUpdating title) w) in *.
    assert (Hoks : store_ok ws) by exact Hok.
    assert (Hokd : store_ok (deleted (object e) ws)) by now apply store_ok_deleted.
    destruct (f_update_record fl _ a now c Hc) as (Hi & Hu & Hx).
    split; [now apply store_ok_saved|].
    split; [cbn; now rewrite Hf|].
    split; [|split].
    + eexists. rewrite kind_index_saved by exact Hi.
      rewrite Hu, String.eqb_refl. split; [reflexivity | exact Hx].
    + intros u' Hne. rewrite kind_index_saved by exact Hi.
      rewrite Hu. destruct (String.eqb_spec (item_key fl a) u') as [Heq|_];
        [congruence|].
      rewrite <- Hkind in Hcontr |- *.
      now apply (kind_index_deleted ws Hoks (object e) (item_key fl a) u').
    + intros k' Hk'. rewrite kind_objects_saved.
      rewrite bool_decide_eq_false_2 by congruence. rewrite app_nil_r.
      apply (kind_objects_deleted_other ws Hoks); [exact Hin | congruence].
  - (* the replacing calls go through *)
    rewrite Hidx in He.
    destruct (kind_index_some w _ _ _ He) as (Hin & _).
    rewrite replace_calls_go_through in Hcalls;
      [|apply plan_clear_nil; exact Hf | now apply has_handle_in].
    discriminate.
  - (* created *)
    rewrite save_object_goes_through in Hsave by now rewrite Hf.
    injection Hsave as <-.
    destruct (f_create_record fl a now c Hc) as (Hi & Hu & Hx).
    split; [now apply (store_ok_saved w Hok)|].
    split; [cbn; now rewrite Hf|].
    split; [|split].
    + exists (entry_of (new_object (f_kind fl) (calendar_of c) w) c).
      split; [|exact Hx].
      change (kind_index (f_kind fl) (saved (f_kind fl) (calendar_of c) w)
              !! item_key fl a
              = Some (entry_of (new_object (f_kind fl) (calendar_of c) w) c)).
      rewrite kind_index_saved by exact Hi.
      now rewrite Hu, String.eqb_refl.
    + intros u' Hne.
      change (kind_index (f_kind fl) (saved (f_kind fl) (calendar_of c) w) !! u'
              = kind_index (f_kind fl) w !! u').
      rewrite kind_index_saved by exact Hi.
      rewrite Hu. destruct (String.eqb_spec (item_key fl a) u') as [Heq|_];
        [congruence | reflexivity].
    + intros k' Hk'.
      change (kind_objects k' (saved (f_kind fl) (calendar_of c) w)
              = kind_objects k' w).
      rewrite kind_objects_saved.
      rewrite bool_decide_eq_false_2 by congruence. apply app_nil_r.
  - (* the save goes through *)
    rewrite save_object_goes_through in Hsave by now rewrite Hf.
    discriminate.
Qed.

Lemma loop_converges (fl : Flavour) (idx0 : gmap string Existing)
    (now : dt_value) (items : list Item) (r : Report) (w : World) :
  Forall (fun item => has_keys item = true) items ->
  List.NoDup (map (item_key fl) items) ->
  store_ok w ->
  faults w = [] ->
  (forall a, In a items ->
             idx0 !! item_key fl a = kind_index (f_kind fl) w !! item_key fl a) ->
  exists r' w',
    for_each (sync_item fl idx0 now) items r w = (Ok r', w') /\
    store_ok w' /\ faults w' = [] /\
    (forall a, In a items -> up_to_date fl (kind_index (f_kind fl) w') a) /\
    (forall u', ~ In u' (map (item_key fl) items) ->
                kind_index (f_kind fl) w' !! u' = kind_index (f_kind fl) w !! u') /\
    (forall k', k' <> f_kind fl -> kind_objects k' w' = kind_objects k' w).
Proof.
  intros Hkeys. revert r w.
  induction Hkeys as [|a items Hk _ IH]; intros r w Hnd Hok Hf Hidx.
  - exists r, w. split; [reflexivity|]. split; [exact Hok|]. split; [exact Hf|].
    split; [intros a []|]. split; intros; reflexivity.
  - cbn [map] in Hnd. apply List.NoDup_cons_iff in Hnd as [Hfresh Hnd].
    destruct (sync_item_converges fl idx0 now r a w Hk Hok Hf)
      as (r1 & w1 & Hrun & Hok1 & Hf1 & Hup & Hframe & Hkinds).
    { apply Hidx. now left. }
    destruct (IH r1 w1 Hnd Hok1 Hf1) as (r2 & w2 & Hrest & Hok2 & Hf2 & Hups & Hframes & Hkinds2).
    { intros b Hb. rewrite Hframe; [apply Hidx; now right|].
      intros Heq. apply Hfresh. rewrite <- Heq. now apply in_map. }
    exists r2, w2. split; [|split; [exact Hok2 | split; [exact Hf2 | split; [|split]]]].
    + cbn [for_each]. unfold bindM. now rewrite Hrun.
    + intros b [<-|Hb]; [|now apply Hups].
      destruct Hup as (e & He & Hh). exists e. split; [|exact Hh].
      now rewrite Hframes.
    + intros u' Hu'. cbn [map] in Hu'. rewrite Hframes, Hframe; auto.
      * intros ->. apply Hu'. now left.
      * intros Hin. apply Hu'. now right.
    + intros k' Hk'. now rewrite Hkinds2, Hkinds.
Qed.

Lemma get_existing_items_ok (w : World) :
  plan_clear 2 w ->
  get_existing_items w
  = (Ok (kind_index TodoObject w, kind_index EventObject w),
     with_faults (tl (tl (faults w))) w).
Proof.
  intros H. pose proof (H 0%nat ltac:(lia)) as H0.
  pose proof (H 1%nat ltac:(lia)) as H1.
  destruct w as [objs next plan jr out]. cbn in H0, H1.
  unfold get_existing_items, get_existing, try_except, bindM, list_objects,
    next_fault, ret, kind_index, kind_objects, with_faults.
  destruct plan as [|b0 [|b1 plan]]; cbn in *; subst; reflexivity.
Qed.

Lemma NoDup_item_keys (fl : Flavour) (items : list Item) :
  Forall (fun item => has_keys item = true) items ->
  List.NoDup (map uid items) ->
  List.NoDup (map (item_key fl) items).
Proof.
  induction 1 as [|a items Ha Hall IH]; cbn; intros Hnd; [constructor|].
  apply List.NoDup_cons_iff in Hnd as [Hfresh Hnd].
  apply List.NoDup_cons_iff. split; [|auto].
  intros Hin. apply in_map_iff in Hin as (b & Hkey & Hb).
  apply Hfresh. apply in_map_iff. exists b. split; [|exact Hb].
  rewrite List.Forall_forall in Hall.
  apply (item_key_inj fl); [now apply Hall | exact Ha | exact Hkey].
Qed.

(** ** Items that are up to date *)

Lemma sync_item_unchanged (fl : Flavour) (idx : gmap string Existing)
    (now : dt_value) (r : Report) (item : Item) (w : World)
    (u title : string) :
  uid item = Some u ->
  summary item = Some title ->
  up_to_date fl idx item ->
  sync_item fl idx now r item w
  = (Ok (f_unchanged fl r), say (PrintUnchanged (Text.take 40 title)) w).
Proof.
  intros Hu Ht (e & He & Hh). unfold item_key in He. rewrite Hu in He.
  cbn in He. unfold sync_item, bindM, lift, title40.
  rewrite Hu, Ht. cbn. rewrite He, Hh, String.eqb_refl. reflexivity.
Qed.

Lemma unchanged_by_succ (fl : Flavour) (n : nat) (r : Report) :
  unchanged_by fl n (f_unchanged fl r) = unchanged_by fl (S n) r.
Proof. destruct fl; cbn; f_equal; lia. Qed.

Lemma loop_unchanged (fl : Flavour) (idx : gmap string Existing)
    (now : dt_value) (items : list Item) (r : Report) (w : World) :
  Forall (fun item => has_keys item = true) items ->
  (forall item, In item items -> up_to_date fl idx item) ->
  for_each (sync_item fl idx now) items r w
  = (Ok (unchanged_by fl (length items) r), told (unchanged_lines items) w).
Proof.
  intros Hkeys. revert r w.
  induction Hkeys as [|a items Hk _ IH]; intros r w Hup.
  - cbn. unfold ret, told. destruct w, r, fl; cbn;
      rewrite app_nil_r, Nat.add_0_r; reflexivity.
  - apply has_keys_inv in Hk as (u & title & _ & _ & Hu & Ht & _).
    cbn [for_each]. unfold bindM.
    rewrite (sync_item_unchanged fl idx now r a w u title Hu Ht)
      by (apply Hup; now left).
    rewrite IH by (intros b Hb; apply Hup; now right).
    cbn [length]. rewrite unchanged_by_succ. f_equal.
    unfold told, say, unchanged_lines. cbn. rewrite Ht. cbn.
    now rewrite <- app_assoc.
Qed.

(** The first of two runs: when its server calls all go through, every
    item has an up-to-date record in the index of the next run. *)
Lemma first_run_converges (now : dt_value) (assignments no_class_events : list Item)
    (w0 : World) :
  store_ok w0 ->
  faults w0 = [] ->
  Forall (fun item => has_keys item = true) assignments ->
  Forall (fun item => has_keys item = true) no_class_events ->
  List.NoDup (map uid assignments) ->
  List.NoDup (map uid no_class_events) ->
  exists r1 w1,
    sync_to_caldav now assignments no_class_events w0 = (Ok r1, w1) /\
    (forall a, In a assignments ->
               up_to_date task_flavour (kind_index TodoObject w1) a) /\
    (forall a, In a no_class_events ->
               up_to_date event_flavour (kind_index EventObject w1) a).
Proof.
  intros Hok Hf HkA HkN HndA HndN.
  unfold sync_to_caldav, bindM.
  rewrite get_existing_items_ok by now apply plan_clear_nil.
  rewrite Hf. cbn [tl fst snd]. set (wa := with_faults [] w0).
  assert (Hoka : store_ok wa) by exact Hok.
  destruct (loop_converges task_flavour (kind_index TodoObject w0) now
              assignments empty_report wa HkA
              (NoDup_item_keys task_flavour _ HkA HndA) Hoka eq_refl)
    as (rm & wm & Hrun1 & Hokm & Hfm & HupA & _ & Hkinds1).
  { reflexivity. }
  assert (HE : kind_index EventObject wm = kind_index EventObject w0).
  { unfold kind_index. now rewrite (Hkinds1 EventObject). }
  destruct (loop_converges event_flavour (kind_index EventObject w0) now
              no_class_events rm wm HkN
              (NoDup_item_keys event_flavour _ HkN HndN) Hokm Hfm)
    as (r1 & w1 & Hrun2 & Hok1 & Hf1 & HupN & _ & Hkinds2).
  { intros a _. cbn [f_kind]. now rewrite HE. }
  exists r1, w1. split; [|split].
  - unfold sync_loops, bindM. now rewrite Hrun1.
  - intros a Ha. unfold kind_index. rewrite (Hkinds2 TodoObject) by discriminate.
    now apply HupA.
  - exact HupN.
Qed.

(** C1.  An item whose record in the index carries the fingerprint the
    item has now is printed as unchanged and counted as such, and the step
    issues no server call: objects, journal and fault plan are as before.
    Hence a second run leaves the server alone: from a calendar with one
    record per object, for items with distinct source UIDs, after a first
    run whose server calls all went through, a second run over the same
    items whose two listing calls go through writes nothing, and reports
    every item as unchanged. *)
Theorem reconciliation_idempotent :
  (forall fl idx now r item w u title,
      uid item = Some u ->
      summary item = Some title ->
      up_to_date fl idx item ->
      exists w',
        sync_item fl idx now r item w = (Ok (f_unchanged fl r), w') /\
        objects w' = objects w /\ journal w' = journal w /\
        faults w' = faults w /\
        console w' = console w ++ [PrintUnchanged (Text.take 40 title)]) /\
  (forall w0 now1 now2 assignments no_class_events plan2,
      store_ok w0 ->
      faults w0 = [] ->
      Forall (fun item => has_keys item = true) assignments ->
      Forall (fun item => has_keys item = true) no_class_events ->
      List.NoDup (map uid assignments) ->
      List.NoDup (map uid no_class_events) ->
      (forall i, (i < 2)%nat -> nth i plan2 false = false) ->
      exists r1 w1 w2,
        sync_to_caldav now1 assignments no_class_events w0 = (Ok r1, w1) /\
        sync_to_caldav now2 assignments no_class_events (with_faults plan2 w1)
        = (Ok (all_unchanged assignments no_class_events), w2) /\
        objects w2 = objects w1 /\
        journal w2 = journal w1 /\
        console w2 = console w1 ++ unchanged_lines assignments
                     ++ unchanged_lines no_class_events).
Proof.
  split.
  - intros fl idx now r item w u title Hu Ht Hup.
    exists (say (PrintUnchanged (Text.take 40 title)) w).
    split; [exact (sync_item_unchanged fl idx now r item w u title Hu Ht Hup)|].
    repeat split.
  - intros w0 now1 now2 assignments no_class_events plan2
           Hok Hf HkA HkN HndA HndN Hplan.
    destruct (first_run_converges now1 assignments no_class_events w0
                Hok Hf HkA HkN HndA HndN) as (r1 & w1 & Hrun1 & HupA & HupN).
    exists r1, w1. eexists. split; [exact Hrun1|].
    unfold sync_to_caldav at 1, bindM.
    rewrite get_existing_items_ok by exact Hplan.
    cbn [fst snd]. unfold sync_loops, bindM.
    rewrite loop_unchanged; [|exact HkA | exact HupA].
    rewrite loop_unchanged; [|exact HkN | exact HupN].
    split; [reflexivity|]. cbn. repeat split. now rewrite <- app_assoc.
Qed.

Lemma reconciliation_idempotent_witness :
  store_ok empty_world /\
  exists r1 w1 w2,
    sync_to_caldav noon [essay_item; lab_item] [holiday_item] empty_world
    = (Ok r1, w1) /\
    tasks_added r1 = 2%nat /\ events_added r1 = 1%nat /\
    length (journal w1) = 3%nat /\
    sync_to_caldav late_february [essay_item; lab_item] [holiday_item]
                   (with_faults [false; false; true] w1)
    = (Ok (all_unchanged [essay_item; lab_item] [holiday_item]), w2) /\
    journal w2 = journal w1 /\ objects w2 = objects w1.
Proof.
  assert (Hok : store_ok empty_world).
  { split; [constructor | split; intros obj []]. }
  split; [exact Hok|].
  assert (HkA : Forall (fun item => has_keys item = true) [essay_item; lab_item]).
  { repeat constructor. }
  assert (HkN : Forall (fun item => has_keys item = true) [holiday_item]).
  { repeat constructor. }
  assert (HndA : List.NoDup (map uid [essay_item; lab_item])).
  { repeat constructor; cbn; intuition discriminate. }
  assert (HndN : List.NoDup (map uid [holiday_item])).
  { repeat constructor; cbn; intuition discriminate. }
  assert (Hplan : forall i, (i < 2)%nat -> nth i [false; false; true] false = false).
  { intros [|[|i]] Hi; [reflexivity | reflexivity | lia]. }
  destruct (proj2 reconciliation_idempotent empty_world noon late_february
              [essay_item; lab_item] [holiday_item] [false; false; true]
              Hok eq_refl HkA HkN HndA HndN Hplan)
    as (r1 & w1 & w2 & H1 & H2 & Hobjs & Hjr & _).
  exists r1, w1, w2. split; [exact H1|].
  vm_compute in H1. injection H1 as <- <-.
  repeat split; assumption.
Defined.

(** C10 (as amended).  The encoding is not injective: title, description,
    URL and location are joined with a "|" that is not escaped, so a "|"
    can move from one field to its neighbour.  Whatever the other fields,
    the item with title "a|b" and description "c" and the item with title
    "a" and description "b|c" differ and have the same digest; when the
    index holds the fingerprint of the first, the second is reported as
    unchanged and nothing is written. *)
Theorem fingerprint_not_injective (rest : Item) :
  titled "a|b" "c" rest <> titled "a" "b|c" rest /\
  compute_item_hash (titled "a|b" "c" rest)
  = compute_item_hash (titled "a" "b|c" rest) /\
  (forall fl idx now r w u e,
      uid rest = Some u ->
      idx !! item_key fl rest = Some e ->
      hash e = compute_item_hash (titled "a|b" "c" rest) ->
      sync_item fl idx now r (titled "a" "b|c" rest) w
      = (Ok (f_unchanged fl r), say (PrintUnchanged "a") w)).
Proof.
  assert (Heq : compute_item_hash (titled "a|b" "c" rest)
                = compute_item_hash (titled "a" "b|c" rest)).
  { apply hash_content_eq_digest, separator_moves_between_fields. }
  split; [intros H; inversion H|]. split; [exact Heq|].
  intros fl idx now r w u e Hu He Hh.
  apply (sync_item_unchanged fl idx now r (titled "a" "b|c" rest) w u "a");
    [exact Hu | reflexivity|].
  exists e. split; [exact He | now rewrite <- Heq].
Qed.

Lemma fingerprint_not_injective_witness :
  exists e : Existing,
    hash e = compute_item_hash (titled "a|b" "c" blank_item) /\
    sync_item task_flavour {[ item_key task_flavour blank_item := e ]} noon
              empty_report (titled "a" "b|c" blank_item) empty_world
    = (Ok (f_unchanged task_flavour empty_report),
       say (PrintUnchanged "a") empty_world).
Proof.
  set (e := mkExisting (compute_item_hash (titled "a|b" "c" blank_item))
                       (mkDavObject 0 TodoObject None) vcalendar).
  exists e. split; [reflexivity|].
  apply (proj2 (proj2 (fingerprint_not_injective blank_item))
           task_flavour _ noon empty_report empty_world "u1" e).
  - reflexivity.
  - apply lookup_singleton_eq.
  - reflexivity.
Defined.

(** ** The cutoff date *)

Lemma digit_cases (P : nat -> Prop) :
  P 0%nat -> P 1%nat -> P 2%nat -> P 3%nat -> P 4%nat -> P 5%nat -> P 6%nat ->
  P 7%nat -> P 8%nat -> P 9%nat ->
  forall k, (k < 10)%nat -> P k.
Proof.
  intros H0 H1 H2 H3 H4 H5 H6 H7 H8 H9 k Hk.
  do 10 (destruct k as [|k]; [assumption|]). lia.
Qed.

Lemma fmt_digit_facts (n : nat) :
  Text.is_digit (Fmt.digit n) = true /\
  Text.is_space (Fmt.digit n) = false /\
  Strptime.digit_val (Fmt.digit n) = (n mod 10)%nat.
Proof.
  unfold Fmt.digit.
  assert (H : (n mod 10 < 10)%nat) by (apply Nat.mod_upper_bound; lia).
  revert H. generalize (n mod 10)%nat.
  apply digit_cases; repeat split.
Qed.

Lemma dir_Y_d4 (y : nat) (rest : string) :
  (y < 100 * 100)%nat ->
  Strptime.dir_Y (Fmt.d4 y +:+ rest) = [(y, rest)].
Proof.
  intros Hy.
  change (Fmt.d4 y +:+ rest)
    with (String (Fmt.digit (y / 100 / 10))
            (String (Fmt.digit (y / 100))
               (String (Fmt.digit (y mod 100 / 10))
                  (String (Fmt.digit (y mod 100)) rest)))).
  unfold Strptime.dir_Y.
  destruct (fmt_digit_facts (y / 100 / 10)) as (-> & _ & ->).
  destruct (fmt_digit_facts (y / 100)) as (-> & _ & ->).
  destruct (fmt_digit_facts (y mod 100 / 10)) as (-> & _ & ->).
  destruct (fmt_digit_facts (y mod 100)) as (-> & _ & ->).
  cbn [andb]. do 2 f_equal.
  rewrite (Nat.div_mod_eq y 100) at 5.
  assert (Hq : (y / 100 < 100)%nat) by (apply Nat.Div0.div_lt_upper_bound; lia).
  assert (Hr : (y mod 100 < 100)%nat) by (apply Nat.mod_upper_bound; lia).
  rewrite (Nat.mod_small (y / 100 / 10) 10)
    by (apply Nat.Div0.div_lt_upper_bound; lia).
  rewrite (Nat.mod_small (y mod 100 / 10) 10)
    by (apply Nat.Div0.div_lt_upper_bound; lia).
  pose proof (Nat.div_mod_eq (y / 100) 10).
  pose proof (Nat.div_mod_eq (y mod 100) 10).
  pose proof (Nat.Div0.mod_mod (y mod 100) 10).
  lia.
Qed.

Lemma rstrip_cons (c : ascii) (r : string) :
  Text.rstrip r = r -> r <> "" -> Text.rstrip (String c r) = String c r.
Proof.
  intros Hr Hne. cbn [Text.rstrip]. rewrite Hr. destruct r; [contradiction | reflexivity].
Qed.

Lemma month_day_tail (m d : nat) :
  (1 <= m <= 12)%nat -> (1 <= d <= 31)%nat ->
  let tail := "-" +:+ Fmt.d2 m +:+ "-" +:+ Fmt.d2 d in
  head (Strptime.match_md tail) = Some (m, d, "") /\
  Text.rstrip tail = tail /\ tail <> "".
Proof.
  intros Hm Hd.
  assert (Hall : forallb (fun m => forallb (fun d =>
            let tail := "-" +:+ Fmt.d2 m +:+ "-" +:+ Fmt.d2 d in
            bool_decide (head (Strptime.match_md tail) = Some (m, d, ""))
            && bool_decide (Text.rstrip tail = tail)
            && negb (bool_decide (tail = "")))
          (seq 1 31)) (seq 1 12) = true) by (vm_compute; reflexivity).
  rewrite forallb_forall in Hall.
  specialize (Hall m ltac:(apply in_seq; lia)).
  rewrite forallb_forall in Hall.
  specialize (Hall d ltac:(apply in_seq; lia)). cbn zeta in Hall.
  apply andb_true_iff in Hall as [Hall H3].
  apply andb_true_iff in Hall as [H1 H2].
  apply bool_decide_eq_true in H1, H2.
  apply negb_true_iff, bool_decide_eq_false in H3. auto.
Qed.

Lemma valid_date_inv (d : date) :
  Strptime.valid_date d = true ->
  (1 <= year d < 100 * 100)%nat /\ (1 <= month d <= 12)%nat /\
  (1 <= day d <= 31)%nat.
Proof.
  unfold Strptime.valid_date. rewrite !andb_true_iff.
  rewrite !Nat.leb_le, Nat.ltb_lt. intros (((((H1 & H2) & H3) & H4) & H5) & H6).
  repeat split; try lia.
  unfold Strptime.days_in_month in H6.
  destruct (month d) as [|[|[|[|[|[|[|[|[|[|[|[|[|m]]]]]]]]]]]]];
    try destruct (Strptime.is_leap _); lia.
Qed.

(** X1.  The cutoff date: [parse_end_date] reads back what [str] prints
    for every date that [datetime.date] accepts, without a warning; and a
    date it returns is always such a date. *)
Theorem parse_end_date_round_trip :
  (forall d, Strptime.valid_date d = true ->
             parse_end_date (Fmt.str_date d) = (Some d, [])) /\
  (forall s d, fst (parse_end_date s) = Some d -> Strptime.valid_date d = true).
Proof.
  split.
  - intros [y m dd] Hv.
    destruct (valid_date_inv _ Hv) as (Hy & Hm & Hd). cbn [year month day] in *.
    destruct (month_day_tail m dd Hm Hd) as (Hmd & Hrs & Hne).
    set (tail := "-" +:+ Fmt.d2 m +:+ "-" +:+ Fmt.d2 dd) in *.
    assert (Hstr : Fmt.str_date (mkDate y m dd) = Fmt.d4 y +:+ tail).
    { reflexivity. }
    assert (Hshape : Fmt.d4 y +:+ tail
                     = String (Fmt.digit (y / 100 / 10))
                         (String (Fmt.digit (y / 100))
                            (String (Fmt.digit (y mod 100 / 10))
                               (String (Fmt.digit (y mod 100)) tail)))).
    { reflexivity. }
    assert (Hstrip : Text.strip (Fmt.d4 y +:+ tail) = Fmt.d4 y +:+ tail).
    { rewrite Hshape. unfold Text.strip. cbn [Text.lstrip].
      destruct (fmt_digit_facts (y / 100 / 10)) as (_ & -> & _).
      rewrite <- Hshape at 1. rewrite Hshape.
      do 3 (apply rstrip_cons; [|discriminate]).
      apply rstrip_cons; [exact Hrs | exact Hne]. }
    assert (Htr : Text.truthy (Fmt.d4 y +:+ tail) = true)
      by (rewrite Hshape; reflexivity).
    assert (Hnb : String.eqb (Fmt.d4 y +:+ tail) "" = false)
      by (rewrite Hshape; reflexivity).
    unfold parse_end_date. rewrite Hstr, Hstrip, Htr, Hnb. cbn [negb orb].
    unfold Strptime.strptime_date, Strptime.regex_match.
    rewrite dir_Y_d4 by lia. cbn [mbind list_bind].
    destruct (Strptime.match_md tail) as [|[[m0 d0] s0] rest];
      [discriminate|].
    cbn in Hmd. injection Hmd as -> -> ->. cbn [mbind list_bind app head].
    cbn [head]. now rewrite Hv.
  - intros s d. unfold parse_end_date.
    destruct (negb _ || _); [discriminate|].
    unfold Strptime.strptime_date.
    destruct (Strptime.regex_match _) as [[[[y m] dd] [|c r]]|]; try discriminate.
    destruct (Strptime.valid_date _) eqn:Hv; [|discriminate].
    cbn. now intros [= <-].
Qed.

Lemma parse_end_date_round_trip_witness :
  Strptime.valid_date (mkDate 2024 2 29) = true /\
  Fmt.str_date (mkDate 2024 2 29) = "2024-02-29" /\
  parse_end_date "2024-02-29" = (Some (mkDate 2024 2 29), []).
Proof.
  split; [reflexivity | split; [reflexivity|]].
  exact (proj1 parse_end_date_round_trip (mkDate 2024 2 29) eq_refl).
Defined.

(** ** The classifier, as a whole *)

Ltac decide_categories :=
  repeat match goal with
         | |- context [bool_decide (?a = ?b)] =>
             first [ rewrite (bool_decide_eq_true_2 (a = b)) by reflexivity
                   | rewrite (bool_decide_eq_false_2 (a = b)) by discriminate ]
         end.

Lemma classify_step_add (config : SyncConfig) (g : Groups) (c : Component) :
  (forall x, In x (assignments g) -> type_tag x <> None) ->
  classify_step config g c = add_to_group config g (item_info_of c).
Proof.
  intros Hg. unfold classify_step, add_to_group, tagged.
  destruct (categorize config (item_info_of c)) eqn:Hcat; try reflexivity.
  - assert (Hin : item_in (item_info_of c)
                          (assignments g ++ [item_info_of c]) = true).
    { apply item_in_spec, in_or_app. right. now left. }
    now rewrite Hin.
  - rewrite item_in_tagged_list; [reflexivity | apply item_info_untagged | exact Hg].
  - rewrite item_in_tagged_list; [reflexivity | apply item_info_untagged | exact Hg].
Qed.

Lemma add_to_group_tagged (config : SyncConfig) (g : Groups) (item : Item) :
  (forall x, In x (assignments g) -> type_tag x <> None) ->
  forall x, In x (assignments (add_to_group config g item)) -> type_tag x <> None.
Proof.
  intros Hg x. unfold add_to_group.
  destruct (categorize config item); cbn [assignments]; auto.
  intros Hx. apply in_app_or in Hx as [Hx | [<- | []]]; [auto | discriminate].
Qed.

Lemma groups_by_category_snoc (config : SyncConfig) (items : list Item)
    (item : Item) :
  groups_by_category config (items ++ [item])
  = add_to_group config (groups_by_category config items) item.
Proof.
  unfold groups_by_category, add_to_group, in_category.
  rewrite !List.filter_app, map_app. cbn [List.filter].
  destruct (categorize config item); decide_categories;
    cbn [map]; rewrite ?app_nil_r; reflexivity.
Qed.

Lemma groups_by_category_tagged (config : SyncConfig) (items : list Item) :
  forall x, In x (assignments (groups_by_category config items)) ->
            type_tag x <> None.
Proof.
  intros x Hx. cbn in Hx. apply in_map_iff in Hx as (y & <- & _). discriminate.
Qed.

Lemma classify_loop_groups (config : SyncConfig) (feed : list Component)
    (done : list Component) :
  fold_left (classify_body config) feed
            (groups_by_category config (feed_items done))
  = groups_by_category config (feed_items (done ++ feed)).
Proof.
  revert done. induction feed as [|c feed IH]; intros done.
  - now rewrite app_nil_r.
  - cbn [fold_left].
    replace (done ++ c :: feed) with ((done ++ [c]) ++ feed)
      by now rewrite <- app_assoc.
    rewrite <- IH. f_equal. unfold classify_body, feed_items.
    rewrite List.filter_app. cbn [List.filter].
    destruct (String.eqb (name c) "VEVENT").
    + rewrite map_app. cbn [map].
      fold (feed_items done).
      rewrite groups_by_category_snoc.
      apply classify_step_add, groups_by_category_tagged.
    + now rewrite app_nil_r.
Qed.

Lemma classify_feed_groups (config : SyncConfig) (feed : list Component) :
  classify_feed config feed = groups_by_category config (feed_items feed).
Proof. unfold classify_feed. exact (classify_loop_groups config feed []). Qed.

(** X2.  The loop of [fetch_canvas_items] sorts the VEVENTs of the feed by
    category and keeps the feed order within each list: the assignments
    are the items categorized Assignment, each with the type tag of its
    title, and the other three lists are the items of their category,
    unchanged.  So every VEVENT lands in exactly one list. *)
Theorem classify_feed_by_category (config : SyncConfig) (feed : list Component) :
  classify_feed config feed = groups_by_category config (feed_items feed) /\
  length (assignments (classify_feed config feed))
  + length (no_class_events (classify_feed config feed))
  + length (skipped (classify_feed config feed))
  + length (filtered_out (classify_feed config feed))
  = length (feed_items feed).
Proof.
  assert (H := classify_feed_groups config feed).
  split; [exact H|]. rewrite H. clear H.
  unfold groups_by_category, in_category. cbn [assignments no_class_events skipped filtered_out].
  rewrite length_map.
  induction (feed_items feed) as [|i items IH]; [reflexivity|].
  cbn [List.filter].
  destruct (categorize config i); decide_categories; cbn [length]; lia.
Qed.






Lemma tag_loop_in_table (table : list (string * list string)) (s tag : string) :
  tag_loop table s = Some tag -> In tag (map fst table).
Proof.
  induction table as [|[t ks] table IH]; cbn; [discriminate|].
  destruct (keyword_loop ks s); [intros [= <-]; now left | auto].
Qed.

Lemma get_assignment_type_tag_known (s : string) :
  In (get_assignment_type_tag s) TYPE_TAGS.
Proof.
  unfold get_assignment_type_tag, type_tag_in, TYPE_TAGS.
  destruct (tag_loop _ _) as [tag|] eqn:E; apply in_or_app.
  - left. now apply tag_loop_in_table in E.
  - right. now left.
Qed.

Lemma item_info_summary (c : Component) :
  summary (item_info_of c) = Some (str_get (SUMMARY c)).
Proof.
  unfold item_info_of.
  destruct (extract_course_id_from_summary _) as [cid|]; [|reflexivity].
  destruct (Text.truthy cid); reflexivity.
Qed.

(** X4.  Exactly the assignments carry a type tag: each assignment has the
    tag [get_assignment_type_tag] gives its title, which is one of the
    eight tags of the table or the default; the no-class, skipped and
    filtered-out items have none. *)
Theorem type_tags_of_groups (config : SyncConfig) (feed : list Component) :
  (forall x, In x (assignments (classify_feed config feed)) ->
             type_tag x = Some (get_assignment_type_tag (str_get (summary x))) /\
             In (get_assignment_type_tag (str_get (summary x))) TYPE_TAGS /\
             categorize config (with_type_tag None x) = Assignment) /\
  (forall x, In x (no_class_events (classify_feed config feed)
                   ++ skipped (classify_feed config feed)
                   ++ filtered_out (classify_feed config feed)) ->
             type_tag x = None).
Proof.
  rewrite classify_feed_groups.
  cbn [assignments no_class_events skipped filtered_out groups_by_category].
  assert (Hitems : forall x, In x (feed_items feed) -> type_tag x = None).
  { intros x Hx. apply in_map_iff in Hx as (c & <- & _). apply item_info_untagged. }
  split.
  - intros x Hx. apply in_map_iff in Hx as (y & <- & Hy).
    apply List.filter_In in Hy as [Hy Hcat].
    apply bool_decide_eq_true in Hcat.
    split; [reflexivity|]. split; [apply get_assignment_type_tag_known|].
    unfold tagged, with_type_tag, set_type_tag; cbn.
    specialize (Hitems y Hy). destruct y; cbn in *. now subst.
  - intros x Hx.
    repeat (apply in_app_or in Hx as [Hx|Hx]);
      apply List.filter_In in Hx as [Hx _]; now apply Hitems.
Qed.


Lemma type_tags_of_groups_witness :
  let lab := feed_event "event-assignment-4712" "[IT-3150 Windows Servers]: Lab 3" None in
  In (tagged (item_info_of lab))
     (assignments (classify_feed default_config [lab])) /\
  type_tag (tagged (item_info_of lab)) = Some "Lab".
Proof.
  intros lab.
  assert (Hin : In (tagged (item_info_of lab))
                   (assignments (classify_feed default_config [lab]))).
  { left. vm_compute. reflexivity. }
  split; [exact Hin|].
  destruct (proj1 (type_tags_of_groups default_config [lab]) _ Hin) as (H & _).
  rewrite H. vm_compute. reflexivity.
Defined.

(** ** Keyword matching *)

Lemma prefix_spec (p s : string) :
  String.prefix p s = true <-> exists b, s = p +:+ b.
Proof.
  revert s. induction p as [|c p IH]; intros s.
  - split; [intros _; now exists s | intros _; now destruct s].
  - destruct s as [|d s]; cbn.
    + split; [discriminate | intros (b & [=])].
    + destruct (ascii_dec c d) as [->|Hne].
      * rewrite IH. split; intros (b & H); exists b; [now rewrite H | now injection H].
      * split; [discriminate | intros (b & [= H _]); congruence].
Qed.

Lemma contains_spec (needle hay : string) :
  Text.contains needle hay = true <-> exists a b, hay = a +:+ needle +:+ b.
Proof.
  induction hay as [|c hay IH]; cbn [Text.contains]; rewrite orb_true_iff.
  - rewrite prefix_spec. split.
    + intros [(b & H) | [=]]. now exists "", b.
    + intros (a & b & H). left. exists b.
      destruct a; [exact H | discriminate].
  - rewrite prefix_spec, IH. split.
    + intros [(b & H) | (a & b & H)]; [now exists "", b|].
      exists (String c a), b. now rewrite H.
    + intros ([|d a] & b & H); [left; now exists b|].
      right. injection H as _ H. now exists a, b.
Qed.

(** X5.  [matches_keywords] is a case-insensitive substring test: it holds
    exactly when the lower-cased text contains the lower-cased form of one
    of the keywords; the keyword need not be a whole word.  With no
    keywords it is false, and the empty keyword matches every text. *)
Theorem matches_keywords_substring (text : string) (keywords : list string) :
  (matches_keywords text keywords = true <->
   exists keyword a b,
     In keyword keywords /\
     Text.lower text = a +:+ Text.lower keyword +:+ b) /\
  (In "" keywords -> matches_keywords text keywords = true).
Proof.
  assert (H : matches_keywords text keywords = true <->
              exists keyword a b,
                In keyword keywords /\
                Text.lower text = a +:+ Text.lower keyword +:+ b).
  { unfold matches_keywords. destruct keywords as [|k0 ks].
    - split; [discriminate | intros (k & _ & _ & [] & _)].
    - rewrite existsb_exists. split.
      + intros (k & Hin & Hc). apply contains_spec in Hc as (a & b & Hc).
        now exists k, a, b.
      + intros (k & a & b & Hin & Hc). exists k. split; [exact Hin|].
        apply contains_spec. now exists a, b. }
  split; [exact H|].
  intros Hin. apply H. exists "", "", (Text.lower text). now split.
Qed.

Lemma matches_keywords_substring_witness :
  In "" ["holiday"; ""] /\ matches_keywords "Lab 3" ["holiday"; ""] = true.
Proof.
  assert (H : In "" ["holiday"; ""]) by (right; now left).
  split; [exact H|].
  exact (proj2 (matches_keywords_substring "Lab 3" ["holiday"; ""]) H).
Defined.

(** ** Identifiers and fingerprints *)

(** X6.  Destination UIDs are collision-free: within a kind, different
    source UIDs give different destination UIDs, and the UID of a task is
    never the UID of an event. *)
Theorem destination_uids_never_collide :
  (forall u1 u2 prefix, create_uid u1 prefix = create_uid u2 prefix -> u1 = u2) /\
  (forall u1 u2, create_uid u1 "task" <> create_uid u2 "event") /\
  (forall a b, item_key task_flavour a <> item_key event_flavour b).
Proof.
  split; [exact create_uid_inj|].
  split; [intros u1 u2; discriminate | intros a b; discriminate].
Qed.

Lemma destination_uids_never_collide_witness :
  create_uid "4711" "task" = "canvas-task-4711" /\
  ("4711" = "4711").
Proof.
  split; [reflexivity|].
  exact (proj1 destination_uids_never_collide "4711" "4711" "task" eq_refl).
Defined.

Lemma hex_length (bs : list N) : String.length (MD5.hex bs) = (2 * length bs)%nat.
Proof. induction bs as [|b bs IH]; cbn [MD5.hex String.length length]; lia. Qed.

Lemma le_bytes_length (n : nat) (x : N) : length (MD5.le_bytes n x) = n.
Proof. revert x. induction n as [|n IH]; intros x; cbn; [reflexivity | now rewrite IH]. Qed.

Lemma le_bytes_small (n : nat) (x : N) :
  Forall (fun b => (b < 256)%N) (MD5.le_bytes n x).
Proof.
  revert x. induction n as [|n IH]; intros x; cbn; constructor; [|apply IH].
  apply N.mod_upper_bound. discriminate.
Qed.

Lemma hex_digit_is_hex (x : N) : (x < 16)%N -> is_hex_lower (MD5.hex_digit x) = true.
Proof.
  intros H.
  assert (Hall : forallb (fun n => is_hex_lower (MD5.hex_digit (N.of_nat n)))
                         (seq 0 16) = true) by (vm_compute; reflexivity).
  rewrite forallb_forall in Hall.
  specialize (Hall (N.to_nat x) ltac:(apply in_seq; lia)).
  now rewrite N2Nat.id in Hall.
Qed.

Lemma hex_all_hex (bs : list N) :
  Forall (fun b => (b < 256)%N) bs -> all_chars is_hex_lower (MD5.hex bs) = true.
Proof.
  induction 1 as [|b bs Hb _ IH]; [reflexivity|].
  cbn [MD5.hex all_chars]. rewrite IH, !hex_digit_is_hex; [reflexivity | |].
  - apply N.mod_upper_bound. discriminate.
  - apply N.Div0.div_lt_upper_bound. exact Hb.
Qed.

Lemma substring_all_chars (p : ascii -> bool) (n : nat) (s : string) :
  all_chars p s = true -> all_chars p (String.substring 0 n s) = true.
Proof.
  revert n. induction s as [|c s IH]; intros [|n] H; cbn in *; try reflexivity.
  apply andb_true_iff in H as [Hc Hs]. now rewrite Hc, IH.
Qed.

Lemma substring_length_0 (n : nat) (s : string) :
  (n <= String.length s)%nat -> String.length (String.substring 0 n s) = n.
Proof.
  revert n. induction s as [|c s IH]; intros [|n] H; cbn in *; try lia.
  rewrite IH; lia.
Qed.

Lemma digest_length (msg : list N) : length (MD5.digest msg) = 16%nat.
Proof. unfold MD5.digest. rewrite !length_app, !le_bytes_length. reflexivity. Qed.

Lemma compute_item_hash_format (item : Item) :
  String.length (compute_item_hash item) = 16%nat /\
  all_chars is_hex_lower (compute_item_hash item) = true.
Proof.
  unfold compute_item_hash, Text.take, MD5.hexdigest. split.
  - apply substring_length_0. rewrite hex_length, digest_length. lia.
  - apply substring_all_chars, hex_all_hex. unfold MD5.digest.
    rewrite !Forall_app. repeat split; apply le_bytes_small.
Qed.

(** X7.  The fingerprint of any item is a text of 16 lower-case
    hexadecimal digits; in particular it is never empty. *)
Theorem fingerprint_is_16_hex_digits (item : Item) :
  String.length (compute_item_hash item) = 16%nat /\
  all_chars is_hex_lower (compute_item_hash item) = true /\
  compute_item_hash item <> "".
Proof.
  destruct (compute_item_hash_format item) as [Hl Hh].
  split; [exact Hl|]. split; [exact Hh|].
  intros E. rewrite E in Hl. discriminate.
Qed.


Lemma append_length (a b : string) :
  String.length (a +:+ b) = (String.length a + String.length b)%nat.
Proof.
  induction a as [|c a IH]; [reflexivity|].
  change (S (String.length (a +:+ b))
          = S (String.length a + String.length b)).
  now rewrite IH.
Qed.

Lemma append_inj_r (a b s : string) : a +:+ s = b +:+ s -> a = b.
Proof.
  revert b. induction a as [|c a IH]; intros [|d b] H.
  - reflexivity.
  - apply (f_equal String.length) in H. rewrite !append_length in H.
    cbn in H. lia.
  - apply (f_equal String.length) in H. rewrite !append_length in H.
    cbn in H. lia.
  - cbn in H. injection H as -> H. f_equal. now apply IH.
Qed.

Lemma hash_content_injective_per_field (item : Item) (v1 v2 : string) :
  (hash_content (with_summary (Some v1) item)
   = hash_content (with_summary (Some v2) item) -> v1 = v2) /\
  (hash_content (with_description (Some v1) item)
   = hash_content (with_description (Some v2) item) -> v1 = v2) /\
  (hash_content (with_url (Some v1) item)
   = hash_content (with_url (Some v2) item) -> v1 = v2) /\
  (hash_content (with_location (Some v1) item)
   = hash_content (with_location (Some v2) item) -> v1 = v2).
Proof.
  unfold hash_content, with_summary, with_description, with_url, with_location.
  cbn [summary description url location dtstart dtend course_id type_tag str_get
       default].
  destruct (dtstart item) as [s|], (dtend item) as [e|],
    (Text.truthy_opt (course_id item)), (Text.truthy_opt (type_tag item));
    repeat split; intros H;
    repeat (apply append_inj_r in H);
    repeat (apply append_inj_l in H);
    cbv [id] in H; congruence.
Qed.

(** X8.  The hashed text tells a change of any single text field: two
    items that differ only in the title, only in the description, only in
    the URL or only in the location are hashed from different texts. *)
Theorem hashed_text_tells_each_text_field (item : Item) (v1 v2 : string) :
  v1 <> v2 ->
  hash_content (with_summary (Some v1) item)
  <> hash_content (with_summary (Some v2) item) /\
  hash_content (with_description (Some v1) item)
  <> hash_content (with_description (Some v2) item) /\
  hash_content (with_url (Some v1) item)
  <> hash_content (with_url (Some v2) item) /\
  hash_content (with_location (Some v1) item)
  <> hash_content (with_location (Some v2) item).
Proof.
  intros Hne.
  destruct (hash_content_injective_per_field item v1 v2) as (H1 & H2 & H3 & H4).
  repeat split; intros H; apply Hne; auto.
Qed.

Lemma hashed_text_tells_each_text_field_witness :
  "Essay 2" <> "Essay 3" /\
  hash_content (with_summary (Some "Essay 2") essay_item)
  <> hash_content (with_summary (Some "Essay 3") essay_item).
Proof.
  assert (H : "Essay 2" <> "Essay 3") by discriminate.
  split; [exact H|].
  exact (proj1 (hashed_text_tells_each_text_field essay_item _ _ H)).
Defined.

(** ** The builders *)

Lemma first_missing_key_none (item : Item) :
  first_missing_key item = None <-> has_keys item = true.
Proof.
  unfold first_missing_key, has_keys.
  destruct (uid item), (summary item), (description item), (url item);
    split; congruence.
Qed.

(** X9.  A builder fails exactly when the item lacks one of the keys uid,
    summary, description, url, with a KeyError for the first of them that
    is missing; the dates, the location and the tags may be missing. *)
Theorem builders_need_four_keys (fl : Flavour) (item : Item) (h : string)
    (now : dt_value) :
  (forall key, first_missing_key item = Some key ->
      f_create fl item h now = Raise (KeyError key) /\
      forall prior, f_update fl prior item h now = Raise (KeyError key)) /\
  (first_missing_key item = None ->
      (exists c k, f_create fl item h now = Ok (c, k)) /\
      forall prior, exists c, f_update fl prior item h now = Ok c).
Proof.
  split.
  - intros key. unfold first_missing_key.
    destruct fl; cbn [f_create f_update];
      unfold assignment_to_vtodo, update_vtodo, no_class_to_vevent, update_vevent;
      destruct (uid item), (summary item), (description item), (url item);
      intros [= <-]; split; reflexivity.
  - intros H. apply first_missing_key_none in H. split.
    + now apply f_create_ok.
    + intros prior. now apply f_update_ok.
Qed.

Lemma builders_need_four_keys_witness :
  first_missing_key (with_url None essay_item) = Some "url" /\
  assignment_to_vtodo (with_url None essay_item) "0123456789abcdef" noon
  = Raise (KeyError "url").
Proof.
  split; [reflexivity|].
  exact (proj1 (proj1 (builders_need_four_keys task_flavour
                         (with_url None essay_item) "0123456789abcdef" noon)
                      "url" eq_refl)).
Defined.

(** X10.  Creation and update build the same record as far as the item
    goes: for any prior record, the two builders agree on name, UID,
    title, dates, description, URL, fingerprint and categories.  The
    location of the item is in none of the records. *)
Theorem create_and_update_agree (fl : Flavour) (prior : Component)
    (item : Item) (h : string) (now : dt_value) (c c' : Component)
    (k : string) :
  f_create fl item h now = Ok (c, k) ->
  f_update fl prior item h now = Ok c' ->
  source_fields c' = source_fields c /\
  LOCATION c = None /\
  UID c = Some k /\ k = item_key fl item.
Proof.
  unfold item_key.
  destruct fl; cbn [f_create f_update f_prefix];
    unfold assignment_to_vtodo, update_vtodo, no_class_to_vevent, update_vevent;
    destruct (uid item), (summary item), (description item), (url item);
    try discriminate; cbn; intros [= <- <-] [= <-]; repeat split.
Qed.

Lemma create_and_update_agree_witness :
  exists c c' k,
    assignment_to_vtodo essay_item "0123456789abcdef" noon = Ok (c, k) /\
    update_vtodo done_task essay_item "0123456789abcdef" noon = Ok c' /\
    source_fields c' = source_fields c /\ STATUS c' <> STATUS c.
Proof.
  eexists. eexists. eexists.
  split; [reflexivity|]. split; [reflexivity|].
  split; [|discriminate].
  exact (proj1 (create_and_update_agree task_flavour done_task essay_item
                  "0123456789abcdef" noon _ _ _ eq_refl eq_refl)).
Defined.


(** ** Change descriptions *)

Lemma lstrip_app (a b : string) :
  Text.lstrip a <> "" -> Text.lstrip (a +:+ b) = Text.lstrip a +:+ b.
Proof.
  induction a as [|c a IH]; cbn [Text.lstrip]; [contradiction|].
  change (String c a +:+ b) with (String c (a +:+ b)). cbn [Text.lstrip].
  destruct (Text.is_space c); [exact IH | reflexivity].
Qed.

Lemma rstrip_app (a b : string) :
  Text.rstrip b <> "" -> Text.rstrip (a +:+ b) = a +:+ Text.rstrip b.
Proof.
  intros Hb. induction a as [|c a IH]; [reflexivity|].
  change (String c a +:+ b) with (String c (a +:+ b)).
  change (String c a +:+ Text.rstrip b) with (String c (a +:+ Text.rstrip b)).
  cbn [Text.rstrip].
  rewrite IH. destruct (a +:+ Text.rstrip b) eqn:E; [|reflexivity].
  destruct a; [cbn in E; contradiction | discriminate].
Qed.

Lemma rstrip_first (c : ascii) (r : string) :
  Text.is_space c = false -> Text.rstrip (String c r) <> "".
Proof.
  intros Hc. cbn [Text.rstrip]. rewrite Hc. now destruct (Text.rstrip r).
Qed.

Lemma str_get_some (s : string) : str_get (Some s) = s.
Proof. reflexivity. Qed.

(** X11.  The change description has false positives.  Against the very
    task record that the builder makes from an item, [detect_changes]
    still reports a changed location whenever the item has one (the
    builders never write the location), and a changed description
    whenever the item has a URL and a description that is not blank (the
    builder puts two line breaks before the URL line, the comparison
    expects one). *)
Theorem detect_changes_false_positives (item : Item) (h : string)
    (now : dt_value) (c : Component) (k : string) :
  assignment_to_vtodo item h now = Ok (c, k) ->
  (forall l, location item = Some l -> l <> "" ->
             In ("Location: " +:+ quoted "" +:+ " → " +:+ quoted l)
                (detect_changes c item TaskType)) /\
  (forall d u, description item = Some d -> url item = Some u ->
               Text.lstrip d <> "" -> u <> "" ->
               exists line, In line (detect_changes c item TaskType) /\
                            String.prefix "Description: " line = true).
Proof.
  unfold assignment_to_vtodo.
  destruct (uid item) as [cu|] eqn:Hu, (summary item) as [ct|] eqn:Ht,
    (description item) as [cd|] eqn:Hd, (url item) as [cl|] eqn:Hl;
    try discriminate.
  cbn. intros [= <- <-]. split.
  - intros l Hloc Hne. unfold detect_changes. cbn [LOCATION str_get default].
    rewrite Hloc, !str_get_some.
    replace (String.eqb "" l) with false
      by (symmetry; apply String.eqb_neq; congruence).
    repeat (apply in_or_app; right). now left.
  - intros d u [= ->] [= ->] Hd' Hu'.
    unfold detect_changes. cbn [DESCRIPTION SUMMARY URL DUE LOCATION str_get default].
    rewrite Ht, Hd, Hl, !str_get_some. cbn [Text.truthy_opt].
    assert (Htd : Text.truthy d = true) by (destruct d; [exfalso; apply Hd'; reflexivity | reflexivity]).
    assert (Htu : Text.truthy u = true) by (destruct u; [exfalso; apply Hu'; reflexivity | reflexivity]).
    unfold description_prop, description_parts. rewrite Htd, Htu.
    cbn [app join default id].
    set (B := "Canvas: " +:+ u).
    assert (HB : Text.rstrip B <> "") by (apply rstrip_first; reflexivity).
    assert (HnB : Text.rstrip (Text.nl +:+ B) <> "").
    { rewrite (rstrip_app Text.nl B HB). discriminate. }
    assert (Hold : Text.strip (d +:+ Text.nl +:+ Text.nl +:+ B)
                   = Text.lstrip d +:+ Text.nl +:+ Text.nl +:+ Text.rstrip B).
    { unfold Text.strip. rewrite lstrip_app by exact Hd'.
      rewrite rstrip_app; [|rewrite (rstrip_app Text.nl _ HnB); discriminate].
      now rewrite (rstrip_app Text.nl _ HnB), (rstrip_app Text.nl B HB). }
    assert (Hnew : Text.strip (d +:+ Text.nl +:+ B)
                   = Text.lstrip d +:+ Text.nl +:+ Text.rstrip B).
    { unfold Text.strip. rewrite lstrip_app by exact Hd'.
      rewrite rstrip_app by exact HnB. now rewrite (rstrip_app Text.nl B HB). }
    change (d +:+ Text.nl +:+ "Canvas: " +:+ u) with (d +:+ Text.nl +:+ B).
    change (d +:+ Text.nl +:+ (Text.nl +:+ "Canvas: " +:+ u))
      with (d +:+ Text.nl +:+ Text.nl +:+ B).
    rewrite Hold, Hnew.
    assert (Hneq : String.eqb
                     (Text.lstrip d +:+ Text.nl +:+ Text.nl +:+ Text.rstrip B)
                     (Text.lstrip d +:+ Text.nl +:+ Text.rstrip B) = false).
    { apply String.eqb_neq. intros E.
      apply append_inj_l in E. apply (f_equal String.length) in E.
      rewrite !append_length in E. cbn in E. lia. }
    rewrite Hneq.
    eexists. split; [apply in_or_app; right; apply in_or_app; left; now left|].
    reflexivity.
Qed.

Lemma detect_changes_false_positives_witness :
  exists c k line,
    assignment_to_vtodo essay_item (compute_item_hash essay_item) noon = Ok (c, k) /\
    In line (detect_changes c essay_item TaskType) /\
    String.prefix "Description: " line = true.
Proof.
  destruct (assignment_to_vtodo essay_item (compute_item_hash essay_item) noon)
    as [[c k]|e] eqn:E; [|discriminate].
  destruct (proj2 (detect_changes_false_positives essay_item _ noon c k E)
                  "Write about the New Deal."
                  "https://canvas.example/courses/1/assignments/4711"
                  eq_refl eq_refl) as (line & Hin & Hp).
  - discriminate.
  - discriminate.
  - now exists c, k, line.
Defined.

(** ** The index and the server *)

Lemma truthy_str_get (o : option string) :
  Text.truthy (str_get o) = true -> o = Some (str_get o) /\ str_get o <> "".
Proof. destruct o as [[|c s]|]; cbn; try discriminate. intros _. now split. Qed.

Lemma objects_at_origin (n u : string) (objs : list DavObject)
    (acc : option Existing) (e : Existing) :
  objects_at n u objs acc = Some e ->
  acc = Some e \/
  (In (object e) objs /\
   (exists ical, data (object e) = Some ical /\ In (component e) ical) /\
   hash e = str_get (X_CANVAS_HASH (component e)) /\
   indexable n (component e) = true /\ str_get (UID (component e)) = u).
Proof.
  unfold objects_at. revert acc.
  induction objs as [|obj objs IH]; intros acc H; cbn in H; [now left|].
  apply IH in H as [H | (Hin & Hrest)]; [|right; split; [now right | exact Hrest]].
  unfold object_at in H. destruct (data obj) as [ical|] eqn:Hd; [|now left].
  destruct (components_at_cases n u obj ical acc)
    as [[Heq _] | (c & Hc & Hi & Hu & Heq)]; rewrite Heq in H.
  - now left.
  - right. injection H as <-. cbn. repeat split; auto. now exists ical.
Qed.

Lemma object_at_keeps (n u : string) (obj : DavObject) (acc : option Existing) :
  is_Some acc -> is_Some (object_at n u acc obj).
Proof.
  intros H. destruct (object_at_cases n u obj acc) as [[-> _] | (c & -> & _)];
    [exact H | eauto].
Qed.

Lemma objects_at_keeps (n u : string) (objs : list DavObject)
    (acc : option Existing) :
  is_Some acc -> is_Some (objects_at n u objs acc).
Proof.
  unfold objects_at. revert acc.
  induction objs as [|obj objs IH]; intros acc H; cbn; [exact H|].
  apply IH. now apply object_at_keeps.
Qed.

Lemma objects_at_complete (n u : string) (objs : list DavObject)
    (acc : option Existing) (obj : DavObject) :
  In obj objs -> contributes n u obj -> is_Some (objects_at n u objs acc).
Proof.
  revert acc. induction objs as [|o objs IH]; intros acc [] Hc.
  - subst o. unfold objects_at. cbn. apply objects_at_keeps.
    destruct (object_at_cases n u obj acc) as [[_ Hn] | (c & -> & _)];
      [contradiction | eauto].
  - unfold objects_at. cbn. now apply IH.
Qed.

(** X12.  The index of existing records holds exactly the records the
    listing shows: an entry under [u] comes from a listed object of the
    right kind whose data parses and contains a component of that kind
    with the non-empty UID [u], and carries that component's
    X-CANVAS-HASH (empty when it has none); and every UID that some listed
    object holds a record for has an entry.  Objects that do not parse
    and components without UID are passed over. *)
Theorem index_holds_listed_records (k : ObjKind) (w : World) (u : string) :
  (forall e, kind_index k w !! u = Some e ->
     In (object e) (objects w) /\ kind (object e) = k /\
     (exists ical, data (object e) = Some ical /\ In (component e) ical) /\
     name (component e) = kind_name k /\
     UID (component e) = Some u /\ u <> "" /\
     hash e = str_get (X_CANVAS_HASH (component e))) /\
  ((exists obj, In obj (objects w) /\ kind obj = k /\
                contributes (kind_name k) u obj) ->
   is_Some (kind_index k w !! u)).
Proof.
  unfold kind_index. rewrite index_objects_lookup. split.
  - intros e H.
    apply objects_at_origin in H as [[=] | (Hin & Hdata & Hh & Hi & Hu)].
    apply List.filter_In in Hin as [Hin Hk]. apply bool_decide_eq_true in Hk.
    unfold indexable in Hi. apply andb_true_iff in Hi as [Hn Ht].
    apply String.eqb_eq in Hn. apply truthy_str_get in Ht as [Hsome Hne].
    rewrite Hu in Hsome, Hne. repeat split; auto.
  - intros (obj & Hin & Hk & Hc). apply objects_at_complete with (obj := obj);
      [|exact Hc].
    apply List.filter_In. split; [exact Hin | now apply bool_decide_eq_true].
Qed.


Lemma index_holds_listed_records_witness :
  exists e,
    kind_index TodoObject stocked_world !! "canvas-task-event-assignment-4711"
    = Some e /\
    hash e = "0123456789abcdef" /\ component e = done_task /\
    In (object e) (objects stocked_world).
Proof.
  destruct (kind_index TodoObject stocked_world
              !! "canvas-task-event-assignment-4711") as [e|] eqn:E;
    [|vm_compute in E; discriminate].
  exists e.
  destruct (proj1 (index_holds_listed_records TodoObject stocked_world _) e E)
    as (Hin & _).
  vm_compute in E. injection E as <-.
  repeat split. exact Hin.
Defined.

(** X13.  What is saved is found again: after a record built for an item
    is saved, the index of the next listing holds, under the UID of the
    item, that very component with the fingerprint of the item, whatever
    the server held before. *)
Theorem saved_record_is_indexed (fl : Flavour) (item : Item)
    (now : dt_value) (c : Component) (w : World) :
  created_component fl item now = Some c ->
  plan_clear 1 w ->
  exists w' e,
    save_object (f_kind fl) (calendar_of c) w = (Ok tt, w') /\
    kind_index (f_kind fl) w' !! item_key fl item = Some e /\
    component e = c /\ hash e = compute_item_hash item /\
    up_to_date fl (kind_index (f_kind fl) w') item.
Proof.
  intros Hc Hplan. destruct (f_create_record fl item now c Hc) as (Hi & Hu & Hx).
  exists (saved (f_kind fl) (calendar_of c) w),
         (entry_of (new_object (f_kind fl) (calendar_of c) w) c).
  assert (Hidx : kind_index (f_kind fl) (saved (f_kind fl) (calendar_of c) w)
                 !! item_key fl item
                 = Some (entry_of (new_object (f_kind fl) (calendar_of c) w) c)).
  { rewrite kind_index_saved by exact Hi. now rewrite Hu, String.eqb_refl. }
  split; [apply save_object_goes_through; now apply (plan_clear_hd 0)|].
  split; [exact Hidx|]. split; [reflexivity|]. split; [exact Hx|].
  eexists. split; [exact Hidx | exact Hx].
Qed.

Lemma saved_record_is_indexed_witness :
  exists c w' e,
    created_component task_flavour essay_item noon = Some c /\
    save_object TodoObject (calendar_of c) stocked_world = (Ok tt, w') /\
    kind_index TodoObject w' !! item_key task_flavour essay_item = Some e /\
    hash e = compute_item_hash essay_item.
Proof.
  destruct (created_component task_flavour essay_item noon) as [c|] eqn:Hc;
    [|discriminate].
  destruct (saved_record_is_indexed task_flavour essay_item noon c stocked_world Hc)
    as (w' & e & Hs & Hi & _ & Hh & _).
  { apply plan_clear_nil. reflexivity. }
  now exists c, w', e.
Defined.

(** ** Runs of the reconciler *)






Lemma item_step_counts (fl : Flavour) (idx : gmap string Existing)
    (now : dt_value) (item : Item) (r r' : Report) (w w' : World) (o : Outcome) :
  item_step fl idx now item r w o r' w' ->
  count_added fl r' = (count_added fl r + tally is_created [o])%nat /\
  count_updated fl r' = (count_updated fl r + tally is_replaced [o])%nat /\
  count_unchanged fl r' = (count_unchanged fl r + tally is_unchanged [o])%nat /\
  length (updated_items r')
  = (length (updated_items r) + tally is_replaced [o]
     + tally is_replace_failed [o])%nat /\
  count_added (other fl) r' = count_added (other fl) r /\
  count_updated (other fl) r' = count_updated (other fl) r /\
  count_unchanged (other fl) r' = count_unchanged (other fl) r.
Proof.
  intros H. destruct H; destruct fl; cbn; rewrite ?length_app; cbn;
    repeat split; lia.
Qed.

Lemma tally_cons (p : Outcome -> bool) (o : Outcome) (outs : list Outcome) :
  tally p (o :: outs) = (tally p [o] + tally p outs)%nat.
Proof. unfold tally. cbn. destruct (p o); reflexivity. Qed.

Lemma tally_partition (outs : list Outcome) :
  (tally is_created outs + tally is_replaced outs + tally is_unchanged outs
   + tally is_replace_failed outs + tally is_create_failed outs)%nat
  = length outs.
Proof.
  induction outs as [|o outs IH]; [reflexivity|].
  rewrite !(tally_cons _ o outs). cbn [length]. rewrite <- IH.
  destruct o; cbn; lia.
Qed.

Lemma run_steps_counts (fl : Flavour) (idx : gmap string Existing)
    (now : dt_value) (items : list Item) (r r' : Report) (w w' : World)
    (outs : list Outcome) :
  run_steps fl idx now items r w outs r' w' ->
  count_added fl r' = (count_added fl r + tally is_created outs)%nat /\
  count_updated fl r' = (count_updated fl r + tally is_replaced outs)%nat /\
  count_unchanged fl r' = (count_unchanged fl r + tally is_unchanged outs)%nat /\
  length (updated_items r')
  = (length (updated_items r) + tally is_replaced outs
     + tally is_replace_failed outs)%nat /\
  count_added (other fl) r' = count_added (other fl) r /\
  count_updated (other fl) r' = count_updated (other fl) r /\
  count_unchanged (other fl) r' = count_unchanged (other fl) r.
Proof.
  induction 1 as [r w | item items r w o r1 w1 outs r2 w2 Hstep _ IH].
  - cbn. repeat split; lia.
  - apply item_step_counts in Hstep.
    rewrite !(tally_cons _ o outs).
    destruct Hstep as (H1 & H2 & H3 & H4 & H5 & H6 & H7).
    destruct IH as (I1 & I2 & I3 & I4 & I5 & I6 & I7).
    repeat split; lia.
Qed.

(** X15.  The counters of a loop count its outcomes, whatever the server
    calls do: added counts the created items, updated the replaced ones,
    unchanged the unchanged ones, and the counters of the other loop stay
    as they are.  A failed item is counted nowhere, so the three counters
    fall short of the number of items by the number of failures; but
    [updated_items] gets an entry for every item with an out-of-date
    record, also when replacing it failed. *)
Theorem report_counts_outcomes (fl : Flavour) (idx : gmap string Existing)
    (now : dt_value) (items : list Item) (r : Report) (w : World) :
  Forall (fun item => has_keys item = true) items ->
  exists outs r' w',
    for_each (sync_item fl idx now) items r w = (Ok r', w') /\
    run_steps fl idx now items r w outs r' w' /\
    count_added fl r' = (count_added fl r + tally is_created outs)%nat /\
    count_updated fl r' = (count_updated fl r + tally is_replaced outs)%nat /\
    count_unchanged fl r' = (count_unchanged fl r + tally is_unchanged outs)%nat /\
    length (updated_items r')
    = (length (updated_items r) + tally is_replaced outs
       + tally is_replace_failed outs)%nat /\
    (count_added (other fl) r' = count_added (other fl) r /\
     count_updated (other fl) r' = count_updated (other fl) r /\
     count_unchanged (other fl) r' = count_unchanged (other fl) r) /\
    (tally is_created outs + tally is_replaced outs + tally is_unchanged outs
     + tally is_replace_failed outs + tally is_create_failed outs)%nat
    = length items.
Proof.
  intros Hk.
  destruct (run_steps_total fl idx now items r w Hk)
    as (outs & r' & w' & Hrun & Hsteps & Hlen).
  exists outs, r', w'. split; [exact Hrun|]. split; [exact Hsteps|].
  destruct (run_steps_counts _ _ _ _ _ _ _ _ _ Hsteps)
    as (H1 & H2 & H3 & H4 & H5 & H6 & H7).
  repeat (split; [assumption|]).
  split; [now repeat split|].
  rewrite tally_partition. exact Hlen.
Qed.

Lemma report_counts_outcomes_witness :
  exists outs r' w',
    for_each (sync_item task_flavour ∅ noon) [essay_item; lab_item]
             empty_report flaky_world = (Ok r', w') /\
    tasks_added r' = 1%nat /\
    tally is_created outs = 1%nat /\ tally is_create_failed outs = 1%nat.
Proof.
  assert (Hk : Forall (fun item => has_keys item = true) [essay_item; lab_item])
    by repeat constructor.
  destruct (report_counts_outcomes task_flavour ∅ noon [essay_item; lab_item]
              empty_report flaky_world Hk)
    as (outs & r' & w' & Hrun & _ & H1 & H2 & H3 & H4 & _ & H8).
  exists outs, r', w'. split; [exact Hrun|].
  vm_compute in Hrun. injection Hrun as <- <-.
  cbn in H1, H2, H3, H4, H8. repeat split; lia.
Defined.


(** ** What a run writes *)

Lemma save_object_effect (k : ObjKind) (ical : list Component) (w w' : World)
    (res : result unit) :
  save_object k ical w = (res, w') ->
  (exists b, journal w' = journal w ++ [(save_call k ical, b)]) /\
  (forall o, In o (objects w) -> In o (objects w')).
Proof.
  destruct w as [objs next plan jr out].
  unfold save_object, bindM, next_fault, log_call, raise. cbn.
  destruct plan as [|[] plan]; cbn; intros [= <- <-]; cbn; split;
    try (destruct k; eexists; reflexivity); intros o Ho; auto;
    apply in_or_app; now left.
Qed.

Lemma delete_effect (obj : DavObject) (w w' : World) (res : result unit) :
  delete obj w = (res, w') ->
  (exists b, journal w' = journal w ++ [(CallDelete (handle obj), b)]) /\
  (forall o, In o (objects w) -> handle o <> handle obj -> In o (objects w')).
Proof.
  destruct w as [objs next plan jr out].
  unfold delete, bindM, next_fault, log_call, raise, has_handle. cbn.
  destruct plan as [|[] plan]; cbn;
    try destruct (existsb _ objs); intros [= <- <-]; cbn; split;
    try (eexists; reflexivity); intros o Ho Hne; auto;
    apply List.filter_In; (split; [exact Ho|]);
    now apply negb_true_iff, Nat.eqb_neq.
Qed.

Lemma replace_calls_effect (fl : Flavour) (e : Existing) (c : Component)
    (w w' : World) (res : result unit) :
  replace_calls fl e c w = (res, w') ->
  (exists calls, journal w' = journal w ++ calls /\ (length calls <= 2)%nat /\
                 forall h b, In (CallDelete h, b) calls -> h = handle (object e)) /\
  (forall o, In o (objects w) -> handle o <> handle (object e) ->
             In o (objects w')).
Proof.
  unfold replace_calls, bindM.
  destruct (delete (object e) w) as [[[]|err] w1] eqn:Hdel.
  - intros Hsave.
    apply delete_effect in Hdel as [(b1 & Hj1) Ho1].
    apply save_object_effect in Hsave as [(b2 & Hj2) Ho2].
    split.
    + exists [(CallDelete (handle (object e)), b1);
              (save_call (f_kind fl) (calendar_of c), b2)].
      split; [rewrite Hj2, Hj1, <- app_assoc; reflexivity|].
      split; [cbn; lia|].
      intros h b [[= <- _] | [Hin | []]]; [reflexivity|].
      destruct (f_kind fl); discriminate.
    + intros o Ho Hne. now apply Ho2, Ho1.
  - intros [= <- <-]. apply delete_effect in Hdel as [(b1 & Hj1) Ho1].
    split; [|exact Ho1].
    exists [(CallDelete (handle (object e)), b1)].
    split; [exact Hj1|]. split; [cbn; lia|].
    now intros h b [[= <- _] | []].
Qed.

Lemma item_step_writes (fl : Flavour) (idx : gmap string Existing)
    (now : dt_value) (item : Item) (r r' : Report) (w w' : World) (o : Outcome) :
  item_step fl idx now item r w o r' w' ->
  (exists calls,
      journal w' = journal w ++ calls /\ (length calls <= 2)%nat /\
      forall h b, In (CallDelete h, b) calls -> stale_handle fl idx [item] h) /\
  (forall x, In x (objects w) -> ~ stale_handle fl idx [item] (handle x) ->
             In x (objects w')).
Proof.
  intros H.
  destruct H as [e title He Hh Ht
                | e title c w' He Hh Ht Hc Hcalls
                | e title c err w' He Hh Ht Hc Hcalls
                | title c w' He Ht Hc Hsave
                | title c err w' He Ht Hc Hsave].
  - split; [|auto]. exists []. cbn. rewrite app_nil_r.
    split; [reflexivity | split; [lia | intros h b []]].
  - apply replace_calls_effect in Hcalls as [(calls & Hj & Hl & Hd) Ho].
    split.
    + exists calls. split; [exact Hj | split; [exact Hl|]].
      intros h b Hin. exists item, e. rewrite (Hd h b Hin).
      repeat split; auto. now left.
    + intros x Hx Hns. apply Ho; [exact Hx|]. intros Heq. apply Hns.
      exists item, e. repeat split; auto. now left.
  - apply replace_calls_effect in Hcalls as [(calls & Hj & Hl & Hd) Ho].
    split.
    + exists calls. split; [exact Hj | split; [exact Hl|]].
      intros h b Hin. exists item, e. rewrite (Hd h b Hin).
      repeat split; auto. now left.
    + intros x Hx Hns. cbn. apply Ho; [exact Hx|]. intros Heq. apply Hns.
      exists item, e. repeat split; auto. now left.
  - apply save_object_effect in Hsave as [(b & Hj) Ho].
    split; [|intros x Hx _; now apply Ho].
    eexists. split; [exact Hj|]. split; [cbn; lia|].
    intros h b' [[=]|[]]. destruct (f_kind fl); discriminate.
  - apply save_object_effect in Hsave as [(b & Hj) Ho].
    split; [|intros x Hx _; now apply Ho].
    eexists. split; [exact Hj|]. split; [cbn; lia|].
    intros h b' [[=]|[]]. destruct (f_kind fl); discriminate.
Qed.

Lemma stale_handle_mono (fl : Flavour) (idx : gmap string Existing)
    (items items' : list Item) (h : nat) :
  (forall item, In item items -> In item items') ->
  stale_handle fl idx items h -> stale_handle fl idx items' h.
Proof.
  intros Hsub (item & e & Hin & H). exists item, e. split; [auto | exact H].
Qed.

Lemma run_steps_writes (fl : Flavour) (idx : gmap string Existing)
    (now : dt_value) (items : list Item) (r r' : Report) (w w' : World)
    (outs : list Outcome) :
  run_steps fl idx now items r w outs r' w' ->
  (exists calls,
      journal w' = journal w ++ calls /\
      (length calls <= 2 * length items)%nat /\
      forall h b, In (CallDelete h, b) calls -> stale_handle fl idx items h) /\
  (forall x, In x (objects w) -> ~ stale_handle fl idx items (handle x) ->
             In x (objects w')).
Proof.
  induction 1 as [r w | item items r w o r1 w1 outs r2 w2 Hstep _ IH].
  - split; [|auto]. exists []. rewrite app_nil_r.
    split; [reflexivity | split; [cbn; lia | intros h b []]].
  - apply item_step_writes in Hstep as [(c1 & Hj1 & Hl1 & Hd1) Ho1].
    destruct IH as [(c2 & Hj2 & Hl2 & Hd2) Ho2]. split.
    + exists (c1 ++ c2). split; [rewrite Hj2, Hj1, <- app_assoc; reflexivity|].
      split; [rewrite length_app; cbn [length]; lia|].
      intros h b Hin. apply in_app_or in Hin as [Hin|Hin].
      * apply (stale_handle_mono fl idx [item]); [|now apply (Hd1 h b)].
        intros i [<-|[]]. now left.
      * apply (stale_handle_mono fl idx items); [|now apply (Hd2 h b)].
        intros i Hi. now right.
    + intros x Hx Hns. apply Ho2; [apply Ho1; [exact Hx|]|].
      * intros Hs. apply Hns. apply (stale_handle_mono fl idx [item]); [|exact Hs].
        intros i [<-|[]]. now left.
      * intros Hs. apply Hns. apply (stale_handle_mono fl idx items); [|exact Hs].
        intros i Hi. now right.
Qed.

(** X16.  A loop of the reconciler issues at most two write calls per
    item, and deletes nothing but the indexed record of an item of the
    list whose fingerprint is out of date.  Every other object of the
    server is still there after the loop, whatever calls fail: records of
    items that left the feed are never removed. *)
Theorem only_stale_records_are_deleted (fl : Flavour)
    (idx : gmap string Existing) (now : dt_value) (items : list Item)
    (r : Report) (w : World) :
  Forall (fun item => has_keys item = true) items ->
  exists r' w' calls,
    for_each (sync_item fl idx now) items r w = (Ok r', w') /\
    journal w' = journal w ++ calls /\
    (length calls <= 2 * length items)%nat /\
    (forall h b, In (CallDelete h, b) calls -> stale_handle fl idx items h) /\
    (forall x, In x (objects w) -> ~ stale_handle fl idx items (handle x) ->
               In x (objects w')).
Proof.
  intros Hk.
  destruct (run_steps_total fl idx now items r w Hk)
    as (outs & r' & w' & Hrun & Hsteps & _).
  destruct (run_steps_writes _ _ _ _ _ _ _ _ _ Hsteps)
    as [(calls & Hj & Hl & Hd) Ho].
  now exists r', w', calls.
Qed.


Lemma only_stale_records_are_deleted_witness :
  exists r' w',
    for_each (sync_item task_flavour (kind_index TodoObject stocked_world) noon)
             [lab_item] empty_report stocked_world = (Ok r', w') /\
    In (mkDavObject 0 TodoObject (Some (calendar_of done_task))) (objects w') /\
    length (journal w') = 1%nat.
Proof.
  destruct (only_stale_records_are_deleted task_flavour
              (kind_index TodoObject stocked_world) noon [lab_item]
              empty_report stocked_world)
    as (r' & w' & calls & Hrun & Hj & _ & _ & Hkeep).
  { repeat constructor. }
  exists r', w'. split; [exact Hrun|]. split.
  - apply Hkeep; [now left|].
    intros (item & e & [<-|[]] & Hidx & _). vm_compute in Hidx. discriminate.
  - vm_compute in Hrun. injection Hrun as <- <-. reflexivity.
Defined.

Lemma has_handle_deleted (obj : DavObject) (w : World) :
  has_handle (handle obj) (deleted obj w) = false.
Proof.
  unfold has_handle, deleted. cbn.
  induction (objects w) as [|o objs IH]; cbn; [reflexivity|].
  destruct (Nat.eqb_spec (handle o) (handle obj)) as [Heq|Hne]; cbn; [exact IH|].
  rewrite IH. apply Nat.eqb_neq in Hne. now rewrite Hne.
Qed.

(** X17.  An update is not atomic.  When the delete of the old record goes
    through and the save of the new one fails, the item ends up with no
    record at all (and with it the status and completion the old record
    carried); the item is printed as failed, counted nowhere, and still
    listed in [updated_items]. *)
Theorem failed_save_after_delete_loses_record (fl : Flavour)
    (idx : gmap string Existing) (now : dt_value) (r : Report) (item : Item)
    (w : World) (e : Existing) (rest : list bool) :
  has_keys item = true ->
  idx !! item_key fl item = Some e ->
  hash e <> compute_item_hash item ->
  has_handle (handle (object e)) w = true ->
  faults w = false :: true :: rest ->
  exists r' w' title,
    sync_item fl idx now r item w = (Ok r', w') /\
    objects w'
    = List.filter (fun o => negb (handle o =? handle (object e))%nat) (objects w) /\
    has_handle (handle (object e)) w' = false /\
    last (console w') = Some (PrintUpdateFailed title (DAVError "save failed")) /\
    count_updated fl r' = count_updated fl r /\
    updated_items r' = updated_items r ++ [updated_entry fl e item].
Proof.
  intros Hk Hidx Hne Hh Hf.
  destruct (sync_item_step fl idx now r item w Hk) as (o & r' & w' & Hrun & Hstep).
  exists r', w'.
  assert (Hcalls : forall c title,
             replace_calls fl e c (say (PrintUpdating title) w)
             = (Raise (DAVError "save failed"),
                mkWorld (objects (deleted (object e) w)) (next_handle w) rest
                        (journal w ++ [(CallDelete (handle (object e)), true);
                                       (save_call (f_kind fl) (calendar_of c), false)])
                        (console w ++ [PrintUpdating title]))).
  { intros c title. unfold replace_calls, bindM.
    rewrite delete_goes_through; [|cbn; now rewrite Hf | exact Hh].
    destruct w as [objs next plan jr out]. cbn in Hf. subst plan.
    unfold save_object, bindM, next_fault, log_call, raise, deleted. cbn.
    rewrite <- app_assoc. destruct (f_kind fl); reflexivity. }
  destruct Hstep as [e' title He Hh' Ht
                    | e' title c w' He Hh' Ht Hc Hc'
                    | e' title c err w' He Hh' Ht Hc Hc'
                    | title c w' He Ht Hc Hsave
                    | title c err w' He Ht Hc Hsave];
    rewrite Hidx in He; try discriminate; injection He as <-;
    try contradiction; rewrite Hcalls in Hc'; [discriminate|].
  injection Hc' as <- <-. exists title.
  split; [exact Hrun|]. split; [reflexivity|].
  split; [apply (has_handle_deleted (object e) w)|].
  split; [cbn; now rewrite last_snoc|].
  split; [destruct fl; reflexivity | reflexivity].
Qed.

Lemma failed_save_after_delete_loses_record_witness :
  exists r' w',
    sync_item task_flavour (kind_index TodoObject stocked_world) noon
              empty_report essay_item (with_faults [false; true] stocked_world)
    = (Ok r', w') /\
    objects w' = [] /\ tasks_updated r' = 0%nat.
Proof.
  destruct (kind_index TodoObject stocked_world
              !! item_key task_flavour essay_item) as [e|] eqn:E;
    [|vm_compute in E; discriminate].
  destruct (failed_save_after_delete_loses_record task_flavour
              (kind_index TodoObject stocked_world) noon empty_report essay_item
              (with_faults [false; true] stocked_world) e [])
    as (r' & w' & title & Hrun & Hobj & _ & _ & Hcount & _).
  - reflexivity.
  - exact E.
  - vm_compute in E. injection E as <-. vm_compute. discriminate.
  - vm_compute in E. injection E as <-. reflexivity.
  - reflexivity.
  - exists r', w'. split; [exact Hrun|].
    vm_compute in E. injection E as <-. split; [exact Hobj | exact Hcount].
Defined.

(** X18.  A record without a stored fingerprint is always rebuilt: its
    hash reads as the empty text, which no fingerprint is, so the item is
    never reported unchanged and the delete of the old record is issued. *)
Theorem record_without_fingerprint_is_rebuilt (fl : Flavour)
    (idx : gmap string Existing) (now : dt_value) (r : Report) (item : Item)
    (w : World) (e : Existing) :
  has_keys item = true ->
  idx !! item_key fl item = Some e ->
  X_CANVAS_HASH (component e) = None ->
  hash e = str_get (X_CANVAS_HASH (component e)) ->
  exists o r' w' b,
    sync_item fl idx now r item w = (Ok r', w') /\
    item_step fl idx now item r w o r' w' /\
    (o = Replaced \/ exists err, o = ReplaceFailed err) /\
    In (CallDelete (handle (object e)), b) (journal w').
Proof.
  intros Hk Hidx Hnone Hhash. rewrite Hnone in Hhash. cbn in Hhash.
  assert (Hne : hash e <> compute_item_hash item).
  { rewrite Hhash. intros E.
    destruct (compute_item_hash_format item) as [Hl _].
    rewrite <- E in Hl. discriminate. }
  destruct (sync_item_step fl idx now r item w Hk) as (o & r' & w' & Hrun & Hstep).
  assert (Hdel : forall c title w1 res,
             replace_calls fl e c (say (PrintUpdating title) w) = (res, w1) ->
             exists b, In (CallDelete (handle (object e)), b) (journal w1)).
  { intros c title w1 res H. unfold replace_calls, bindM in H.
    destruct (delete (object e) _) as [[[]|err] w2] eqn:Hd.
    - apply delete_effect in Hd as [(b & Hj) _].
      apply save_object_effect in H as [(b2 & Hj2) _].
      exists b. rewrite Hj2, Hj. apply in_or_app. left. apply in_or_app.
      right. now left.
    - injection H as _ <-. apply delete_effect in Hd as [(b & Hj) _].
      exists b. rewrite Hj. apply in_or_app. right. now left. }
  pose proof Hstep as Hstep'.
  destruct Hstep as [e' title He Hh' Ht
                    | e' title c w' He Hh' Ht Hc Hc'
                    | e' title c err w' He Hh' Ht Hc Hc'
                    | title c w' He Ht Hc Hsave
                    | title c err w' He Ht Hc Hsave];
    rewrite Hidx in He; try discriminate; injection He as <-;
    try contradiction; destruct (Hdel _ _ _ _ Hc') as (b & Hin).
  - eexists. eexists. eexists. exists b. split; [exact Hrun|].
    split; [exact Hstep'|]. split; [now left | exact Hin].
  - eexists. eexists. eexists. exists b. split; [exact Hrun|].
    split; [exact Hstep'|]. split; [right; now exists err | exact Hin].
Qed.


Lemma record_without_fingerprint_is_rebuilt_witness :
  exists o r' w',
    sync_item task_flavour
      {[ item_key task_flavour essay_item
         := mkExisting "" (mkDavObject 0 TodoObject None) vcalendar ]}
      noon empty_report essay_item empty_world = (Ok r', w') /\
    (o = Replaced \/ exists err, o = ReplaceFailed err) /\
    journal w' <> [].
Proof.
  destruct (record_without_fingerprint_is_rebuilt task_flavour
              {[ item_key task_flavour essay_item
                 := mkExisting "" (mkDavObject 0 TodoObject None) vcalendar ]}
              noon empty_report essay_item empty_world
              (mkExisting "" (mkDavObject 0 TodoObject None) vcalendar))
    as (o & r' & w' & b & Hrun & _ & Ho & Hin).
  - reflexivity.
  - apply lookup_singleton_eq.
  - reflexivity.
  - reflexivity.
  - exists o, r', w'. split; [exact Hrun|]. split; [exact Ho|].
    intros E. rewrite E in Hin. destruct Hin.
Defined.

(** X19.  An item without "uid" or "summary" stops the whole run: the
    KeyError is raised outside every try block, so the loop ends at that
    item with nothing printed or written for it, and the items after it
    are never looked at. *)
Theorem missing_key_aborts_the_run (fl : Flavour)
    (idx : gmap string Existing) (now : dt_value) (pre post : list Item)
    (bad : Item) (key : string) (r : Report) (w : World) :
  Forall (fun item => has_keys item = true) pre ->
  first_missing_key bad = Some key ->
  key = "uid" \/ key = "summary" ->
  exists r1 w1,
    for_each (sync_item fl idx now) pre r w = (Ok r1, w1) /\
    for_each (sync_item fl idx now) (pre ++ bad :: post) r w
    = (Raise (KeyError key), w1).
Proof.
  intros Hpre Hmiss Hkey.
  destruct (run_steps_total fl idx now pre r w Hpre) as (_ & r1 & w1 & Hrun & _).
  exists r1, w1. split; [exact Hrun|].
  rewrite for_each_app, Hrun. cbn [for_each]. unfold bindM at 1.
  assert (Hbad : sync_item fl idx now r1 bad w1 = (Raise (KeyError key), w1)).
  { unfold first_missing_key in Hmiss. unfold sync_item.
    destruct (uid bad) as [u|] eqn:Hu.
    - destruct (summary bad) as [t|] eqn:Ht.
      + destruct (description bad), (url bad), Hkey; congruence.
      + injection Hmiss as <-. unfold bindM at 1, lift at 1. cbn [getitem].
        destruct (idx !! create_uid u (f_prefix fl)) as [e|].
        * destruct (String.eqb _ _); unfold bindM, lift, title40;
            rewrite Ht; reflexivity.
        * unfold bindM, lift.
          destruct fl; cbn [f_create];
            unfold assignment_to_vtodo, no_class_to_vevent;
            rewrite Hu, Ht; reflexivity.
    - injection Hmiss as <-. reflexivity. }
  now rewrite Hbad.
Qed.

Lemma missing_key_aborts_the_run_witness :
  exists r1 w1,
    for_each (sync_item task_flavour ∅ noon) [essay_item] empty_report empty_world
    = (Ok r1, w1) /\
    for_each (sync_item task_flavour ∅ noon)
             ([essay_item] ++ with_uid None lab_item :: [lab_item])
             empty_report empty_world
    = (Raise (KeyError "uid"), w1) /\
    length (objects w1) = 1%nat.
Proof.
  destruct (missing_key_aborts_the_run task_flavour ∅ noon [essay_item] [lab_item]
              (with_uid None lab_item) "uid" empty_report empty_world)
    as (r1 & w1 & H1 & H2).
  - repeat constructor.
  - reflexivity.
  - now left.
  - exists r1, w1. split; [exact H1|]. split; [exact H2|].
    vm_compute in H1. injection H1 as <- <-. reflexivity.
Defined.

(** ** The shape of an extracted course id *)

Lemma plus_greedy_ext {A} (p : ascii -> bool) (s : string)
    (k1 k2 : option ascii -> string -> option A) :
  (forall a b, k1 a b = k2 a b) ->
  Re.plus_greedy p s k1 = Re.plus_greedy p s k2.
Proof.
  intros H. induction s as [|c s IH]; cbn; [reflexivity|].
  now rewrite IH, H.
Qed.

(** A greedy repetition hands over at the longest prefix after which the
    rest matches. *)
Lemma plus_greedy_longest {A} (p : ascii -> bool) (s : string)
    (k : string -> option A) (r : A) :
  Re.plus_greedy p s (fun _ s' => k s') = Some r ->
  exists pre s2,
    s = pre +:+ s2 /\ pre <> "" /\ all_chars p pre = true /\ k s2 = Some r /\
    forall mid s3, mid <> "" -> s2 = mid +:+ s3 -> all_chars p mid = true ->
                   k s3 = None.
Proof.
  revert r. induction s as [|c s IH]; intros r; cbn; [discriminate|].
  destruct (p c) eqn:Hc; [|discriminate].
  destruct (Re.plus_greedy p s (fun _ s' => k s')) as [r'|] eqn:E.
  - intros [= <-]. destruct (IH r' eq_refl) as (pre & s2 & -> & Hne & Hall & Hk & Hmax).
    exists (String c pre), s2.
    split; [reflexivity|]. split; [discriminate|].
    split; [cbn; now rewrite Hc|]. split; [exact Hk | exact Hmax].
  - intros Hk. exists (String c ""), s.
    split; [reflexivity|]. split; [discriminate|].
    split; [cbn; now rewrite Hc|]. split; [exact Hk|].
    intros mid s3 Hne -> Hall.
    destruct (k s3) as [x|] eqn:Hk3; [|reflexivity]. exfalso.
    assert (Hsome : forall m t, m <> "" -> all_chars p m = true ->
                 Re.plus_greedy p (m +:+ t) (fun _ s' => k s') = None ->
                 k t = None).
    { clear. induction m as [|a m IHm]; intros t Hm Ha; [contradiction|].
        change (String a m +:+ t) with (String a (m +:+ t)). cbn.
        cbn in Ha. apply andb_true_iff in Ha as [Ha Hm'].
        rewrite Ha. destruct (Re.plus_greedy p (m +:+ t) _) eqn:E'; [discriminate|].
        destruct m as [|b m]; [cbn; auto|].
        intros _. apply IHm; [discriminate | exact Hm' | exact E']. }
    rewrite (Hsome mid s3 Hne Hall E) in Hk3. discriminate.
Qed.

Lemma substring_prefix (pre s : string) :
  String.substring 0 (String.length (pre +:+ s) - String.length s) (pre +:+ s)
  = pre.
Proof.
  rewrite append_length.
  replace (String.length pre + String.length s - String.length s)%nat
    with (String.length pre) by lia.
  induction pre as [|c pre IH].
  - now destruct s.
  - change (String c (String.substring 0 (String.length pre) (pre +:+ s))
            = String c pre).
    now rewrite IH.
Qed.

Lemma plus_greedy_some {A B} (p : ascii -> bool) (s : string)
    (k : option ascii -> string -> option A) (x : B) :
  Re.plus_greedy p s
    (fun a b => match k a b with Some _ => Some x | None => None end)
  = match Re.plus_greedy p s k with Some _ => Some x | None => None end.
Proof.
  induction s as [|c s IH]; cbn; [reflexivity|].
  destruct (p c); [|reflexivity].
  rewrite IH. now destruct (Re.plus_greedy p s k).
Qed.

Lemma close_bracket_lit {A} (prev : option ascii) (s : string) (x : A) :
  Re.lit "]" prev s (fun _ _ => Some x)
  = match (match s with String "]" _ => Some tt | _ => None end) with
    | Some _ => Some x
    | None => None
    end.
Proof.
  destruct s as [|c s]; [reflexivity|]. cbn [Re.lit].
  destruct (Ascii.eqb_spec "]" c) as [<-|Hne]; [reflexivity|].
  destruct c as [[] [] [] [] [] [] [] []]; try reflexivity. congruence.
Qed.

Lemma space_lit {A} (prev : option ascii) (s : string)
    (k : option ascii -> string -> option A) :
  Re.lit " " prev s k
  = match s with String " " s1 => k (Some " "%char) s1 | _ => None end.
Proof.
  destruct s as [|c s]; [reflexivity|]. cbn [Re.lit].
  destruct (Ascii.eqb_spec " " c) as [<-|Hne]; [reflexivity|].
  destruct c as [[] [] [] [] [] [] [] []]; try reflexivity. congruence.
Qed.

Lemma tail_match (prev : option ascii) (s : string) (cap : option string) :
  Re.rmatch
    (Re.Seq (Re.Lit " ")
       (Re.Seq (Re.Plus (fun c => negb (Ascii.eqb c "]"))) (Re.Lit "]")))
    prev s cap (fun _ _ cap' => Some cap')
  = if tail_ok s then Some cap else None.
Proof.
  cbn [Re.rmatch]. rewrite space_lit. unfold tail_ok.
  destruct s as [|c s1]; [reflexivity|].
  destruct c as [[] [] [] [] [] [] [] []]; try reflexivity.
  erewrite plus_greedy_ext by (intros a b; apply close_bracket_lit).
  rewrite plus_greedy_some. now destruct (Re.plus_greedy _ s1 _).
Qed.

Lemma rest_match (prev : option ascii) (s : string) (cap : option string) :
  Re.rmatch
    (Re.Seq (Re.Opt (Re.Seq (Re.Lit "-")
                       (Re.Seq (Re.Class Text.is_digit) (Re.Class Text.is_digit))))
       (Re.Seq (Re.Lit " ")
          (Re.Seq (Re.Plus (fun c => negb (Ascii.eqb c "]"))) (Re.Lit "]"))))
    prev s cap (fun _ _ cap' => Some cap')
  = if rest_ok s then Some cap else None.
Proof.
  pose proof tail_match as Ht. revert Ht.
  generalize (Re.Seq (Re.Lit " ")
          (Re.Seq (Re.Plus (fun c => negb (Ascii.eqb c "]"))) (Re.Lit "]"))).
  intros tail Ht. cbn [Re.rmatch]. rewrite Ht.
  destruct s as [|c s]; [reflexivity|]. cbn [Re.lit].
  destruct (Ascii.eqb_spec "-" c) as [<-|Hne].
  - destruct s as [|d1 [|d2 s3]]; [reflexivity | now destruct (Text.is_digit d1) |].
    rewrite Ht.
    change (rest_ok (String "-" (String d1 (String d2 s3))))
      with (Text.is_digit d1 && Text.is_digit d2 && tail_ok s3
            || tail_ok (String "-" (String d1 (String d2 s3)))).
    destruct (Text.is_digit d1), (Text.is_digit d2), (tail_ok s3); reflexivity.
  - destruct c as [[] [] [] [] [] [] [] []]; try reflexivity. congruence.
Qed.

Lemma course_id_match_at (prev : option ascii) (s : string) :
  Re.rmatch course_id_pattern prev s None (fun _ _ cap => Some cap)
  = match s with
    | String c s1 =>
        if Ascii.eqb "[" c then
          Re.plus_greedy is_code_char s1
            (fun _ s' =>
               if rest_ok s' then
                 Some (Some (String.substring
                               0 (String.length s1 - String.length s') s1))
               else None)
        else None
    | EmptyString => None
    end.
Proof.
  pose proof rest_match as Hr. revert Hr.
  unfold course_id_pattern. cbv zeta.
  generalize
    (Re.Seq (Re.Opt (Re.Seq (Re.Lit "-")
                       (Re.Seq (Re.Class Text.is_digit) (Re.Class Text.is_digit))))
       (Re.Seq (Re.Lit " ")
          (Re.Seq (Re.Plus (fun c => negb (Ascii.eqb c "]"))) (Re.Lit "]")))).
  intros rest Hr. cbn [Re.rmatch].
  destruct s as [|c s1]; [reflexivity|]. cbn [Re.lit].
  destruct (Ascii.eqb "[" c); [|reflexivity].
  apply plus_greedy_ext. intros a b. apply Hr.
Qed.

Lemma tail_ok_shape (s : string) :
  tail_ok s = true ->
  exists name b,
    s = " " +:+ name +:+ "]" +:+ b /\ name <> "" /\
    all_chars (fun c => negb (Ascii.eqb c "]")) name = true.
Proof.
  unfold tail_ok. destruct s as [|c s1]; [discriminate|].
  destruct c as [[] [] [] [] [] [] [] []]; try discriminate.
  destruct (Re.plus_greedy _ s1 _) as [u|] eqn:E; [|discriminate]. intros _.
  apply (plus_greedy_longest _ s1
           (fun s' => match s' with String "]" _ => Some tt | _ => None end))
    in E as (name & s2 & -> & Hne & Hall & Hk & _).
  destruct s2 as [|d b]; [discriminate|].
  destruct d as [[] [] [] [] [] [] [] []]; try discriminate.
  exists name, b. split; [reflexivity|]. split; assumption.
Qed.

Lemma tail_ok_rest_ok (s : string) : tail_ok s = true -> rest_ok s = true.
Proof.
  intros H. unfold rest_ok.
  destruct s as [|c [|d1 [|d2 s3]]]; try exact H;
    destruct c as [[] [] [] [] [] [] [] []]; try exact H.
  rewrite H. apply orb_true_r.
Qed.

(** Where the pattern matches, the greedy code group ends directly before
    the space: an optional section suffix is never left outside it. *)
Lemma course_id_match_shape (prev : option ascii) (s : string)
    (m : Re.match_object) :
  Re.rmatch course_id_pattern prev s None (fun _ _ cap => Some cap) = Some m ->
  exists id name b,
    m = Some id /\ s = "[" +:+ id +:+ " " +:+ name +:+ "]" +:+ b /\
    id <> "" /\ all_chars is_code_char id = true /\
    name <> "" /\ all_chars (fun c => negb (Ascii.eqb c "]")) name = true.
Proof.
  rewrite course_id_match_at. destruct s as [|c s1]; [discriminate|].
  destruct (Ascii.eqb_spec "[" c) as [<-|_]; [|discriminate]. intros E.
  apply (plus_greedy_longest _ s1
           (fun s' =>
              if rest_ok s' then
                Some (Some (String.substring
                              0 (String.length s1 - String.length s') s1))
              else None))
    in E as (id & s2 & -> & Hne & Hall & Hk & Hmax).
  destruct (rest_ok s2) eqn:Hrest; [|discriminate].
  injection Hk as <-. rewrite substring_prefix.
  assert (Htail : tail_ok s2 = true).
  { destruct (tail_ok s2) eqn:Ht; [reflexivity|]. exfalso.
    unfold rest_ok in Hrest. rewrite Ht in Hrest.
    destruct s2 as [|c [|d1 [|d2 s3]]]; try discriminate;
      destruct c as [[] [] [] [] [] [] [] []]; try discriminate.
    rewrite orb_false_r in Hrest.
    apply andb_true_iff in Hrest as [Hd Ht3].
    apply andb_true_iff in Hd as [Hd1 Hd2].
    specialize (Hmax (String "-" (String d1 (String d2 ""))) s3).
    rewrite (tail_ok_rest_ok _ Ht3) in Hmax.
    assert (Hcode : all_chars is_code_char (String "-" (String d1 (String d2 "")))
                    = true).
    { cbn [all_chars]. unfold is_code_char at 2 3. rewrite Hd1, Hd2.
      rewrite !orb_true_r. reflexivity. }
    specialize (Hmax ltac:(discriminate) eq_refl Hcode). discriminate. }
  apply tail_ok_shape in Htail as (name & b & -> & Hn & Hnall).
  exists id, name, b. split; [reflexivity|]. split; [reflexivity|].
  repeat split; assumption.
Qed.

Lemma search_from_finds (r : Re.regex) (s : string) (prev : option ascii)
    (m : Re.match_object) :
  Re.search_from r prev s = Some m ->
  exists a t prev',
    s = a +:+ t /\
    Re.rmatch r prev' t None (fun _ _ cap => Some cap) = Some m.
Proof.
  revert prev. induction s as [|c s IH]; intros prev; cbn [Re.search_from].
  - destruct (Re.rmatch r prev "" None _) as [x|] eqn:E; [|discriminate].
    intros [= <-]. now exists "", "", prev.
  - destruct (Re.rmatch r prev (String c s) None _) as [x|] eqn:E.
    + intros [= <-]. now exists "", (String c s), prev.
    + intros H. apply IH in H as (a & t & prev' & -> & Hm).
      now exists (String c a), t, prev'.
Qed.




Lemma plus_greedy_exact {A} (p : ascii -> bool) (m : string) (c : ascii)
    (t : string) (k : string -> option A) (r : A) :
  p c = false -> m <> "" -> all_chars p m = true ->
  k (String c t) = Some r ->
  Re.plus_greedy p (m +:+ String c t) (fun _ s' => k s') = Some r.
Proof.
  intros Hc Hm Hall Hk. induction m as [|a m IH]; [contradiction|].
  change (String a m +:+ String c t) with (String a (m +:+ String c t)).
  cbn [Re.plus_greedy]. cbn [all_chars] in Hall.
  apply andb_true_iff in Hall as [Ha Hall]. rewrite Ha.
  destruct m as [|a' m].
  - change ("" +:+ String c t) with (String c t).
    cbn [Re.plus_greedy]. rewrite Hc. exact Hk.
  - rewrite IH; [reflexivity | discriminate | exact Hall].
Qed.

Lemma course_id_match_label (prev : option ascii) (id name b : string) :
  id <> "" -> all_chars is_code_char id = true ->
  name <> "" -> all_chars (fun c => negb (Ascii.eqb c "]")) name = true ->
  Re.rmatch course_id_pattern prev
    ("[" +:+ id +:+ " " +:+ name +:+ "]" +:+ b) None (fun _ _ cap => Some cap)
  = Some (Some id).
Proof.
  intros Hid Hcode Hname Hfree. rewrite course_id_match_at.
  change ("[" +:+ id +:+ " " +:+ name +:+ "]" +:+ b)
    with (String "[" (id +:+ String " " (name +:+ String "]" b))).
  change (Ascii.eqb "[" "[") with true. cbv iota.
  apply (plus_greedy_exact is_code_char id " " (name +:+ String "]" b)
           (fun s' =>
              if rest_ok s' then
                Some (Some (String.substring 0
                    (String.length (id +:+ String " " (name +:+ String "]" b))
                     - String.length s')
                    (id +:+ String " " (name +:+ String "]" b))))
              else None));
    [reflexivity | exact Hid | exact Hcode |].
  rewrite substring_prefix.
  rewrite tail_ok_rest_ok; [reflexivity|].
  change (tail_ok (String " " (name +:+ String "]" b)))
    with (match Re.plus_greedy (fun c => negb (Ascii.eqb c "]"))
                  (name +:+ String "]" b)
                  (fun _ s' => match s' with
                               | String "]" _ => Some tt
                               | _ => None
                               end) with
          | Some _ => true
          | None => false
          end).
  rewrite (plus_greedy_exact (fun c => negb (Ascii.eqb c "]")) name "]" b
             (fun s' => match s' with String "]" _ => Some tt | _ => None end)
             tt); [reflexivity | reflexivity | exact Hname | exact Hfree | reflexivity].
Qed.

Lemma search_from_reaches (r : Re.regex) (a t : string) (prev : option ascii) :
  (forall prev', Re.rmatch r prev' t None (fun _ _ cap => Some cap) <> None) ->
  Re.search_from r prev (a +:+ t) <> None.
Proof.
  intros Ht. revert prev. induction a as [|c a IH]; intros prev.
  - change ("" +:+ t) with t. specialize (Ht prev).
    destruct t as [|d t]; cbn [Re.search_from];
      destruct (Re.rmatch r prev _ None _); congruence.
  - change (String c a +:+ t) with (String c (a +:+ t)).
    cbn [Re.search_from].
    destruct (Re.rmatch r prev _ None _); [discriminate | apply IH].
Qed.

Lemma search_from_skips (a t : string) (prev : option ascii)
    (m : Re.match_object) :
  Text.contains "[" a = false ->
  (forall prev',
     Re.rmatch course_id_pattern prev' t None (fun _ _ cap => Some cap)
     = Some m) ->
  Re.search_from course_id_pattern prev (a +:+ t) = Some m.
Proof.
  intros Ha Ht. revert prev. induction a as [|c a IH]; intros prev.
  - change ("" +:+ t) with t.
    destruct t as [|d t]; cbn [Re.search_from]; now rewrite Ht.
  - change (String c a +:+ t) with (String c (a +:+ t)).
    cbn [Re.search_from]. rewrite course_id_match_at.
    simpl in Ha. apply orb_false_iff in Ha as [Hc Ha'].
    destruct (Ascii.eqb_spec "[" c) as [<-|Hne].
    + simpl in Hc. destruct a; discriminate.
    + now apply IH.
Qed.

(** X21.  A title that holds a bracketed label, "[" then a non-empty run
    of upper-case letters, digits and hyphens, a space, a non-empty name
    without "]" and a "]", always yields a course id; when no "[" stands
    before that label, the id is exactly the run of the label. *)
Theorem course_label_is_found (a id name b : string) :
  id <> "" -> all_chars is_code_char id = true ->
  name <> "" -> all_chars (fun c => negb (Ascii.eqb c "]")) name = true ->
  exists id',
    extract_course_id_from_summary
      (a +:+ "[" +:+ id +:+ " " +:+ name +:+ "]" +:+ b) = Some id' /\
    (Text.contains "[" a = false -> id' = id).
Proof.
  intros Hid Hcode Hname Hfree.
  unfold extract_course_id_from_summary, Re.search.
  destruct (Re.search_from course_id_pattern None _) as [m|] eqn:E.
  - pose proof E as E'.
    apply search_from_finds in E' as (a' & t & prev' & _ & Hm).
    apply course_id_match_shape in Hm as (id' & _ & _ & -> & _).
    exists id'. split; [reflexivity|]. intros Ha.
    rewrite (search_from_skips a _ None (Some id) Ha) in E.
    + now injection E.
    + intros p. now apply course_id_match_label.
  - exfalso. revert E. apply search_from_reaches.
    intros p. now rewrite course_id_match_label.
Qed.

Lemma course_label_is_found_witness :
  exists id',
    extract_course_id_from_summary
      ("Quiz 1 " +:+ "[" +:+ "MATH-1210" +:+ " " +:+ "Calculus I" +:+ "]" +:+ "")
    = Some id' /\
    (Text.contains "[" "Quiz 1 " = false -> id' = "MATH-1210").
Proof.
  apply (course_label_is_found "Quiz 1 " "MATH-1210" "Calculus I" "");
    [discriminate | reflexivity | discriminate | reflexivity].
Defined.



(** ** Whole-word matching *)

Lemma lit_app {A} (l : string) (prev : option ascii) (b : string)
    (k : option ascii -> string -> option A) :
  Re.lit l prev (l +:+ b) k = k (char_before prev l) b.
Proof.
  revert prev. induction l as [|c l IH]; intros prev; [reflexivity|].
  change (String c l +:+ b) with (String c (l +:+ b)).
  cbn [Re.lit]. rewrite Ascii.eqb_refl, IH.
  unfold char_before. cbn [last_char]. now destruct (last_char l).
Qed.

Lemma lit_some {A} (l : string) (prev : option ascii) (s : string)
    (k : option ascii -> string -> option A) :
  Re.lit l prev s k <> None -> exists b, s = l +:+ b.
Proof.
  revert prev s. induction l as [|c l IH]; intros prev s H.
  - now exists s.
  - destruct s as [|d s]; [now contradiction H|]. cbn [Re.lit] in H.
    destruct (Ascii.eqb_spec c d) as [<-|_]; [|now contradiction H].
    apply IH in H as [b ->]. now exists b.
Qed.

Lemma peek_app (l b : string) :
  l <> "" -> Re.peek (l +:+ b) = Re.peek l.
Proof. destruct l; [contradiction | reflexivity]. Qed.

Lemma char_before_nonempty (prev : option ascii) (l : string) :
  l <> "" -> char_before prev l = last_char l.
Proof.
  unfold char_before. destruct l as [|c l]; [contradiction|]. intros _.
  cbn [last_char]. now destruct (last_char l).
Qed.

Lemma char_before_cons (prev : option ascii) (c : ascii) (a : string) :
  char_before prev (String c a) = char_before (Some c) a.
Proof. unfold char_before. cbn [last_char]. now destruct (last_char a). Qed.

(** Where the whole-word pattern of a keyword matches. *)
Lemma whole_word_match_at (kw : string) (prev : option ascii) (s : string) :
  Re.is_word_at (Re.peek kw) = true ->
  Re.is_word_at (last_char kw) = true ->
  (Re.rmatch (whole_word kw) prev s None (fun _ _ cap => Some cap) <> None <->
   exists b, s = kw +:+ b /\
             Re.is_word_at prev = false /\ Re.is_word_at (Re.peek b) = false).
Proof.
  intros Hfirst Hlast.
  assert (Hne : kw <> "") by (intros ->; discriminate).
  unfold whole_word. cbn [Re.rmatch]. split.
  - intros H.
    destruct (xorb (Re.is_word_at prev) (Re.is_word_at (Re.peek s))) eqn:Hx;
      [|now contradiction H].
    destruct (lit_some _ _ _ _ H) as [b ->]. exists b.
    rewrite lit_app, char_before_nonempty, Hlast in H by exact Hne.
    rewrite peek_app, Hfirst in Hx by exact Hne.
    split; [reflexivity|].
    destruct (Re.is_word_at prev); [discriminate|].
    destruct (Re.is_word_at (Re.peek b)); [now contradiction H|].
    split; reflexivity.
  - intros (b & -> & Hp & Hb).
    rewrite peek_app, Hfirst, Hp by exact Hne. cbn [xorb].
    rewrite lit_app, char_before_nonempty, Hlast, Hb by exact Hne.
    discriminate.
Qed.

Lemma search_from_positions (r : Re.regex) (s : string) (prev : option ascii) :
  Re.search_from r prev s <> None <->
  exists a t,
    s = a +:+ t /\
    Re.rmatch r (char_before prev a) t None (fun _ _ cap => Some cap) <> None.
Proof.
  split.
  - revert prev. induction s as [|c s IH]; intros prev; cbn [Re.search_from].
    + destruct (Re.rmatch r prev "" None _) as [x|] eqn:E;
        [|intros H; now contradiction H].
      intros _. exists "", "". split; [reflexivity|].
      change (char_before prev "") with prev. now rewrite E.
    + destruct (Re.rmatch r prev (String c s) None _) as [x|] eqn:E.
      * intros _. exists "", (String c s). split; [reflexivity|].
        change (char_before prev "") with prev. now rewrite E.
      * intros H. apply IH in H as (a & t & -> & Hm).
        exists (String c a), t. split; [reflexivity|].
        now rewrite char_before_cons.
  - intros (a & t & -> & Hm). revert prev Hm.
    induction a as [|c a IH]; intros prev Hm.
    + change (char_before prev "") with prev in Hm.
      change ("" +:+ t) with t.
      destruct t as [|d t]; cbn [Re.search_from];
        destruct (Re.rmatch r prev _ None _); congruence.
    + change (String c a +:+ t) with (String c (a +:+ t)).
      cbn [Re.search_from]. rewrite char_before_cons in Hm.
      destruct (Re.rmatch r prev _ None _); [discriminate | now apply IH].
Qed.

(** X22.  The keyword test of [get_assignment_type_tag] is a whole-word
    test: for a keyword that begins and ends with a letter, a digit or an
    underscore, the pattern is found in a text exactly when the keyword
    occurs in it with no such character directly before it and none
    directly after it.  So "lab" is found in "lab 3" and not in
    "label". *)
Theorem whole_word_search (kw text : string) :
  Re.is_word_at (Re.peek kw) = true ->
  Re.is_word_at (last_char kw) = true ->
  (Re.search (whole_word kw) text <> None <->
   exists a b,
     text = a +:+ kw +:+ b /\
     Re.is_word_at (last_char a) = false /\
     Re.is_word_at (Re.peek b) = false).
Proof.
  intros Hfirst Hlast. unfold Re.search.
  rewrite search_from_positions. split.
  - intros (a & t & -> & Hm).
    apply (whole_word_match_at kw _ _ Hfirst Hlast) in Hm as (b & -> & Hp & Hb).
    exists a, b. split; [reflexivity|]. split; [|exact Hb].
    unfold char_before in Hp. now destruct (last_char a).
  - intros (a & b & -> & Hp & Hb). exists a, (kw +:+ b).
    split; [reflexivity|].
    apply (whole_word_match_at kw _ _ Hfirst Hlast). exists b.
    split; [reflexivity|]. split; [|exact Hb].
    unfold char_before. now destruct (last_char a).
Qed.

Lemma whole_word_search_witness :
  Re.search (whole_word "lab") "weekly lab 3" <> None /\
  Re.search (whole_word "lab") "label maker" = None.
Proof.
  split.
  - apply (whole_word_search "lab" "weekly lab 3"); [reflexivity | reflexivity |].
    exists "weekly ", " 3". repeat split; reflexivity.
  - vm_compute. reflexivity.
Defined.
